(** * Wine-quality analysis script: a shallow embedding of [winequalitycode.py]

    The script is a straight-line pandas / scikit-learn pipeline.  Tables are
    embedded as values, the Python objects that hold them live in a heap
    addressed by references (so that in-place column assignment and aliasing
    are visible), and every statement of the script becomes one step of a
    state-and-exception monad over a [world].

    Conventions of the embedding:
    - the numbers in a table are exact rationals, as every finite [float64]
      or [int64] is one; a column carries its dtype, numeric or object, as
      pandas decides it when the column is read, assigned or concatenated;
    - the pandas operations the script calls are written out; the
      correlation matrix is computed as pandas computes it, in binary64
      arithmetic (IEEE 754 operations, round to nearest even), so that
      rounding, overflow and underflow are those of the program;
    - the routines of scikit-learn the script calls (k-means, least squares,
      the silhouette score) are an interface, [Sklearn], of functions of
      their arguments and of the generator they draw from;
    - a plotting call is recorded in the trace with the data it draws; it
      fails when a column it is asked for by name is missing, and the heat
      map fails when it is given an empty matrix. *)

From Stdlib Require Import Lia QArith Qcanon Qround SpecFloat.
From stdpp Require Import numbers base option list strings.

Local Open Scope string_scope.
Local Open Scope Z_scope.
Local Open Scope list_scope.
Local Open Scope nat_scope.

(** ** Tables *)

(** A cell of a table: a missing value, a number or a string. *)
Inductive cell : Type :=
| NaN
| Num (x : Qc)
| Str (s : string).

#[global] Instance cell_eq_dec : EqDecision cell.
Proof. solve_decision. Defined.

(** The dtype of a column, as far as the script can tell them apart:
    [int64] and [float64] are numeric, a column of strings is [object]. *)
Inductive dtype : Type :=
| numeric
| object.

#[global] Instance dtype_eq_dec : EqDecision dtype.
Proof. solve_decision. Defined.

(** A [DataFrame]: column labels, the dtype of each column, and the rows in
    order, each with its index label.  Column labels are unique in every
    table [pd.read_csv] returns (pandas renames repeated header fields); the
    index is not unique after [pd.concat]. *)
Record DataFrame : Type := mkDataFrame {
  columns : list string;
  dtypes : list dtype;
  rows : list (Z * list cell)
}.

#[global] Instance DataFrame_eq_dec : EqDecision DataFrame.
Proof. solve_decision. Defined.

Definition index (d : DataFrame) : list Z := (rows d).*1.
Definition values (d : DataFrame) : list (list cell) := (rows d).*2.

(** [data.shape] *)
Definition shape (d : DataFrame) : nat * nat := (length (rows d), length (columns d)).

(** [columns.get_loc]: position of a label. *)
Fixpoint get_loc (c : string) (cols : list string) : option nat :=
  match cols with
  | [] => None
  | c' :: cols' => if decide (c = c') then Some 0 else S <$> get_loc c cols'
  end.

(** Positional access in a row; a position past the end reads as missing. *)
Definition cell_at (j : nat) (r : list cell) : cell := default NaN (r !! j).

(** The values of column number [j]. *)
Definition column_at (j : nat) (d : DataFrame) : list cell := cell_at j <$> values d.

(** [data[c]] as a value: the cells of column [c], [None] for a [KeyError]. *)
Definition column (c : string) (d : DataFrame) : option (list cell) :=
  j ← get_loc c (columns d); Some (column_at j d).

(** The table made of the columns at positions [js], same rows. *)
Definition take_columns (js : list nat) (d : DataFrame) : DataFrame :=
  {| columns := omap (λ j, columns d !! j) js;
     dtypes := omap (λ j, dtypes d !! j) js;
     rows := (λ r, (r.1, (λ j, cell_at j r.2) <$> js)) <$> rows d |}.

(** [data[features]] as a value: [None] when a label is not a column. *)
Definition select (features : list string) (d : DataFrame) : option DataFrame :=
  js ← mapM (λ c, get_loc c (columns d)) features; Some (take_columns js d).

(** Column [c] becomes [vals], one value per row, with dtype [t]: an
    existing column is overwritten in place, a new one is appended on the
    right.  The dtypes stay in step with the columns: the new dtype is
    written at the position of the new column, and a column that had no
    dtype recorded counts as [object]. *)
Definition assign (t : dtype) (c : string) (vals : list cell) (d : DataFrame)
    : DataFrame :=
  match get_loc c (columns d) with
  | Some j =>
      {| columns := columns d;
         dtypes := <[j := t]> (dtypes d);
         rows := zip_with (λ r v, (r.1, <[j := v]> r.2)) (rows d) vals |}
  | None =>
      {| columns := columns d ++ [c];
         dtypes := resize (length (columns d)) object (dtypes d) ++ [t];
         rows := zip_with (λ r v, (r.1, r.2 ++ [v])) (rows d) vals |}
  end.

(** The dtype pandas gives to assigned values: [object] as soon as one of
    them is a string. *)
Definition is_number (v : cell) : bool :=
  match v with Str _ => false | _ => true end.

Definition dtype_of (vals : list cell) : dtype :=
  if forallb is_number vals then numeric else object.

(** [data[c] = vals], with one value per row. *)
Definition set_column (c : string) (vals : list cell) (d : DataFrame) : DataFrame :=
  assign (dtype_of vals) c vals d.

(** [data[c] = scalar]: the scalar is broadcast to every row, and decides
    the dtype also when there is no row. *)
Definition set_scalar (c : string) (v : cell) (d : DataFrame) : DataFrame :=
  assign (dtype_of [v]) c (replicate (length (rows d)) v) d.

(** Align a row of a table with columns [src] to the columns [dst]: a column
    absent from [src] is filled with [NaN]. *)
Definition reindex_row (src dst : list string) (r : list cell) : list cell :=
  (λ c, match get_loc c src with Some j => cell_at j r | None => NaN end) <$> dst.

Definition reindex (dst : list string) (d : DataFrame) : list (Z * list cell) :=
  (λ r, (r.1, reindex_row (columns d) dst r.2)) <$> rows d.

(** Columns of an outer join, in order of first appearance. *)
Fixpoint union_columns (frames : list DataFrame) (acc : list string) : list string :=
  match frames with
  | [] => acc
  | d :: frames' =>
      union_columns frames' (acc ++ filter (λ c, c ∉ acc) (columns d))
  end.

(** The dtype of column [c] in a frame that has it. *)
Definition dtype_in (c : string) (d : DataFrame) : option dtype :=
  j ← get_loc c (columns d); dtypes d !! j.

(** The dtype of a concatenated column: [object] when it is [object] in one
    of the frames, numeric otherwise (the missing values that fill the
    column for a frame without it are floats). *)
Definition common_dtype (frames : list DataFrame) (c : string) : dtype :=
  if decide (Exists (λ d, dtype_in c d = Some object) frames) then object else numeric.

(** [pd.concat(frames, axis=0)]: rows of all frames, in order, with their own
    index labels, over the union of the columns. *)
Definition concat (frames : list DataFrame) : DataFrame :=
  let cols := union_columns frames [] in
  {| columns := cols;
     dtypes := common_dtype frames <$> cols;
     rows := frames ≫= reindex cols |}.

(** [data.isnull()] per cell, and [data.isnull().sum()] per column. *)
Definition isnull (v : cell) : bool := bool_decide (v = NaN).

Definition isnull_sum (d : DataFrame) : list (string * nat) :=
  imap (λ j c, (c, length (filter (λ v, isnull v) (column_at j d)))) (columns d).

(** Boolean indexing [data[mask]]. *)
Fixpoint boolean_index {A} (mask : list bool) (l : list A) : list A :=
  match mask, l with
  | b :: mask', x :: l' =>
      if b then x :: boolean_index mask' l' else boolean_index mask' l'
  | _, _ => []
  end.

(** [data.dropna()]: the rows without a missing value. *)
Definition notna_row (r : list cell) : bool := forallb (λ v, negb (isnull v)) r.

Definition dropna (d : DataFrame) : DataFrame :=
  {| columns := columns d;
     dtypes := dtypes d;
     rows := boolean_index (notna_row <$> values d) (rows d) |}.

(** [data.duplicated()]: a row is marked when an earlier row has the same
    cells (index labels are not compared, missing values compare equal). *)
Fixpoint duplicated_from (seen : list (list cell)) (rs : list (list cell)) : list bool :=
  match rs with
  | [] => []
  | r :: rs' => bool_decide (r ∈ seen) :: duplicated_from (r :: seen) rs'
  end.

Definition duplicated (d : DataFrame) : list bool := duplicated_from [] (values d).

(** [mask.sum()] *)
Definition sum_mask (mask : list bool) : nat := length (filter (λ b, b = true) mask).

(** [data.drop_duplicates()]: keeps the first of equal rows. *)
Definition drop_duplicates (d : DataFrame) : DataFrame :=
  {| columns := columns d;
     dtypes := dtypes d;
     rows := boolean_index (negb <$> duplicated d) (rows d) |}.

(** [series.nunique()]: number of distinct non-missing values. *)
Definition nunique (s : list cell) : nat :=
  length (remove_dups (filter (λ v, v ≠ NaN) s)).

(** ** Correlation *)

(** [data.select_dtypes(include=[np.number])]: the columns whose dtype is
    numeric, whatever their cells. *)
Definition numeric_columns (d : DataFrame) : list nat :=
  filter (λ j, dtypes d !! j = Some numeric) (seq 0 (length (columns d))).

Definition select_dtypes_number (d : DataFrame) : DataFrame :=
  take_columns (numeric_columns d) d.

Definition to_numeric (v : cell) : option Qc :=
  match v with Num x => Some x | _ => None end.

Definition Qcsum (l : list Qc) : Qc := foldr Qcplus (Q2Qc 0) l.

Definition mean (l : list Qc) : Qc :=
  (Qcsum l / Q2Qc (inject_Z (Z.of_nat (length l))))%Qc.

(** A [float64]: the binary64 format, 53 bits of precision, and its
    operations, each rounded to nearest even. *)
Definition float64 : Type := spec_float.

Definition fadd : float64 → float64 → float64 := SFadd 53 1024.
Definition fsub : float64 → float64 → float64 := SFsub 53 1024.
Definition fmul : float64 → float64 → float64 := SFmul 53 1024.
Definition fdiv : float64 → float64 → float64 := SFdiv 53 1024.
Definition fsqrt : float64 → float64 := SFsqrt 53 1024.

Definition float_of_Z (z : Z) : float64 := binary_normalize 53 1024 z 0 false.

Definition fzero : float64 := S754_zero false.
Definition fone : float64 := float_of_Z 1.

(** The [float64] of a rational: a dyadic rational is rounded once (and kept
    as it is when 53 bits hold it); any other is the rounded quotient of its
    numerator and denominator, the nearest [float64] when both are below
    2^53, as for a decimal of a CSV file. *)
Definition float_of_Qc (q : Qc) : float64 :=
  let n := Qnum q in
  let d := Zpos (Qden q) in
  let k := Z.log2 d in
  if (d =? 2 ^ k)%Z then binary_normalize 53 1024 n (- k) false
  else fdiv (float_of_Z n) (float_of_Z d).

(** [to_numpy(dtype=float, na_value=np.nan)] on a cell. *)
Definition to_float (v : cell) : float64 :=
  match v with Num x => float_of_Qc x | _ => S754_nan end.

(** [np.isfinite] *)
Definition isfinite (x : float64) : bool :=
  match x with S754_zero _ | S754_finite _ _ _ => true | _ => false end.

(** The running sums of pandas' [nancorr] for one pair of columns. *)
Record welford : Type := mkWelford {
  nobs : nat;
  meanx : float64;
  meany : float64;
  ssqdm_x : float64;
  ssqdm_y : float64;
  covxy : float64
}.

(** One row of the inner loop of [nancorr]: rows where one of the two
    values is not finite are skipped. *)
Definition welford_step (a : welford) (vx vy : float64) : welford :=
  if isfinite vx && isfinite vy then
    let nobs := S (nobs a) in
    let dx := fsub vx (meanx a) in
    let dy := fsub vy (meany a) in
    let meanx := fadd (meanx a) (fmul (fdiv fone (float_of_Z (Z.of_nat nobs))) dx) in
    let meany := fadd (meany a) (fmul (fdiv fone (float_of_Z (Z.of_nat nobs))) dy) in
    {| nobs := nobs; meanx := meanx; meany := meany;
       ssqdm_x := fadd (ssqdm_x a) (fmul (fsub vx meanx) dx);
       ssqdm_y := fadd (ssqdm_y a) (fmul (fsub vy meany) dy);
       covxy := fadd (covxy a) (fmul (fsub vx meanx) dy) |}
  else a.

(** The quotient is clipped to the range of a correlation coefficient. *)
Definition clip (val : float64) : float64 :=
  if SFltb fone val then fone
  else if SFltb val (SFopp fone) then SFopp fone
  else val.

(** One entry of [DataFrame.corr()] (Pearson, [min_periods=1]) for the
    columns [xs] and [ys]: [NaN] without observation or with a zero
    divisor. *)
Definition nancorr (xs ys : list cell) : float64 :=
  let a := foldl (λ a p, welford_step a (to_float p.1) (to_float p.2))
                 (mkWelford 0 fzero fzero fzero fzero fzero) (zip xs ys) in
  if decide (nobs a < 1) then S754_nan
  else
    let divisor := fsqrt (fmul (ssqdm_x a) (ssqdm_y a)) in
    if negb (SFeqb divisor fzero) then clip (fdiv (covxy a) divisor)
    else S754_nan.

(** [numeric_data.corr()]: the loop of [nancorr] computes the entry of
    columns [xi] and [yi] once, for [yi <= xi], and stores it at [(xi, yi)]
    and at [(yi, xi)]. *)
Definition corr (d : DataFrame) : list (list float64) :=
  let k := length (columns d) in
  (λ xi,
     (λ yi, nancorr (column_at (xi `max` yi) d) (column_at (xi `min` yi) d)) <$> seq 0 k)
  <$> seq 0 k.

(** ** Exceptions, and the part of scikit-learn the script calls *)

(** [ReadError] stands for whatever [pd.read_csv] raises for a path it
    cannot turn into a table: [FileNotFoundError] for a missing file,
    [EmptyDataError] for a file without a header line, a parser error. *)
Inductive exn : Type :=
| KeyError (key : string)
| ValueError (msg : string)
| ReadError (path : string).

Inductive result (A : Type) : Type :=
| Ok (a : A)
| Raise (e : exn).
Arguments Ok {A} a.
Arguments Raise {A} e.

#[global] Instance result_ret : MRet result := λ A a, Ok a.
#[global] Instance result_bind : MBind result := λ A B k m,
  match m with Ok a => k a | Raise e => Raise e end.

(** What the script uses of scikit-learn and of numpy's generators.  Every
    routine is a function of its arguments and of the state of the
    generator it draws from, which for a generator made from a seed is the
    seed; [permutation seed n] is [RandomState(seed).permutation(n)]. *)
Class Sklearn : Type := {
  KMeans_fit_predict : nat → Z → list (list cell) → result (list Z);
  KMeans_inertia : nat → Z → list (list cell) → result Qc;
  silhouette_score : list (list cell) → list cell → result Qc;
  LinearRegression_fit_predict :
    list (list cell) → list cell → list (list cell) → result (list Qc);
  permutation : Z → nat → list nat;
  permutation_Permutation : ∀ seed n, permutation seed n ≡ₚ seq 0 n
}.

(** [_validate_shuffle_split] for a fractional [test_size] and no
    [train_size]: the test part is rounded up, and an empty training part is
    an error. *)
Definition validate_shuffle_split (n_samples : nat) (test_size : Q) : result (nat * nat) :=
  if Qle_bool test_size 0 || Qle_bool 1 test_size then
    Raise (ValueError "test_size should be in the (0, 1) range")
  else
    let n_test := Z.to_nat (Qceiling (test_size * inject_Z (Z.of_nat n_samples))) in
    let n_train := n_samples - n_test in
    if decide (n_train = 0) then Raise (ValueError "the resulting train set will be empty")
    else Ok (n_train, n_test).

(** Positional selection [x.iloc[idx]]. *)
Definition iloc {A} (idx : list nat) (l : list A) : list A := omap (λ i, l !! i) idx.

(** [ShuffleSplit]: the first [n_test] entries of a seeded permutation of
    the row positions are the test rows, the next [n_train] the train rows. *)
Definition shuffle_split `{Sklearn} (n_samples : nat) (test_size : Q) (random_state : Z)
    : result (list nat * list nat) :=
  '(n_train, n_test) ← validate_shuffle_split n_samples test_size;
  let p := permutation random_state n_samples in
  let ind_test := take n_test p in
  let ind_train := take n_train (drop n_test p) in
  Ok (ind_train, ind_test).

(** [train_test_split(X, y, test_size=..., random_state=...)] *)
Definition train_test_split `{Sklearn} {A B} (X : list A) (y : list B)
    (test_size : Q) (random_state : Z) : result (list A * list A * list B * list B) :=
  if decide (length X = length y) then
    '(ind_train, ind_test) ← shuffle_split (length X) test_size random_state;
    Ok (iloc ind_train X, iloc ind_test X, iloc ind_train y, iloc ind_test y)
  else Raise (ValueError "Found input variables with inconsistent numbers of samples").

(** [mean_squared_error(y_true, y_pred)] *)
Definition mean_squared_error (y_true : list cell) (y_pred : list Qc) : result Qc :=
  match mapM to_numeric y_true with
  | None => Raise (ValueError "Input contains NaN")
  | Some ys =>
      if decide (length ys = length y_pred ∧ 0 < length ys) then
        Ok (mean (zip_with (λ t p, (t - p) * (t - p))%Qc ys y_pred))
      else Raise (ValueError "Found input variables with inconsistent numbers of samples")
  end.

(** ** The interpreter state *)

(** What the script shows: lines on standard output and figures.  A plotting
    call is recorded with the data it draws; titles, labels, colours and
    sizes are left out. *)
Inductive event : Type :=
| Info (d : DataFrame)
| Print_missing_values (missing_values : list (string * nat))
| Print_duplicate_rows (duplicate_count : nat)
| Print_silhouette (silhouette_avg : Qc)
| Print_mse (mse : Qc)
| Boxplot (d : DataFrame)
| Countplot (x : list cell)
| Histplot (x : list cell)
| Lineplot (x : list nat) (y : list Qc)
| Scatterplot (x y hue : list cell) (texts : list (cell * cell * cell))
| Regplot (x y : list cell)
| Heatmap (labels : list string) (m : list (list float64))
| Savefig (fname : string).

(** A reference to a [DataFrame] object. *)
Definition ref : Type := nat.

(** The world a run acts on: the tables [pd.read_csv] parses from the files
    on disk (by path and separator; [None] for a path it raises on), the
    [DataFrame] objects allocated so far, the state of numpy's global
    generator, and what has been shown. *)
Record world : Type := mkWorld {
  read_csv : string → string → option DataFrame;
  heap : list DataFrame;
  np_random : Z;
  trace : list event
}.

Definition set_heap (h : list DataFrame) (w : world) : world :=
  {| read_csv := read_csv w; heap := h; np_random := np_random w; trace := trace w |}.

Definition log (e : event) (w : world) : world :=
  {| read_csv := read_csv w; heap := heap w; np_random := np_random w;
     trace := trace w ++ [e] |}.

(** Statements: state passing, an exception ends the run and keeps the
    state reached. *)
Definition M (A : Type) : Type := world → result A * world.

#[global] Instance M_ret : MRet M := λ A a w, (Ok a, w).
#[global] Instance M_bind : MBind M := λ A B k m w,
  match m w with
  | (Ok a, w') => k a w'
  | (Raise e, w') => (Raise e, w')
  end.
#[global] Instance M_fmap : FMap M := λ A B f m, a ← m; mret (f a).

Definition raise {A} (e : exn) : M A := λ w, (Raise e, w).

Definition lift {A} (r : result A) : M A := λ w, (r, w).

Definition lift_key {A} (key : string) (o : option A) : M A :=
  match o with Some a => mret a | None => raise (KeyError key) end.

(** Allocation of a new object. *)
Definition new (d : DataFrame) : M ref :=
  λ w, (Ok (length (heap w)), set_heap (heap w ++ [d]) w).

(** A reference the script holds always points to an object; the error
    case is there to make [deref] total. *)
Definition deref (r : ref) : M DataFrame :=
  λ w, match heap w !! r with
       | Some d => (Ok d, w)
       | None => (Raise (ValueError "dangling reference"), w)
       end.

(** In-place change of an object: every name bound to it sees the change. *)
Definition update (r : ref) (f : DataFrame → DataFrame) : M unit :=
  λ w, match heap w !! r with
       | Some d => (Ok (), set_heap (<[r := f d]> (heap w)) w)
       | None => (Raise (ValueError "dangling reference"), w)
       end.

Definition emit (e : event) : M unit := λ w, (Ok (), log e w).

Definition savefig (fname : string) : M unit := emit (Savefig fname).

(** [sns.heatmap(matrix, ...)]: the colour range is the minimum and maximum
    of the matrix, which do not exist for an empty one. *)
Definition empty_matrix_error : exn :=
  ValueError "zero-size array to reduction operation fmin which has no identity".

Definition heatmap (labels : list string) (m : list (list float64)) : M unit :=
  match m with
  | [] => raise empty_matrix_error
  | _ => emit (Heatmap labels m)
  end.

(** scikit-learn's [check_random_state]: an integer seeds a generator of
    its own, whose state is the seed; without a seed the estimator draws
    from numpy's global generator. *)
Definition check_random_state (random_state : option Z) : M Z :=
  match random_state with
  | Some seed => mret seed
  | None => λ w, (Ok (np_random w), w)
  end.

(** ** pandas calls on objects *)

(** [pd.read_csv(path, sep=sep)] returns a new object. *)
Definition pd_read_csv (path sep : string) : M ref :=
  λ w, match read_csv w path sep with
       | Some d => new d w
       | None => (Raise (ReadError path), w)
       end.

(** [obj[c] = scalar] and [obj[c] = array] change the object itself. *)
Definition setitem_scalar (r : ref) (c : string) (v : cell) : M unit :=
  update r (set_scalar c v).

Definition setitem (r : ref) (c : string) (vals : list cell) : M unit :=
  d ← deref r;
  if decide (length vals = length (rows d)) then update r (set_column c vals)
  else raise (ValueError "Length of values does not match length of index").

(** [pd.concat], [dropna], [drop_duplicates], [select_dtypes] and
    [obj[features]] leave their arguments alone and return a new object. *)
Definition pd_concat (rs : list ref) : M ref :=
  ds ← mapM deref rs; new (concat ds).

Definition DataFrame_dropna (r : ref) : M ref :=
  d ← deref r; new (dropna d).

Definition DataFrame_drop_duplicates (r : ref) : M ref :=
  d ← deref r; new (drop_duplicates d).

Definition DataFrame_select_dtypes_number (r : ref) : M ref :=
  d ← deref r; new (select_dtypes_number d).

Definition getitem_frame (r : ref) (features : list string) : M ref :=
  d ← deref r;
  match select features d with
  | Some X => new X
  | None => raise (KeyError "not in index")
  end.

(** [obj[c]]: the column as a value. *)
Definition getitem (r : ref) (c : string) : M (list cell) :=
  d ← deref r; lift_key c (column c d).

(** ** The script *)

(** The loop of [visualize_clusters]: for every row whose position is a
    multiple of 100, the text of its cluster label at its point. *)
Definition annotations (alcohol volatile_acidity cluster : list cell) (n : nat)
    : list (cell * cell * cell) :=
  omap (λ line,
          if decide (line `mod` 100 = 0) then
            a ← alcohol !! line; v ← volatile_acidity !! line;
            c ← cluster !! line; Some (a, v, c)
          else None)
       (seq 0 n).

Section script.
Context `{Sklearn}.

(** [load_and_explore_data(red_file, white_file)].  [data.describe()] and
    [data.shape] compute values that are dropped. *)
Definition load_and_explore_data (red_file white_file : string)
    : M (ref * list (string * nat) * nat) :=
  red_wine ← pd_read_csv red_file ";";
  white_wine ← pd_read_csv white_file ";";
  setitem_scalar red_wine "wine_type" (Str "red");;
  setitem_scalar white_wine "wine_type" (Str "white");;
  data ← pd_concat [red_wine; white_wine];
  d ← deref data;
  emit (Info d);;
  let missing_values := isnull_sum d in
  let duplicate_count := sum_mask (duplicated d) in
  emit (Boxplot d);;
  savefig "boxplot_outliers.png";;
  wine_type ← getitem data "wine_type";
  emit (Countplot wine_type);;
  savefig "countplot_wine_type.png";;
  mret (data, missing_values, duplicate_count).

(** [preprocess_data(data)]: the local name [data] is rebound twice, each
    time to a new object. *)
Definition preprocess_data (data : ref) : M ref :=
  data ← DataFrame_dropna data;
  data ← DataFrame_drop_duplicates data;
  mret data.

(** [plot_histogram(data)] *)
Definition plot_histogram (data : ref) : M unit :=
  quality ← getitem data "quality";
  emit (Histplot quality);;
  savefig "histogram_quality.png".

(** [perform_clustering(data, features)]: the labels are written into the
    object [data] refers to, and that same object is returned. *)
Definition perform_clustering (data : ref) (features : list string) : M (ref * Qc) :=
  X ← getitem_frame data features;
  Xv ← values <$> deref X;
  rng ← check_random_state (Some 42%Z);
  labels ← lift (KMeans_fit_predict 3 rng Xv);
  setitem data "cluster" ((λ l, Num (Qc_of_Z l)) <$> labels);;
  cluster ← getitem data "cluster";
  silhouette_avg ← lift (silhouette_score Xv cluster);
  sse ← mapM (λ k, rng ← check_random_state (Some 42%Z); lift (KMeans_inertia k rng Xv))
             (seq 1 10);
  emit (Lineplot (seq 1 10) sse);;
  savefig "elbow_plot.png";;
  mret (data, silhouette_avg).

(** [visualize_clusters(data)]: a scatter plot, with every 100th point
    annotated by its cluster label. *)
Definition visualize_clusters (data : ref) : M unit :=
  alcohol ← getitem data "alcohol";
  volatile_acidity ← getitem data "volatile acidity";
  cluster ← getitem data "cluster";
  d ← deref data;
  let texts := annotations alcohol volatile_acidity cluster (shape d).1 in
  emit (Scatterplot alcohol volatile_acidity cluster texts);;
  savefig "cluster_plot.png".

(** [perform_regression(data, features, target)] *)
Definition perform_regression (data : ref) (features : list string) (target : string)
    : M Qc :=
  X ← getitem_frame data features;
  Xv ← values <$> deref X;
  y ← getitem data target;
  '(X_train, X_test, y_train, y_test) ← lift (train_test_split Xv y (3 # 10) 42);
  y_pred ← lift (LinearRegression_fit_predict X_train y_train X_test);
  mse ← lift (mean_squared_error y_test y_pred);
  alcohol ← getitem data "alcohol";
  quality ← getitem data "quality";
  emit (Regplot alcohol quality);;
  savefig "regression_line.png";;
  mret mse.

(** [plot_correlation_matrix(data)] *)
Definition plot_correlation_matrix (data : ref) : M unit :=
  numeric_data ← DataFrame_select_dtypes_number data;
  nd ← deref numeric_data;
  let correlation_matrix := corr nd in
  heatmap (columns nd) correlation_matrix;;
  savefig "correlation_heatmap.png".

Definition features : list string :=
  ["fixed acidity"; "volatile acidity"; "citric acid"; "residual sugar"; "chlorides";
   "free sulfur dioxide"; "total sulfur dioxide"; "density"; "pH"; "sulphates"; "alcohol"].

Definition target : string := "quality".

(** The main block. *)
Definition main : M unit :=
  let red_file := "winequality-red.csv" in
  let white_file := "winequality-white.csv" in
  '(data, missing_values, duplicate_count) ← load_and_explore_data red_file white_file;
  emit (Print_missing_values missing_values);;
  emit (Print_duplicate_rows duplicate_count);;
  plot_correlation_matrix data;;
  data ← preprocess_data data;
  plot_histogram data;;
  '(data, silhouette_avg) ← perform_clustering data features;
  emit (Print_silhouette silhouette_avg);;
  visualize_clusters data;;
  mse ← perform_regression data features target;
  emit (Print_mse mse).

End script.

(** ** Reading results *)

(** Running [m] in [w] returns a reference to an object holding table [d]. *)
Definition returns_table (m : M ref) (w : world) (d : DataFrame) : Prop :=
  ∃ r w', m w = (Ok r, w') ∧ heap w' !! r = Some d.

(** A row-wise view of [drop_duplicates]: rows whose cells are in [seen] or
    repeat an earlier row are dropped. *)
Definition dedup_from (seen : list (list cell)) (l : list (Z * list cell))
    : list (Z * list cell) :=
  boolean_index (negb <$> duplicated_from seen l.*2) l.

(** Number of rows with a missing value. *)
Definition na_rows (d : DataFrame) : nat :=
  length (filter (λ r, notna_row r = false) (values d)).

(** Every row has one cell per column, as in any table pandas builds. *)
Definition well_formed (d : DataFrame) : Prop :=
  Forall (λ r, length r.2 = length (columns d)) (rows d).

(** The table [load_and_explore_data] builds from the two parsed files. *)
Definition combined (red white : DataFrame) : DataFrame :=
  concat [set_scalar "wine_type" (Str "red") red;
          set_scalar "wine_type" (Str "white") white].

(** What [load_and_explore_data] shows for a combined table [d]. *)
Definition load_events (d : DataFrame) : list event :=
  [Info d; Boxplot d; Savefig "boxplot_outliers.png";
   Countplot (default [] (column "wine_type" d)); Savefig "countplot_wine_type.png"].

(** ** What the modelling stages compute, as functions of what they read *)

Section views.
Context `{Sklearn}.

(** The value [perform_regression] returns, from the feature matrix, the
    target column and the two columns of the regression plot. *)
Definition regression_result (Xv : option (list (list cell))) (target : string)
    (y alcohol quality : option (list cell)) : result Qc :=
  match Xv with
  | None => Raise (KeyError "not in index")
  | Some Xv =>
      match y with
      | None => Raise (KeyError target)
      | Some y =>
          '(X_train, X_test, y_train, y_test) ← train_test_split Xv y (3 # 10) 42;
          y_pred ← LinearRegression_fit_predict X_train y_train X_test;
          mse ← mean_squared_error y_test y_pred;
          match alcohol, quality with
          | None, _ => Raise (KeyError "alcohol")
          | Some _, None => Raise (KeyError "quality")
          | Some _, Some _ => Ok mse
          end
      end
  end.

(** The table [perform_clustering] leaves in the object it was given, with
    the silhouette score and the elbow curve. *)
Definition clustering_result (d : DataFrame) (features : list string)
    : result (DataFrame * Qc * list Qc) :=
  match select features d with
  | None => Raise (KeyError "not in index")
  | Some X =>
      labels ← KMeans_fit_predict 3 42 (values X);
      let vals := (λ l, Num (Qc_of_Z l)) <$> labels in
      if decide (length vals = length (rows d)) then
        let d' := set_column "cluster" vals d in
        match column "cluster" d' with
        | None => Raise (KeyError "cluster")
        | Some cluster =>
            silhouette_avg ← silhouette_score (values X) cluster;
            sse ← mapM (λ k, KMeans_inertia k 42 (values X)) (seq 1 10);
            Ok (d', silhouette_avg, sse)
        end
      else Raise (ValueError "Length of values does not match length of index")
  end.

End views.

(** The cluster labels a run of the clustering stage assigned: the
    [cluster] column of the table it returned. *)
Definition cluster_labels (out : result (ref * Qc) * world) : result (list cell) :=
  match out with
  | (Ok (data, _), w') =>
      match heap w' !! data ≫= column "cluster" with
      | Some labels => Ok labels
      | None => Raise (KeyError "cluster")
      end
  | (Raise e, _) => Raise e
  end.


(** Two tables agree on the columns [cols]: each is absent from both or
    holds the same cells, row by row. *)
Definition agree_on (cols : list string) (d1 d2 : DataFrame) : Prop :=
  ∀ c, c ∈ cols → column c d1 = column c d2.

(** ** Reading a correlation matrix *)


(** ** Reading the trace of a run *)

(** What the exploration shows for a combined table [d], in order: the
    outputs of [load_and_explore_data], the two printed summaries and the
    correlation heat map. *)
Definition exploration_events (d : DataFrame) : list event :=
  load_events d ++
  [Print_missing_values (isnull_sum d);
   Print_duplicate_rows (sum_mask (duplicated d));
   Heatmap (columns (select_dtypes_number d)) (corr (select_dtypes_number d));
   Savefig "correlation_heatmap.png"].

(** The same up to the heat map, which is not drawn for a table without a
    numeric column. *)
Definition summary_events (d : DataFrame) : list event :=
  load_events d ++
  [Print_missing_values (isnull_sum d);
   Print_duplicate_rows (sum_mask (duplicated d))].

(** Outputs of the stages that follow cleaning. *)
Definition is_modelling_event (e : event) : Prop :=
  match e with
  | Histplot _ | Lineplot _ _ | Scatterplot _ _ _ _ | Regplot _ _
  | Print_silhouette _ | Print_mse _ | Savefig _ => True
  | _ => False
  end.

(** The exploration outputs proper: the two summaries and the three
    diagnostic plots of the combined table. *)
Definition is_exploration_output (e : event) : Prop :=
  match e with
  | Print_missing_values _ | Print_duplicate_rows _ | Boxplot _ | Countplot _
  | Heatmap _ _ => True
  | _ => False
  end.

(** The exploration outputs among the events [tr] are those computed over
    the table [t]. *)
Definition explores (t : DataFrame) (tr : list event) : Prop :=
  ∀ e, is_exploration_output e → e ∈ tr ↔ e ∈ exploration_events t.

(** A statement only appends to the trace, and only events in [P]. *)
Definition extends_with (P : event → Prop) {A} (m : M A) : Prop :=
  ∀ w, ∃ rest, trace (m w).2 = trace w ++ rest ∧ Forall P rest.

(** A statement that raises has shown nothing. *)
Definition silent_failure {A} (m : M A) : Prop :=
  ∀ w e w', m w = (Raise e, w') → trace w' = trace w.

(** ** Example data *)

(** A stand-in for scikit-learn, to run the script on examples: the
    generator leaves the rows in order, every row gets cluster 0, and the
    model predicts 5 for every row. *)
Definition example_sklearn : Sklearn :=
  {| KMeans_fit_predict := λ _ _ X, Ok (replicate (length X) 0%Z);
     KMeans_inertia := λ _ _ _, Ok (Q2Qc 0);
     silhouette_score := λ _ _, Ok (Q2Qc 0);
     LinearRegression_fit_predict := λ _ _ X_test, Ok (replicate (length X_test) (Q2Qc 5));
     permutation := λ _ n, seq 0 n;
     permutation_Permutation := λ _ _, reflexivity _ |}.

(** Another stand-in: as in scikit-learn, the silhouette score is refused
    when all rows carry the same label. *)
Definition single_label_sklearn : Sklearn :=
  {| KMeans_fit_predict := λ _ _ X, Ok (replicate (length X) 0%Z);
     KMeans_inertia := λ _ _ _, Ok (Q2Qc 0);
     silhouette_score := λ _ labels,
       if decide (nunique labels < 2) then Raise (ValueError "Number of labels is 1")
       else Ok (Q2Qc 0);
     LinearRegression_fit_predict := λ _ _ X_test, Ok (replicate (length X_test) (Q2Qc 5));
     permutation := λ _ n, seq 0 n;
     permutation_Permutation := λ _ _, reflexivity _ |}.

(** What k-means refuses: a feature that is not a number, and fewer samples
    than clusters. *)
Definition check_fit (n_clusters : nat) (X : list (list cell)) : result unit :=
  if negb (forallb (forallb (λ v, bool_decide (is_Some (to_numeric v)))) X) then
    Raise (ValueError "Input X contains NaN")
  else if decide (length X < n_clusters) then
    Raise (ValueError "n_samples should be >= n_clusters")
  else Ok ().

(** A stand-in that refuses what scikit-learn refuses, and whose k-means
    depends on the state of the generator it is given: the label of a row
    is its position shifted by the parity of that state.  The silhouette
    score wants between 2 and [n_samples - 1] labels. *)
Definition checked_sklearn : Sklearn :=
  {| KMeans_fit_predict := λ k rng X,
       check_fit k X ≫= λ _,
       Ok ((λ i, (Z.of_nat i + rng `mod` 2) `mod` Z.of_nat k)%Z <$> seq 0 (length X));
     KMeans_inertia := λ k _ X, check_fit k X ≫= λ _, Ok (Q2Qc 0);
     silhouette_score := λ X labels,
       if decide (2 ≤ nunique labels ≤ length X - 1) then Ok (Q2Qc 0)
       else Raise (ValueError "Number of labels is invalid");
     LinearRegression_fit_predict := λ _ _ X_test, Ok (replicate (length X_test) (Q2Qc 5));
     permutation := λ _ n, seq 0 n;
     permutation_Permutation := λ _ _, reflexivity _ |}.

Definition header : list string := features ++ [target].

Definition sample (i : Z) (xs : list Q) : Z * list cell := (i, (λ x, Num (Q2Qc x)) <$> xs).

Definition red_example : DataFrame :=
  {| columns := header;
     dtypes := replicate 12 numeric;
     rows := [sample 0 [7.4; 0.7; 0; 1.9; 0.076; 11; 34; 0.9978; 3.51; 0.56; 9.4; 5];
              sample 1 [7.8; 0.88; 0; 2.6; 0.098; 25; 67; 0.9968; 3.2; 0.68; 9.8; 5];
              sample 2 [11.2; 0.28; 0.56; 1.9; 0.075; 17; 60; 0.998; 3.16; 0.58; 9.8; 6]]%Q |}.

(** Rows 1 and 2 are the same sample, as happens in the white-wine file. *)
Definition white_example : DataFrame :=
  {| columns := header;
     dtypes := replicate 12 numeric;
     rows := [sample 0 [7; 0.27; 0.36; 20.7; 0.045; 45; 170; 1.001; 3; 0.45; 8.8; 6];
              sample 1 [6.3; 0.3; 0.34; 1.6; 0.049; 14; 132; 0.994; 3.3; 0.49; 9.5; 6];
              sample 2 [6.3; 0.3; 0.34; 1.6; 0.049; 14; 132; 0.994; 3.3; 0.49; 9.5; 6]]%Q |}.

(** Two larger files, eleven different samples between them: sample 4 of
    the red file repeats sample 0, and sample 4 of the white file repeats
    sample 3. *)
Definition red_wines_example : DataFrame :=
  {| columns := header;
     dtypes := replicate 12 numeric;
     rows := [sample 0 [7.4; 0.7; 0; 1.9; 0.076; 11; 34; 0.9978; 3.51; 0.56; 9.4; 5];
              sample 1 [7.8; 0.88; 0; 2.6; 0.098; 25; 67; 0.9968; 3.2; 0.68; 9.8; 5];
              sample 2 [7.8; 0.76; 0.04; 2.3; 0.092; 15; 54; 0.997; 3.26; 0.65; 9.8; 5];
              sample 3 [11.2; 0.28; 0.56; 1.9; 0.075; 17; 60; 0.998; 3.16; 0.58; 9.8; 6];
              sample 4 [7.4; 0.7; 0; 1.9; 0.076; 11; 34; 0.9978; 3.51; 0.56; 9.4; 5];
              sample 5 [7.4; 0.66; 0; 1.8; 0.075; 13; 40; 0.9978; 3.51; 0.56; 9.4; 5];
              sample 6 [7.3; 0.65; 0; 1.2; 0.065; 15; 21; 0.9946; 3.39; 0.47; 10; 7]]%Q |}.

Definition white_wines_example : DataFrame :=
  {| columns := header;
     dtypes := replicate 12 numeric;
     rows := [sample 0 [7; 0.27; 0.36; 20.7; 0.045; 45; 170; 1.001; 3; 0.45; 8.8; 6];
              sample 1 [6.3; 0.3; 0.34; 1.6; 0.049; 14; 132; 0.994; 3.3; 0.49; 9.5; 6];
              sample 2 [8.1; 0.28; 0.4; 6.9; 0.05; 30; 97; 0.9951; 3.26; 0.44; 10.1; 6];
              sample 3 [7.2; 0.23; 0.32; 8.5; 0.058; 47; 186; 0.9956; 3.19; 0.4; 9.9; 6];
              sample 4 [7.2; 0.23; 0.32; 8.5; 0.058; 47; 186; 0.9956; 3.19; 0.4; 9.9; 6];
              sample 5 [6.2; 0.32; 0.16; 7; 0.045; 30; 136; 0.9949; 3.18; 0.47; 9.6; 6];
              sample 6 [8.1; 0.22; 0.43; 1.5; 0.044; 28; 129; 0.9938; 3.22; 0.45; 11; 6]]%Q |}.

(** A file with a header line and no sample: [pd.read_csv] gives every
    column the dtype [object]. *)
Definition empty_example : DataFrame :=
  {| columns := header; dtypes := replicate 12 object; rows := [] |}.

Definition example_files (red white : DataFrame) (path sep : string) : option DataFrame :=
  if decide (sep = ";") then
    if decide (path = "winequality-red.csv") then Some red
    else if decide (path = "winequality-white.csv") then Some white
    else None
  else None.

(** A fresh interpreter with the two files on disk. *)
Definition example_world (red white : DataFrame) : world :=
  {| read_csv := example_files red white; heap := []; np_random := 0; trace := [] |}.

(** A world in which object 0 is the table [d]. *)
Definition world_with (d : DataFrame) : world :=
  {| read_csv := λ _ _, None; heap := [d]; np_random := 0; trace := [] |}.

(** Ten rows: row 7 repeats row 2, row 5 lacks its alcohol value. *)
Definition ten_rows_example : DataFrame :=
  {| columns := ["alcohol"; "quality"];
     dtypes := [numeric; numeric];
     rows := [sample 0 [9.4; 5]; sample 1 [9.8; 5]; sample 2 [10; 6]; sample 3 [9.5; 7];
              sample 4 [10.5; 5]; (5%Z, [NaN; Num (Q2Qc 6)]); sample 6 [9.2; 5];
              sample 7 [10; 6]; sample 8 [9.9; 6]; sample 9 [9.1; 4]]%Q |}.

(** A table with a single sample. *)
Definition one_row_example : DataFrame :=
  {| columns := ["alcohol"; "quality"]; dtypes := [numeric; numeric];
     rows := [sample 0 [9.4; 5]%Q] |}.

(** Three samples with the columns the regression plot reads, the same
    samples after clustering, and the same samples without [alcohol]. *)
Definition plotted_example : DataFrame :=
  {| columns := ["pH"; "quality"; "alcohol"];
     dtypes := [numeric; numeric; numeric];
     rows := [sample 0 [3.51; 6; 9.4]; sample 1 [3.2; 5; 9.8]; sample 2 [3.16; 6; 9.8]]%Q |}.

Definition clustered_example : DataFrame :=
  set_column "cluster" [Num (Qc_of_Z 0); Num (Qc_of_Z 2); Num (Qc_of_Z 1)] plotted_example.

Definition unplotted_example : DataFrame :=
  {| columns := ["pH"; "quality"];
     dtypes := [numeric; numeric];
     rows := [sample 0 [3.51; 6]; sample 1 [3.2; 5]; sample 2 [3.16; 6]]%Q |}.



(** Two samples described by text only. *)
Definition string_example : DataFrame :=
  {| columns := ["name"];
     dtypes := [object];
     rows := [(0%Z, [Str "merlot"]); (1%Z, [Str "riesling"])] |}.

(** Files without a [quality] column. *)
Definition red_unrated_example : DataFrame :=
  {| columns := ["alcohol"]; dtypes := [numeric]; rows := [sample 0 [9.4]%Q] |}.

Definition white_unrated_example : DataFrame :=
  {| columns := ["alcohol"]; dtypes := [numeric]; rows := [sample 0 [8.8]%Q] |}.

(** Another interpreter state: other objects, another state of the global
    generator, something already shown; object 1 is the table [d]. *)
Definition other_world_with (d : DataFrame) : world :=
  {| read_csv := example_files red_example white_example;
     heap := [one_row_example; d];
     np_random := 20261103;
     trace := [Savefig "boxplot_outliers.png"] |}.

(** * Properties *)

(** ** The embedding at work on the examples *)

Example combined_example_columns :
  columns (combined red_example white_example) = header ++ ["wine_type"].
Proof. reflexivity. Qed.

(** [pd.concat] keeps the index labels of its inputs. *)
Example combined_example_index :
  index (combined red_example white_example) = [0; 1; 2; 0; 1; 2]%Z.
Proof. reflexivity. Qed.

Example cleaned_example_index :
  index (drop_duplicates (dropna (combined red_example white_example)))
  = [0; 1; 2; 0; 1]%Z.
Proof. vm_compute. reflexivity. Qed.

Example cleaned_ten_rows_index :
  index (drop_duplicates (dropna ten_rows_example)) = [0; 1; 2; 3; 4; 6; 8; 9]%Z.
Proof. vm_compute. reflexivity. Qed.

Example split_sizes_ten_rows : validate_shuffle_split 10 (3 # 10) = Ok (7, 3).
Proof. reflexivity. Qed.

Example split_sizes_eleven_rows : validate_shuffle_split 11 (3 # 10) = Ok (7, 4).
Proof. reflexivity. Qed.

(** The whole script runs to completion on the two example files. *)
Example main_example_completes :
  (main (H := example_sklearn) (example_world red_example white_example)).1 = Ok ().
Proof. vm_compute. reflexivity. Qed.

(** ** Boolean indexing and the two cleaning steps *)

Lemma boolean_index_fmap {A} (f : A → bool) (l : list A) :
  boolean_index (f <$> l) l = filter (λ x, f x = true) l.
Proof.
  induction l as [|x l IH]; [done|]. cbn [fmap list_fmap boolean_index].
  destruct (f x) eqn:E.
  - rewrite filter_cons_True by done. by rewrite IH.
  - rewrite filter_cons_False by (rewrite E; discriminate). done.
Qed.

Lemma rows_dropna d :
  rows (dropna d) = filter (λ r, notna_row r.2 = true) (rows d).
Proof.
  unfold dropna, values; simpl.
  rewrite <- list_fmap_compose. apply (boolean_index_fmap (notna_row ∘ snd)).
Qed.

Lemma rows_drop_duplicates d : rows (drop_duplicates d) = dedup_from [] (rows d).
Proof. done. Qed.

Lemma dedup_from_cons seen r l :
  dedup_from seen (r :: l) =
    if decide (r.2 ∈ seen) then dedup_from (r.2 :: seen) l
    else r :: dedup_from (r.2 :: seen) l.
Proof.
  unfold dedup_from. cbn [fmap list_fmap duplicated_from boolean_index].
  case_decide.
  - by rewrite bool_decide_true.
  - by rewrite bool_decide_false.
Qed.

Lemma dedup_from_sublist seen l : sublist (dedup_from seen l) l.
Proof.
  revert seen. induction l as [|r l IH]; intros seen; [done|].
  rewrite dedup_from_cons. case_decide.
  - by apply sublist_cons.
  - by apply sublist_skip.
Qed.

(** What [drop_duplicates] returns has no repeated row, and no row in [seen]. *)
Lemma dedup_from_NoDup seen l :
  NoDup (dedup_from seen l).*2 ∧ ∀ x, x ∈ (dedup_from seen l).*2 → x ∉ seen.
Proof.
  revert seen. induction l as [|r l IH]; intros seen.
  - split; [constructor | by intros x ?%elem_of_nil].
  - rewrite dedup_from_cons. destruct (IH (r.2 :: seen)) as [Hnd Hout].
    case_decide as Hr.
    + split; [done|]. intros x Hx Hs. apply (Hout x Hx). by right.
    + split.
      * cbn. constructor; [|done]. intros Hx. apply (Hout _ Hx). by left.
      * cbn. intros x [->|Hx]%elem_of_cons; [done|].
        intros Hs. apply (Hout x Hx). by right.
Qed.

(** Rows without repetition and outside [seen] are all kept. *)
Lemma dedup_from_id seen l :
  NoDup l.*2 → (∀ x, x ∈ l.*2 → x ∉ seen) → dedup_from seen l = l.
Proof.
  revert seen. induction l as [|r l IH]; intros seen Hnd Hout; [done|].
  rewrite dedup_from_cons. cbn in Hnd, Hout. apply list.NoDup_cons in Hnd as [Hr Hnd].
  rewrite decide_False by (apply Hout; by left).
  f_equal. apply IH; [done|].
  intros x Hx [->|Hs]%elem_of_cons; [done|].
  apply (Hout x); [by right | done].
Qed.

Lemma dedup_from_idemp l : dedup_from [] (dedup_from [] l) = dedup_from [] l.
Proof.
  destruct (dedup_from_NoDup [] l) as [Hnd Hout]. by apply dedup_from_id.
Qed.

Lemma filter_sublist_id {A} (P : A → Prop) `{!∀ x, Decision (P x)} (l k : list A) :
  sublist k (filter P l) → filter P k = k.
Proof.
  intros Hsub. induction k as [|x k IH]; [done|].
  assert (Hx : x ∈ filter P l).
  { eapply elem_of_sublist; [by left | exact Hsub]. }
  apply list_elem_of_filter in Hx as [Hx _].
  rewrite filter_cons_True by done. f_equal. apply IH.
  etrans; [|exact Hsub]. by apply sublist_cons.
Qed.

Lemma DataFrame_eq d1 d2 :
  columns d1 = columns d2 → dtypes d1 = dtypes d2 → rows d1 = rows d2 → d1 = d2.
Proof. destruct d1, d2; simpl; congruence. Qed.

Lemma dropna_clean d : dropna (drop_duplicates (dropna d)) = drop_duplicates (dropna d).
Proof.
  apply DataFrame_eq; [done|done|].
  rewrite (rows_dropna (drop_duplicates _)).
  apply (filter_sublist_id _ (rows d)).
  rewrite rows_drop_duplicates, <- rows_dropna. apply dedup_from_sublist.
Qed.

(** Cleaning a cleaned table changes nothing. *)
Lemma clean_idemp d :
  drop_duplicates (dropna (drop_duplicates (dropna d))) = drop_duplicates (dropna d).
Proof.
  rewrite dropna_clean. apply DataFrame_eq; [done|done|].
  rewrite !rows_drop_duplicates. apply dedup_from_idemp.
Qed.

(** ** Running the cleaning stage *)

Lemma heap_lookup_alloc (h : list DataFrame) (d : DataFrame) :
  (h ++ [d]) !! length h = Some d.
Proof. by rewrite lookup_app_r, Nat.sub_diag. Qed.

Lemma heap_lookup_old (h k : list DataFrame) (r : ref) (d : DataFrame) :
  h !! r = Some d → (h ++ k) !! r = Some d.
Proof. intros Hr. by apply lookup_app_l_Some. Qed.

(** [preprocess_data] allocates two objects after the existing ones and
    returns the second. *)
Lemma preprocess_data_run w data d :
  heap w !! data = Some d →
  preprocess_data data w =
    (Ok (S (length (heap w))),
     set_heap (heap w ++ [dropna d; drop_duplicates (dropna d)]) w).
Proof.
  intros Hd.
  unfold preprocess_data, DataFrame_dropna, DataFrame_drop_duplicates.
  unfold mbind, M_bind, mret, M_ret, deref, new. rewrite Hd. cbn.
  rewrite heap_lookup_alloc. cbn. rewrite length_app. cbn.
  rewrite Nat.add_1_r. unfold set_heap; cbn. by rewrite <- app_assoc.
Qed.

Lemma preprocess_data_returns w data d :
  heap w !! data = Some d →
  returns_table (preprocess_data data) w (drop_duplicates (dropna d)).
Proof.
  intros Hd. eexists _, _. split; [by apply preprocess_data_run|]. cbn.
  rewrite (lookup_app_r (heap w)) by lia.
  by replace (S (length (heap w)) - length (heap w)) with 1 by lia.
Qed.

(** C2. Cleaning is idempotent: [preprocess_data] applied to the table it
    returned returns a table with the same contents. *)
Theorem preprocess_data_idempotent w data d :
  heap w !! data = Some d →
  ∃ data1 w1 d1,
    preprocess_data data w = (Ok data1, w1) ∧ heap w1 !! data1 = Some d1 ∧
    returns_table (preprocess_data data1) w1 d1.
Proof.
  intros Hd. destruct (preprocess_data_returns w data d Hd) as (r1 & w1 & E1 & H1).
  exists r1, w1, (drop_duplicates (dropna d)). split_and!; [done..|].
  rewrite <- (clean_idemp d). by apply preprocess_data_returns.
Qed.

Lemma preprocess_data_idempotent_witness :
  ∃ data1 w1 d1,
    preprocess_data 0 (world_with ten_rows_example) = (Ok data1, w1) ∧
    heap w1 !! data1 = Some d1 ∧
    returns_table (preprocess_data data1) w1 d1.
Proof. apply (preprocess_data_idempotent (world_with ten_rows_example) 0 ten_rows_example). reflexivity. Defined.

(** C3. Cleaning returns a table with at most as many rows as its input and
    the same columns in the same order. *)
Theorem preprocess_data_rows_columns w data d :
  heap w !! data = Some d →
  ∃ d', returns_table (preprocess_data data) w d' ∧
        length (rows d') ≤ length (rows d) ∧ columns d' = columns d.
Proof.
  intros Hd. exists (drop_duplicates (dropna d)).
  split; [by apply preprocess_data_returns|]. split; [|done].
  rewrite rows_drop_duplicates. etrans.
  - apply sublist_length, dedup_from_sublist.
  - rewrite rows_dropna. apply length_filter.
Qed.

Lemma preprocess_data_rows_columns_witness :
  ∃ d', returns_table (preprocess_data 0) (world_with ten_rows_example) d' ∧
        length (rows d') ≤ length (rows ten_rows_example) ∧
        columns d' = columns ten_rows_example.
Proof. apply (preprocess_data_rows_columns (world_with ten_rows_example) 0 ten_rows_example). reflexivity. Defined.

(** C9. Cleaning leaves the caller's table, and every other existing object,
    as it was; the table returned is a new object. *)
Theorem preprocess_data_frame w data d :
  heap w !! data = Some d →
  ∃ data' w',
    preprocess_data data w = (Ok data', w') ∧
    heap w' !! data = Some d ∧
    data' ≠ data ∧ heap w !! data' = None ∧
    (∀ r d0, heap w !! r = Some d0 → heap w' !! r = Some d0) ∧
    read_csv w' = read_csv w ∧ np_random w' = np_random w ∧ trace w' = trace w.
Proof.
  intros Hd. eexists _, _. split; [by apply preprocess_data_run|]. cbn.
  apply lookup_lt_Some in Hd as Hlt.
  split_and!; try done.
  - by apply heap_lookup_old.
  - lia.
  - apply lookup_ge_None. lia.
  - intros r d0 Hr. by apply heap_lookup_old.
Qed.

Lemma preprocess_data_frame_witness :
  ∃ data' w',
    preprocess_data 0 (world_with ten_rows_example) = (Ok data', w') ∧
    heap w' !! 0 = Some ten_rows_example ∧
    data' ≠ 0 ∧ heap (world_with ten_rows_example) !! data' = None ∧
    (∀ r d0, heap (world_with ten_rows_example) !! r = Some d0 → heap w' !! r = Some d0) ∧
    read_csv w' = read_csv (world_with ten_rows_example) ∧
    np_random w' = np_random (world_with ten_rows_example) ∧
    trace w' = trace (world_with ten_rows_example).
Proof. apply (preprocess_data_frame (world_with ten_rows_example) 0 ten_rows_example). reflexivity. Defined.

(** ** Counting the rows that cleaning removes *)

Lemma length_filter_bool {A} (f : A → bool) (l : list A) :
  length (filter (λ x, f x = true) l) + length (filter (λ x, f x = false) l) = length l.
Proof.
  induction l as [|x l IH]; [done|]. destruct (f x) eqn:E.
  - rewrite filter_cons_True, filter_cons_False by (done || congruence). cbn. lia.
  - rewrite filter_cons_False, filter_cons_True by (done || congruence). cbn. lia.
Qed.

Lemma filter_fmap_snd {A B} (f : B → bool) (l : list (A * B)) :
  (filter (λ r, f r.2 = true) l).*2 = filter (λ x, f x = true) l.*2.
Proof.
  induction l as [|r l IH]; [done|]. cbn [fmap list_fmap]. destruct (f r.2) eqn:E.
  - rewrite !filter_cons_True by done. cbn. by rewrite IH.
  - by rewrite !filter_cons_False by congruence.
Qed.

Lemma values_dropna d :
  values (dropna d) = filter (λ r, notna_row r = true) (values d).
Proof. unfold values. rewrite rows_dropna. apply filter_fmap_snd. Qed.

Lemma length_rows_dropna d : length (rows (dropna d)) + na_rows d = length (rows d).
Proof.
  unfold na_rows. rewrite <- (length_fmap snd (rows (dropna d))).
  fold (values (dropna d)). rewrite values_dropna.
  rewrite length_filter_bool. unfold values. by rewrite length_fmap.
Qed.

Lemma sum_mask_cons b m : sum_mask (b :: m) = (if b then 1 else 0) + sum_mask m.
Proof.
  unfold sum_mask. destruct b.
  - by rewrite filter_cons_True.
  - by rewrite filter_cons_False.
Qed.

(** Every row is either kept by [drop_duplicates] or marked by [duplicated]. *)
Lemma length_dedup_from seen l :
  length (dedup_from seen l) + sum_mask (duplicated_from seen l.*2) = length l.
Proof.
  revert seen. induction l as [|r l IH]; intros seen; [done|].
  rewrite dedup_from_cons. cbn [fmap list_fmap duplicated_from length].
  rewrite sum_mask_cons. specialize (IH (r.2 :: seen)). case_decide.
  - rewrite bool_decide_true by done. lia.
  - rewrite bool_decide_false by done. cbn [length]. lia.
Qed.

(** The marks depend on [seen] only through membership of the rows checked. *)
Lemma duplicated_from_ext l seen1 seen2 :
  (∀ x, x ∈ l → x ∈ seen1 ↔ x ∈ seen2) →
  duplicated_from seen1 l = duplicated_from seen2 l.
Proof.
  revert seen1 seen2. induction l as [|r l IH]; intros seen1 seen2 Hiff; [done|].
  cbn [duplicated_from]. f_equal.
  - apply bool_decide_ext, Hiff. by left.
  - apply IH. intros x Hx. rewrite !elem_of_cons, (Hiff x) by (by right). done.
Qed.

(** Dropping a single row with a missing value does not change the number
    of marked rows: such a row is neither a duplicate nor the original of
    one. *)
Lemma sum_mask_duplicated_dropna seen l :
  (∀ x, x ∈ seen → notna_row x = true) →
  length (filter (λ r, notna_row r = false) l) ≤ 1 →
  sum_mask (duplicated_from seen (filter (λ r, notna_row r = true) l))
  = sum_mask (duplicated_from seen l).
Proof.
  revert seen. induction l as [|r l IH]; intros seen Hseen Hna; [done|].
  destruct (notna_row r) eqn:E.
  - rewrite filter_cons_True by done. rewrite filter_cons_False in Hna by congruence.
    cbn [duplicated_from]. rewrite !sum_mask_cons. f_equal. apply IH; [|done].
    intros x [->|Hx]%elem_of_cons; auto.
  - rewrite filter_cons_False by congruence. rewrite filter_cons_True in Hna by done.
    cbn [duplicated_from length] in *. rewrite sum_mask_cons.
    rewrite bool_decide_false by (intros Hr; apply Hseen in Hr; congruence).
    assert (Hnil : filter (λ r, notna_row r = false) l = []).
    { apply length_zero_iff_nil. lia. }
    assert (Hall : ∀ x, x ∈ l → notna_row x = true).
    { intros x Hx. destruct (notna_row x) eqn:Ex; [done|].
      exfalso. eapply (filter_nil_not_elem_of _ l x); [exact Hnil | exact Ex | exact Hx]. }
    rewrite (IH seen) by (done || rewrite Hnil; cbn; lia). cbn.
    apply (f_equal sum_mask), duplicated_from_ext.
    intros x Hx. rewrite elem_of_cons. split; [by right|].
    intros [->|?]; [|done]. apply Hall in Hx. congruence.
Qed.

(** Number of rows of a cleaned table. *)
Lemma length_rows_clean d :
  na_rows d ≤ 1 →
  length (rows (drop_duplicates (dropna d))) + sum_mask (duplicated d) + na_rows d
  = length (rows d).
Proof.
  intros Hna. rewrite <- (length_rows_dropna d).
  rewrite rows_drop_duplicates.
  rewrite <- (length_dedup_from [] (rows (dropna d))).
  fold (values (dropna d)). rewrite values_dropna.
  rewrite sum_mask_duplicated_dropna; [done | by intros x ?%elem_of_nil | done].
Qed.

(** C4. A table of 10 rows, one of them marked as a repetition of an earlier
    row and one of them with a missing value, is cleaned to 8 rows. *)
Theorem preprocess_data_ten_rows w data d :
  heap w !! data = Some d →
  length (rows d) = 10 →
  sum_mask (duplicated d) = 1 →
  na_rows d = 1 →
  ∃ d', returns_table (preprocess_data data) w d' ∧ length (rows d') = 8.
Proof.
  intros Hd Hlen Hdup Hna. exists (drop_duplicates (dropna d)).
  split; [by apply preprocess_data_returns|].
  pose proof (length_rows_clean d) as Hc. lia.
Qed.

Lemma preprocess_data_ten_rows_witness :
  ∃ d', returns_table (preprocess_data 0) (world_with ten_rows_example) d' ∧
        length (rows d') = 8.
Proof.
  apply (preprocess_data_ten_rows (world_with ten_rows_example) 0 ten_rows_example).
  - reflexivity.
  - reflexivity.
  - vm_compute. reflexivity.
  - vm_compute. reflexivity.
Defined.

(** ** Running statements step by step *)

Lemma bind_Ok {A B} (m : M A) (k : A → M B) w a w' :
  m w = (Ok a, w') → (m ≫= k) w = k a w'.
Proof. intros Hm. unfold mbind, M_bind. by rewrite Hm. Qed.

Lemma bind_Raise {A B} (m : M A) (k : A → M B) w e w' :
  m w = (Raise e, w') → (m ≫= k) w = (Raise e, w').
Proof. intros Hm. unfold mbind, M_bind. by rewrite Hm. Qed.

Lemma fmap_Ok {A B} (f : A → B) (m : M A) w a w' :
  m w = (Ok a, w') → (f <$> m) w = (Ok (f a), w').
Proof. intros Hm. unfold fmap, M_fmap. by rewrite (bind_Ok _ _ _ _ _ Hm). Qed.

Lemma deref_run w r d : heap w !! r = Some d → deref r w = (Ok d, w).
Proof. intros Hr. unfold deref. by rewrite Hr. Qed.

Lemma update_run w r f d :
  heap w !! r = Some d → update r f w = (Ok (), set_heap (<[r := f d]> (heap w)) w).
Proof. intros Hr. unfold update. by rewrite Hr. Qed.

Lemma lookup_segment (h k : list DataFrame) r i :
  r = length h + i → (h ++ k) !! r = k !! i.
Proof. intros ->. rewrite lookup_app_r by lia. f_equal. lia. Qed.

Lemma insert_segment (h k : list DataFrame) r i d :
  r = length h + i → <[r := d]> (h ++ k) = h ++ <[i := d]> k.
Proof. intros ->. apply insert_app_r. Qed.

(** The objects a stage allocates sit in a segment after the heap [h] it
    started from; the tactics below resolve reads and in-place updates at
    [length h + i] and bring the world back to one record. *)
Ltac world_norm :=
  try unfold set_heap; try unfold log; cbn [heap trace read_csv np_random fst snd];
  rewrite <- ?app_assoc; cbn [app].

Ltac seg_lookup_at i :=
  rewrite (lookup_segment _ _ _ i) by (rewrite ?length_app; cbn [length]; lia);
  reflexivity.

Ltac seg_lookup :=
  world_norm;
  first [apply lookup_app_l_Some; eassumption
        | seg_lookup_at 0%nat | seg_lookup_at 1%nat | seg_lookup_at 2%nat
        | seg_lookup_at 3%nat | seg_lookup_at 4%nat | seg_lookup_at 5%nat].

Ltac seg_insert_at i :=
  rewrite (insert_segment _ _ _ i) by (rewrite ?length_app; cbn [length]; lia).

Ltac seg_insert :=
  first [seg_insert_at 0%nat | seg_insert_at 1%nat | seg_insert_at 2%nat
        | seg_insert_at 3%nat | seg_insert_at 4%nat | seg_insert_at 5%nat];
  cbn [insert list_insert].

Ltac step_with lem :=
  erewrite bind_Ok by (apply lem; seg_lookup); world_norm; try seg_insert.

Ltac step_fmap lem :=
  erewrite bind_Ok by (eapply fmap_Ok; apply lem; seg_lookup); world_norm.

Ltac step_emit := erewrite bind_Ok by reflexivity; world_norm.

(** ** Running the loading stage *)

Lemma pd_concat_run w r1 r2 d1 d2 :
  heap w !! r1 = Some d1 → heap w !! r2 = Some d2 →
  pd_concat [r1; r2] w = (Ok (length (heap w)), set_heap (heap w ++ [concat [d1; d2]]) w).
Proof.
  intros H1 H2. unfold pd_concat. cbn [mapM].
  unfold mbind, M_bind, mret, M_ret, deref, new. by rewrite H1, H2.
Qed.

Lemma getitem_run w r c d col :
  heap w !! r = Some d → column c d = Some col → getitem r c w = (Ok col, w).
Proof.
  intros Hr Hc. unfold getitem. erewrite bind_Ok by (by apply deref_run).
  by rewrite Hc.
Qed.

Lemma load_and_explore_data_run w red_file white_file red white :
  read_csv w red_file ";" = Some red →
  read_csv w white_file ";" = Some white →
  is_Some (column "wine_type" (combined red white)) →
  load_and_explore_data red_file white_file w =
    (Ok (length (heap w) + 2, isnull_sum (combined red white),
         sum_mask (duplicated (combined red white))),
     mkWorld (read_csv w)
       (heap w ++ [set_scalar "wine_type" (Str "red") red;
                   set_scalar "wine_type" (Str "white") white;
                   combined red white])
       (np_random w)
       (trace w ++ load_events (combined red white))).
Proof.
  intros Hred Hwhite [wt Hwt].
  unfold load_and_explore_data, setitem_scalar, savefig.
  erewrite bind_Ok by (unfold pd_read_csv; rewrite Hred; reflexivity). world_norm.
  erewrite bind_Ok by (unfold pd_read_csv; cbn [read_csv set_heap]; rewrite Hwhite; reflexivity).
  world_norm.
  step_with update_run. step_with update_run.
  erewrite bind_Ok by (apply pd_concat_run; seg_lookup). world_norm.
  fold (combined red white).
  step_with deref_run. do 3 step_emit.
  erewrite bind_Ok by (eapply getitem_run; [seg_lookup | exact Hwt]).
  do 2 step_emit.
  unfold mret, M_ret, load_events. rewrite Hwt, length_app. reflexivity.
Qed.

(** ** Columns of a tagged and of a combined table *)

Lemma get_loc_Some c cols j : get_loc c cols = Some j → cols !! j = Some c.
Proof.
  revert j. induction cols as [|c' cols IH]; intros j; [done|]. cbn [get_loc].
  case_decide as Hc; [intros [= <-]; by subst|].
  destruct (get_loc c cols) as [j'|]; [|done]. intros [= <-]. by apply IH.
Qed.

Lemma get_loc_None c cols : get_loc c cols = None ↔ c ∉ cols.
Proof.
  induction cols as [|c' cols IH]; cbn [get_loc].
  - split; [intros _ ?%elem_of_nil|]; done.
  - rewrite not_elem_of_cons. case_decide as Hc.
    + split; [done | by intros [? _]].
    + destruct (get_loc c cols); cbn; [split; [done|] | split; [|done]].
      * intros [_ Hn]. by apply IH in Hn.
      * intros _. split; [done | by apply IH].
Qed.

Lemma get_loc_elem_of c cols : c ∈ cols → is_Some (get_loc c cols).
Proof.
  intros Hc. destruct (get_loc c cols) eqn:E; [by eexists|].
  by apply get_loc_None in E.
Qed.

Lemma get_loc_app_fresh c cols : c ∉ cols → get_loc c (cols ++ [c]) = Some (length cols).
Proof.
  induction cols as [|c' cols IH]; cbn [get_loc app length].
  - intros _. by rewrite decide_True.
  - intros [Hne Hc]%not_elem_of_cons. rewrite decide_False by done.
    by rewrite IH.
Qed.

Lemma cell_at_insert j v (r : list cell) : j < length r → cell_at j (<[j := v]> r) = v.
Proof. intros Hj. unfold cell_at. by rewrite list_lookup_insert_eq. Qed.

Lemma cell_at_snoc v (r : list cell) : cell_at (length r) (r ++ [v]) = v.
Proof. unfold cell_at. by rewrite lookup_app_r, Nat.sub_diag. Qed.

(** After [data[c] = vals] the column [c] holds [vals]. *)
Lemma column_assign t c vals d :
  well_formed d → length vals = length (rows d) →
  column c (assign t c vals d) = Some vals.
Proof.
  unfold well_formed, column, assign, column_at, values.
  destruct d as [cols dts rs]. cbn [columns rows]. intros Hwf Hlen.
  destruct (get_loc c cols) as [j|] eqn:E; cbn [columns rows].
  - rewrite E. cbn. f_equal. apply get_loc_Some, lookup_lt_Some in E.
    revert vals Hlen. induction Hwf as [|r rs Hr Hwf IH]; intros [|v vals] Hlen;
      try done.
    cbn. rewrite cell_at_insert by lia. f_equal. apply IH. by injection Hlen.
  - apply get_loc_None in E. rewrite (get_loc_app_fresh _ _ E). cbn. f_equal.
    revert vals Hlen. induction Hwf as [|r rs Hr Hwf IH]; intros [|v vals] Hlen;
      try done.
    cbn. f_equal; [rewrite <- Hr; apply cell_at_snoc | apply IH; by injection Hlen].
Qed.

Lemma column_set_column c vals d :
  well_formed d → length vals = length (rows d) →
  column c (set_column c vals d) = Some vals.
Proof. apply column_assign. Qed.

Lemma column_set_scalar c v d :
  well_formed d → column c (set_scalar c v d) = Some (replicate (length (rows d)) v).
Proof. intros Hwf. apply column_assign; [done | by rewrite length_replicate]. Qed.

Lemma length_rows_assign t c vals d :
  length vals = length (rows d) → length (rows (assign t c vals d)) = length (rows d).
Proof.
  intros Hlen. unfold assign.
  destruct (get_loc c (columns d)); cbn [rows]; rewrite length_zip_with; lia.
Qed.

Lemma length_rows_set_scalar c v d : length (rows (set_scalar c v d)) = length (rows d).
Proof. apply length_rows_assign. by rewrite length_replicate. Qed.

Lemma cell_at_reindex_row src dst r j c :
  dst !! j = Some c →
  cell_at j (reindex_row src dst r)
  = match get_loc c src with Some i => cell_at i r | None => NaN end.
Proof.
  intros Hj. unfold reindex_row. unfold cell_at at 1.
  by rewrite list_lookup_fmap, Hj.
Qed.

Lemma column_at_reindex d dst j c col :
  dst !! j = Some c → column c d = Some col →
  cell_at j <$> (reindex dst d).*2 = col.
Proof.
  unfold column, column_at, values, reindex. intros Hj Hc.
  destruct (get_loc c (columns d)) as [i|] eqn:E; [|done]. injection Hc as <-.
  rewrite <- !list_fmap_compose. apply list_fmap_ext. intros k r _. cbn.
  by rewrite (cell_at_reindex_row _ _ _ _ _ Hj), E.
Qed.

Lemma column_elem_of c d col : column c d = Some col → c ∈ columns d.
Proof.
  unfold column. destruct (get_loc c (columns d)) as [j|] eqn:E; [|done].
  intros _. apply get_loc_Some in E. by eapply list_elem_of_lookup_2.
Qed.

(** A column both frames have holds, after [pd.concat], the cells of the
    first frame followed by those of the second. *)
Lemma column_concat c a b col_a col_b :
  column c a = Some col_a → column c b = Some col_b →
  column c (concat [a; b]) = Some (col_a ++ col_b).
Proof.
  intros Ha Hb. unfold column at 1. unfold concat. cbn [columns].
  assert (Hin : c ∈ union_columns [a; b] []).
  { cbn. apply elem_of_app. left. apply list_elem_of_filter. split.
    - by intros ?%elem_of_nil.
    - by eapply column_elem_of. }
  destruct (get_loc_elem_of _ _ Hin) as [j Hj]. rewrite Hj. cbn. f_equal.
  apply get_loc_Some in Hj. unfold column_at, values. cbn [rows mbind list_bind].
  rewrite app_nil_r, !fmap_app.
  by rewrite (column_at_reindex a _ j c col_a), (column_at_reindex b _ j c col_b).
Qed.

Lemma length_rows_concat a b :
  length (rows (concat [a; b])) = length (rows a) + length (rows b).
Proof.
  unfold concat, reindex. cbn [rows mbind list_bind].
  by rewrite app_nil_r, length_app, !length_fmap.
Qed.

Lemma column_wine_type_combined red white :
  well_formed red → well_formed white →
  column "wine_type" (combined red white)
  = Some (replicate (length (rows red)) (Str "red")
          ++ replicate (length (rows white)) (Str "white")).
Proof.
  intros Hr Hw. apply column_concat; by apply column_set_scalar.
Qed.

Lemma length_rows_combined red white :
  length (rows (combined red white)) = length (rows red) + length (rows white).
Proof. unfold combined. by rewrite length_rows_concat, !length_rows_set_scalar. Qed.

(** ** The loading stage *)

Lemma length_remove_dups_NoDup (l k : list cell) :
  NoDup k → (∀ x, x ∈ l ↔ x ∈ k) → length (remove_dups l) = length k.
Proof.
  intros Hk Hiff. apply Permutation_length, NoDup_Permutation; [apply NoDup_remove_dups | done |].
  intros x. by rewrite elem_of_remove_dups.
Qed.

Lemma filter_notna_replicate n (v : cell) :
  v ≠ NaN → filter (λ x, x ≠ NaN) (replicate n v) = replicate n v.
Proof.
  intros Hv. induction n as [|n IH]; [done|]. cbn [replicate].
  by rewrite filter_cons_True, IH.
Qed.

Lemma nunique_two_tags n m (a b : cell) :
  a ≠ NaN → b ≠ NaN → a ≠ b →
  nunique (replicate n a ++ replicate m b) = Nat.min 1 n + Nat.min 1 m.
Proof.
  intros Ha Hb Hab. unfold nunique.
  rewrite list.filter_app, !filter_notna_replicate by done.
  destruct n as [|n], m as [|m].
  - done.
  - apply (length_remove_dups_NoDup _ [b]); [apply NoDup_singleton|].
    intros x. rewrite elem_of_app, !elem_of_replicate, list_elem_of_singleton.
    split; [intros [[_ ?]|[-> _]]; done | intros ->; by right].
  - apply (length_remove_dups_NoDup _ [a]); [apply NoDup_singleton|].
    intros x. rewrite elem_of_app, !elem_of_replicate, list_elem_of_singleton.
    split; [intros [[-> _]|[_ ?]]; done | intros ->; by left].
  - apply (length_remove_dups_NoDup _ [a; b]).
    + apply NoDup_cons_2; [by intros ->%list_elem_of_singleton | apply NoDup_singleton].
    + intros x. rewrite elem_of_app, !elem_of_replicate, !elem_of_cons, elem_of_nil.
      split; [intros [[-> _]|[-> _]]; auto | intros [->|[->|[]]]; [left|right]; done].
Qed.

(** C1 (as the code has it). Loading two parsed files returns a combined
    table with as many rows as the two inputs together; its [wine_type]
    column holds one distinct value for each input that has a row, so exactly
    two when neither input is empty. *)
Theorem load_and_explore_data_combined w red_file white_file red white :
  read_csv w red_file ";" = Some red →
  read_csv w white_file ";" = Some white →
  well_formed red → well_formed white →
  ∃ data missing_values duplicate_count w' d wine_type,
    load_and_explore_data red_file white_file w
      = (Ok (data, missing_values, duplicate_count), w') ∧
    heap w' !! data = Some d ∧
    length (rows d) = length (rows red) + length (rows white) ∧
    column "wine_type" d = Some wine_type ∧
    nunique wine_type = Nat.min 1 (length (rows red)) + Nat.min 1 (length (rows white)) ∧
    (rows red ≠ [] → rows white ≠ [] → nunique wine_type = 2).
Proof.
  intros Hred Hwhite Hwfr Hwfw.
  pose proof (column_wine_type_combined red white Hwfr Hwfw) as Hwt.
  eexists _, _, _, _, (combined red white), _. split_and!.
  - apply load_and_explore_data_run; [done | done | by eexists].
  - cbn [heap]. by rewrite (lookup_segment _ _ _ 2).
  - apply length_rows_combined.
  - exact Hwt.
  - by apply nunique_two_tags.
  - intros Hr Hw. rewrite nunique_two_tags by done.
    destruct (rows red), (rows white); done.
Qed.

Lemma load_and_explore_data_combined_witness :
  ∃ data missing_values duplicate_count w' d wine_type,
    load_and_explore_data "winequality-red.csv" "winequality-white.csv"
      (example_world red_example white_example)
      = (Ok (data, missing_values, duplicate_count), w') ∧
    heap w' !! data = Some d ∧
    length (rows d) = length (rows red_example) + length (rows white_example) ∧
    column "wine_type" d = Some wine_type ∧
    nunique wine_type
      = Nat.min 1 (length (rows red_example)) + Nat.min 1 (length (rows white_example)) ∧
    (rows red_example ≠ [] → rows white_example ≠ [] → nunique wine_type = 2).
Proof.
  apply (load_and_explore_data_combined (example_world red_example white_example)
           "winequality-red.csv" "winequality-white.csv" red_example white_example).
  - reflexivity.
  - reflexivity.
  - repeat constructor.
  - repeat constructor.
Defined.

(** C1 as stated fails for a file that has only its header line: the
    combined table then carries a single tag. *)
Lemma load_and_explore_data_one_tag :
  ∃ data missing_values duplicate_count w' d wine_type,
    load_and_explore_data "winequality-red.csv" "winequality-white.csv"
      (example_world empty_example white_example)
      = (Ok (data, missing_values, duplicate_count), w') ∧
    heap w' !! data = Some d ∧
    column "wine_type" d = Some wine_type ∧
    nunique wine_type = 1 ∧ nunique wine_type ≠ 2.
Proof.
  eexists _, _, _, _, _, _. split_and!.
  - vm_compute. reflexivity.
  - vm_compute. reflexivity.
  - vm_compute. reflexivity.
  - vm_compute. reflexivity.
  - vm_compute. discriminate.
Qed.

(** ** The train/test split *)

Lemma Qceiling_three_tenths (z : Z) :
  Qceiling ((3 # 10) * inject_Z z) = (- ((- (3 * z)) / 10))%Z.
Proof.
  unfold Qceiling, Qfloor, Qopp, Qmult, inject_Z. cbn [Qnum Qden].
  by replace (10 * 1)%positive with 10%positive by done.
Qed.

(** With [test_size=0.3] the test part is 30% of the rows rounded up. *)
Lemma n_test_three_tenths (n : nat) :
  let n_test := Z.to_nat (Qceiling ((3 # 10) * inject_Z (Z.of_nat n))) in
  3 * n ≤ 10 * n_test ≤ 3 * n + 9.
Proof.
  cbv zeta. rewrite Qceiling_three_tenths.
  pose proof (Z.div_mod (- (3 * Z.of_nat n)) 10 ltac:(done)) as Hdm.
  pose proof (Z.mod_pos_bound (- (3 * Z.of_nat n)) 10 ltac:(done)) as Hb.
  lia.
Qed.

Lemma validate_shuffle_split_three_tenths (n : nat) :
  2 ≤ n →
  ∃ n_train n_test,
    validate_shuffle_split n (3 # 10) = Ok (n_train, n_test) ∧
    n_train + n_test = n ∧ 0 < n_train ∧ 3 * n ≤ 10 * n_test ≤ 3 * n + 9.
Proof.
  intros Hn. pose proof (n_test_three_tenths n) as Ht. cbv zeta in Ht.
  unfold validate_shuffle_split.
  replace (Qle_bool (3 # 10) 0 || Qle_bool 1 (3 # 10)) with false by done.
  set (n_test := Z.to_nat _) in *. cbv zeta.
  rewrite decide_False by lia.
  exists (n - n_test), n_test. split_and!; (done || lia).
Qed.

Lemma length_iloc {A} (idx : list nat) (l : list A) :
  Forall (λ i, i < length l) idx → length (iloc idx l) = length idx.
Proof.
  unfold iloc. induction 1 as [|i idx Hi _ IH]; [done|]. cbn.
  destruct (lookup_lt_is_Some_2 l i Hi) as [x ->]. cbn. by rewrite IH.
Qed.

(** The two index arrays of a split partition the row positions. *)
Lemma shuffle_split_partition `{Sklearn} (n : nat) :
  2 ≤ n →
  ∃ ind_train ind_test,
    shuffle_split n (3 # 10) 42 = Ok (ind_train, ind_test) ∧
    ind_test ++ ind_train ≡ₚ seq 0 n ∧
    0 < length ind_train ∧
    3 * n ≤ 10 * length ind_test ≤ 3 * n + 9.
Proof.
  intros Hn.
  destruct (validate_shuffle_split_three_tenths n Hn) as (n_train & n_test & Hv & Hsum & Hpos & Hb).
  unfold shuffle_split. rewrite Hv. cbn.
  pose proof (permutation_Permutation 42 n) as Hp.
  assert (Hlen : length (permutation 42 n) = n).
  { by rewrite Hp, length_seq. }
  eexists _, _. split; [done|].
  rewrite (take_ge (drop n_test _)) by (rewrite length_drop; lia).
  rewrite take_drop, length_drop, length_take. split_and!; (done || lia).
Qed.

Lemma length_values_select features d X :
  select features d = Some X → length (values X) = length (rows d).
Proof.
  unfold select. destruct (mapM _ features) as [js|]; [|done].
  intros [= <-]. unfold values, take_columns. cbn [rows]. by rewrite !length_fmap.
Qed.

Lemma length_column c d col : column c d = Some col → length col = length (rows d).
Proof.
  unfold column. destruct (get_loc c (columns d)); [|done]. intros [= <-].
  unfold column_at, values. by rewrite !length_fmap.
Qed.

(** C5 (as the code has it). For a table with at least two rows, the split
    of the regression stage returns train and test rows at disjoint row
    positions that together are all positions; the sizes sum to the row
    count and the test part is 30% of the rows rounded up.  For a table with
    fewer than two rows the split raises an error. *)
Theorem train_test_split_partition `{Sklearn} (d X : DataFrame) (y : list cell)
    (features : list string) (target : string) :
  select features d = Some X →
  column target d = Some y →
  let n := length (rows d) in
  (n < 2 →
   train_test_split (values X) y (3 # 10) 42
   = Raise (ValueError "the resulting train set will be empty")) ∧
  (2 ≤ n →
   ∃ ind_train ind_test,
     train_test_split (values X) y (3 # 10) 42
       = Ok (iloc ind_train (values X), iloc ind_test (values X),
             iloc ind_train y, iloc ind_test y) ∧
     ind_test ++ ind_train ≡ₚ seq 0 n ∧
     (∀ i, i ∈ ind_train → i ∉ ind_test) ∧
     length (iloc ind_train (values X)) = length ind_train ∧
     length (iloc ind_test (values X)) = length ind_test ∧
     length ind_train + length ind_test = n ∧
     0 < length ind_train ∧
     3 * n ≤ 10 * length ind_test ≤ 3 * n + 9).
Proof.
  intros HX Hy n.
  assert (HlenX : length (values X) = n) by (by eapply length_values_select).
  assert (Hleny : length y = n) by (by eapply length_column).
  split.
  - intros Hn. unfold train_test_split, shuffle_split.
    rewrite decide_True by congruence. rewrite HlenX.
    assert (Hcase : n = 0 ∨ n = 1) by lia.
    by destruct Hcase as [-> | ->].
  - intros Hn.
    destruct (shuffle_split_partition n Hn) as (ind_train & ind_test & Hs & Hperm & Hpos & Hb).
    exists ind_train, ind_test.
    assert (Hnd : NoDup (ind_test ++ ind_train)).
    { rewrite Hperm. apply NoDup_seq. }
    assert (Hlt : Forall (λ i, i < n) (ind_test ++ ind_train)).
    { rewrite Hperm. apply Forall_forall. intros i Hi%elem_of_seq. lia. }
    apply Forall_app in Hlt as [Hlt_test Hlt_train].
    split_and!.
    + unfold train_test_split. rewrite decide_True by congruence.
      rewrite HlenX, Hs. done.
    + done.
    + intros i Htr Hte. apply NoDup_app in Hnd as (_ & Hdisj & _).
      by apply (Hdisj i).
    + apply length_iloc. by rewrite HlenX.
    + apply length_iloc. by rewrite HlenX.
    + apply Permutation_length in Hperm. rewrite length_app, length_seq in Hperm. lia.
    + done.
    + lia.
    + lia.
Qed.

Lemma train_test_split_partition_witness :
  let H := example_sklearn in
  let X := take_columns [0] ten_rows_example in
  let y := column_at 1 ten_rows_example in
  let n := length (rows ten_rows_example) in
  (n < 2 →
   train_test_split (values X) y (3 # 10) 42
   = Raise (ValueError "the resulting train set will be empty")) ∧
  (2 ≤ n →
   ∃ ind_train ind_test,
     train_test_split (values X) y (3 # 10) 42
       = Ok (iloc ind_train (values X), iloc ind_test (values X),
             iloc ind_train y, iloc ind_test y) ∧
     ind_test ++ ind_train ≡ₚ seq 0 n ∧
     (∀ i, i ∈ ind_train → i ∉ ind_test) ∧
     length (iloc ind_train (values X)) = length ind_train ∧
     length (iloc ind_test (values X)) = length ind_test ∧
     length ind_train + length ind_test = n ∧
     0 < length ind_train ∧
     3 * n ≤ 10 * length ind_test ≤ 3 * n + 9).
Proof.
  intros H X y.
  apply (train_test_split_partition ten_rows_example X y ["alcohol"] "quality").
  - reflexivity.
  - reflexivity.
Defined.

(** C5 as stated fails for a table with a single row: the training part
    would be empty, so the split raises and the regression stage with it. *)
Lemma train_test_split_one_row :
  let H := example_sklearn in
  ∃ X y,
    select ["alcohol"] one_row_example = Some X ∧
    column "quality" one_row_example = Some y ∧
    train_test_split (values X) y (3 # 10) 42
      = Raise (ValueError "the resulting train set will be empty") ∧
    (perform_regression 0 ["alcohol"] "quality" (world_with one_row_example)).1
      = Raise (ValueError "the resulting train set will be empty").
Proof.
  intros H. eexists _, _. split_and!.
  - reflexivity.
  - reflexivity.
  - vm_compute. reflexivity.
  - vm_compute. reflexivity.
Qed.

(** ** Running the regression stage *)

Lemma lift_run {A} (r : result A) w : lift r w = (r, w).
Proof. done. Qed.

Lemma getitem_frame_run w r features d X :
  heap w !! r = Some d → select features d = Some X →
  getitem_frame r features w = (Ok (length (heap w)), set_heap (heap w ++ [X]) w).
Proof.
  intros Hr HX. unfold getitem_frame. erewrite bind_Ok by (by apply deref_run).
  by rewrite HX.
Qed.

Lemma getitem_frame_raise w r features d :
  heap w !! r = Some d → select features d = None →
  getitem_frame r features w = (Raise (KeyError "not in index"), w).
Proof.
  intros Hr HX. unfold getitem_frame. erewrite bind_Ok by (by apply deref_run).
  by rewrite HX.
Qed.

Lemma getitem_raise w r c d :
  heap w !! r = Some d → column c d = None → getitem r c w = (Raise (KeyError c), w).
Proof.
  intros Hr Hc. unfold getitem. erewrite bind_Ok by (by apply deref_run).
  by rewrite Hc.
Qed.

Ltac raise_with lem :=
  erewrite bind_Raise by (eapply lem; [seg_lookup | eassumption]);
  eexists; reflexivity.

Ltac step_lift E :=
  erewrite bind_Ok by (rewrite lift_run, ?E; reflexivity); world_norm.

Ltac raise_lift E :=
  erewrite bind_Raise by (rewrite lift_run, ?E; reflexivity);
  eexists; reflexivity.

Lemma perform_regression_run `{Sklearn} w data d features target :
  heap w !! data = Some d →
  match regression_result (values <$> select features d) target (column target d)
          (column "alcohol" d) (column "quality" d) with
  | Ok mse =>
      ∃ X alcohol quality,
        select features d = Some X ∧
        column "alcohol" d = Some alcohol ∧ column "quality" d = Some quality ∧
        perform_regression data features target w =
          (Ok mse,
           mkWorld (read_csv w) (heap w ++ [X]) (np_random w)
             (trace w ++ [Regplot alcohol quality; Savefig "regression_line.png"]))
  | Raise e => ∃ w', perform_regression data features target w = (Raise e, w')
  end.
Proof.
  intros Hd. unfold perform_regression, regression_result, savefig.
  replace w with (mkWorld (read_csv w) (heap w ++ []) (np_random w) (trace w))
    by (destruct w; cbn; by rewrite app_nil_r).
  cbn [heap trace read_csv np_random].
  destruct (select features d) as [X|] eqn:HX; cbn [fmap option_fmap option_map].
  2:{ raise_with getitem_frame_raise. }
  erewrite bind_Ok by (eapply getitem_frame_run; [seg_lookup | eassumption]). world_norm.
  step_fmap deref_run.
  destruct (column target d) as [y|] eqn:Hy.
  2:{ raise_with getitem_raise. }
  erewrite bind_Ok by (eapply getitem_run; [seg_lookup | eassumption]).
  destruct (train_test_split (values X) y (3 # 10) 42) as [[[[X_train X_test] y_train] y_test]|e] eqn:Hs;
    cbn [mbind result_bind].
  2:{ raise_lift Hs. }
  step_lift Hs.
  destruct (LinearRegression_fit_predict X_train y_train X_test) as [y_pred|e] eqn:Hp;
    cbn [mbind result_bind].
  2:{ raise_lift Hp. }
  step_lift Hp.
  destruct (mean_squared_error y_test y_pred) as [mse|e] eqn:Hm; cbn [mbind result_bind].
  2:{ raise_lift Hm. }
  step_lift Hm.
  destruct (column "alcohol" d) as [alcohol|] eqn:Ha.
  2:{ raise_with getitem_raise. }
  erewrite bind_Ok by (eapply getitem_run; [seg_lookup | eassumption]).
  destruct (column "quality" d) as [quality|] eqn:Hq.
  2:{ raise_with getitem_raise. }
  erewrite bind_Ok by (eapply getitem_run; [seg_lookup | eassumption]).
  do 2 step_emit. rewrite app_nil_r. by eexists _, _, _.
Qed.

Lemma perform_regression_fst `{Sklearn} w data d features target :
  heap w !! data = Some d →
  (perform_regression data features target w).1 =
    regression_result (values <$> select features d) target (column target d)
      (column "alcohol" d) (column "quality" d).
Proof.
  intros Hd. pose proof (perform_regression_run w data d features target Hd) as Hrun.
  destruct (regression_result _ _ _ _ _) as [mse|e].
  - destruct Hrun as (X & alcohol & quality & _ & _ & _ & ->). done.
  - destruct Hrun as [w' ->]. done.
Qed.

(** ** What the regression stage depends on *)

Lemma values_take_columns_cons j js d :
  values (take_columns (j :: js) d)
  = zip_with cons (column_at j d) (values (take_columns js d)).
Proof.
  unfold values, take_columns, column_at, values. cbn [rows].
  rewrite <- !list_fmap_compose.
  induction (rows d) as [|r rs IH]; [done|]. cbn. by f_equal.
Qed.

Lemma select_cons c fs d :
  select (c :: fs) d =
    j ← get_loc c (columns d); X ← select fs d;
    js ← mapM (λ c, get_loc c (columns d)) fs; Some (take_columns (j :: js) d).
Proof.
  unfold select. cbn [mapM].
  destruct (get_loc c (columns d)); [|done]. cbn.
  by destruct (mapM _ fs).
Qed.

Lemma values_select_cons c fs d :
  values <$> select (c :: fs) d =
    col ← column c d; vs ← values <$> select fs d; Some (zip_with cons col vs).
Proof.
  rewrite select_cons. unfold column, select.
  destruct (get_loc c (columns d)) as [j|]; [|done].
  cbn [mbind option_bind fmap option_fmap option_map].
  destruct (mapM _ fs) as [js|]; [|done].
  cbn [mbind option_bind fmap option_fmap option_map].
  by rewrite values_take_columns_cons.
Qed.

Lemma values_select_nil d : values <$> select [] d = Some (replicate (length (rows d)) []).
Proof.
  unfold select, values, take_columns. cbn. f_equal.
  induction (rows d) as [|r rs IH]; [done|]. cbn. by rewrite IH.
Qed.

(** Tables with the same number of rows that agree on the feature columns
    give the same feature matrix. *)
Lemma values_select_agree fs d1 d2 :
  agree_on fs d1 d2 → length (rows d1) = length (rows d2) →
  values <$> select fs d1 = values <$> select fs d2.
Proof.
  intros Hag Hlen. induction fs as [|c fs IH].
  - by rewrite !values_select_nil, Hlen.
  - rewrite !values_select_cons, (Hag c) by (by left).
    rewrite IH; [done|]. intros c' Hc'. apply Hag. by right.
Qed.

Lemma select_is_Some fs d :
  is_Some (values <$> select fs d) ↔ ∀ c, c ∈ fs → is_Some (column c d).
Proof.
  induction fs as [|c fs IH].
  - rewrite values_select_nil. split; [by intros _ c ?%elem_of_nil | by eexists].
  - rewrite values_select_cons. split.
    + intros [vs Hvs] c' Hc'. destruct (column c d) as [col|] eqn:Ec; [|done].
      cbn in Hvs. destruct (values <$> select fs d) eqn:E; [|done].
      apply elem_of_cons in Hc' as [->|Hc']; [rewrite Ec; by eexists|].
      apply IH; [by eexists | done].
    + intros Hall. destruct (Hall c) as [col ->]; [by left|]. cbn.
      destruct (proj2 IH) as [vs ->]; [|by eexists].
      intros c' Hc'. apply Hall. by right.
Qed.

Lemma regression_result_Ok `{Sklearn} Xv target y alcohol quality mse :
  regression_result Xv target y alcohol quality = Ok mse →
  ∃ Xv' y', Xv = Some Xv' ∧ y = Some y' ∧
    regression_result (Some Xv') target (Some y') (Some []) (Some []) = Ok mse.
Proof.
  unfold regression_result. destruct Xv as [Xv'|]; [|done]. destruct y as [y'|]; [|done].
  intros Hr. exists Xv', y'. split_and!; [done..|].
  destruct (train_test_split Xv' y' (3 # 10) 42) as [[[[X_train X_test] y_train] y_test]|];
    [|done]. cbn in *.
  destruct (LinearRegression_fit_predict X_train y_train X_test); [|done]. cbn in *.
  destruct (mean_squared_error y_test a); [|done]. cbn in *.
  by destruct alcohol, quality.
Qed.

(** C10 (as the code has it). Two tables that agree on the feature columns
    and on the target column give the same mean squared error whenever both
    calls return; the calls have the same outcome, value or exception, when
    the tables also agree on the columns [alcohol] and [quality] that the
    regression plot reads. *)
Theorem perform_regression_depends_on `{Sklearn} w1 w2 data1 data2 d1 d2 features target :
  heap w1 !! data1 = Some d1 →
  heap w2 !! data2 = Some d2 →
  agree_on (features ++ [target]) d1 d2 →
  (∀ mse1 mse2,
     (perform_regression data1 features target w1).1 = Ok mse1 →
     (perform_regression data2 features target w2).1 = Ok mse2 →
     mse1 = mse2) ∧
  (agree_on ["alcohol"; "quality"] d1 d2 →
   (perform_regression data1 features target w1).1
   = (perform_regression data2 features target w2).1).
Proof.
  intros Hd1 Hd2 Hag.
  rewrite (perform_regression_fst w1 data1 d1), (perform_regression_fst w2 data2 d2) by done.
  assert (Hagf : agree_on features d1 d2).
  { intros c Hc. apply Hag, elem_of_app. by left. }
  assert (Hy : column target d1 = column target d2).
  { apply Hag, elem_of_app. right. by left. }
  assert (HX : is_Some (column target d1) →
               values <$> select features d1 = values <$> select features d2).
  { intros [y Hy1]. apply values_select_agree; [done|].
    rewrite <- (length_column _ _ _ Hy1). rewrite Hy in Hy1.
    by rewrite <- (length_column _ _ _ Hy1). }
  split.
  - intros mse1 mse2 H1 H2.
    apply regression_result_Ok in H1 as (Xv1 & y1 & HX1 & Hy1 & H1).
    apply regression_result_Ok in H2 as (Xv2 & y2 & HX2 & Hy2 & H2).
    rewrite HX, HX2 in HX1 by (by eexists). rewrite Hy, Hy2 in Hy1. congruence.
  - intros Hplot. rewrite <- Hy.
    rewrite <- (Hplot "alcohol"), <- (Hplot "quality") by (repeat constructor).
    destruct (column target d1) as [y|] eqn:Ey.
    + rewrite HX by (by eexists). done.
    + assert (Hs : is_Some (values <$> select features d1)
                   ↔ is_Some (values <$> select features d2)).
      { rewrite !select_is_Some. split; intros Hall c Hc; specialize (Hall c Hc).
        - by rewrite <- (Hagf c Hc).
        - by rewrite (Hagf c Hc). }
      unfold regression_result.
      destruct (values <$> select features d1) as [v1|], (values <$> select features d2) as [v2|];
        try done.
      * destruct (proj1 Hs) as [? ?]; [by eexists | done].
      * destruct (proj2 Hs) as [? ?]; [by eexists | done].
Qed.

Lemma agree_on_clustered_example :
  agree_on (["pH"; "alcohol"] ++ ["quality"]) plotted_example clustered_example.
Proof.
  intros c Hc. cbn [app] in Hc.
  repeat (apply elem_of_cons in Hc as [->|Hc]; [reflexivity|]).
  by apply elem_of_nil in Hc.
Defined.

Lemma perform_regression_depends_on_witness :
  let H := example_sklearn in
  let w1 := world_with plotted_example in
  let w2 := world_with clustered_example in
  (∀ mse1 mse2,
     (perform_regression 0 ["pH"; "alcohol"] "quality" w1).1 = Ok mse1 →
     (perform_regression 0 ["pH"; "alcohol"] "quality" w2).1 = Ok mse2 →
     mse1 = mse2) ∧
  (agree_on ["alcohol"; "quality"] plotted_example clustered_example →
   (perform_regression 0 ["pH"; "alcohol"] "quality" w1).1
   = (perform_regression 0 ["pH"; "alcohol"] "quality" w2).1).
Proof.
  intros H w1 w2.
  apply (perform_regression_depends_on w1 w2 0 0 plotted_example clustered_example).
  - reflexivity.
  - reflexivity.
  - exact agree_on_clustered_example.
Defined.

(** C10 as stated fails when the tables differ in a column the regression
    plot reads: the two tables below agree on the feature and on the target,
    yet one call returns a mean squared error and the other raises. *)
Lemma perform_regression_plot_columns :
  let H := example_sklearn in
  agree_on (["pH"] ++ ["quality"]) plotted_example unplotted_example ∧
  (∃ mse, (perform_regression 0 ["pH"] "quality" (world_with plotted_example)).1 = Ok mse) ∧
  (perform_regression 0 ["pH"] "quality" (world_with unplotted_example)).1
    = Raise (KeyError "alcohol").
Proof.
  intros H. split_and!.
  - intros c Hc. cbn [app] in Hc.
    repeat (apply elem_of_cons in Hc as [->|Hc]; [reflexivity|]).
    by apply elem_of_nil in Hc.
  - eexists. vm_compute. reflexivity.
  - vm_compute. reflexivity.
Qed.

(** ** Running the clustering stage *)

Lemma mapM_lift {A B} (f : A → result B) (l : list A) w :
  mapM (λ k, lift (f k)) l w = (mapM f l, w).
Proof.
  induction l as [|a l IH]; [done|]. cbn [mapM].
  destruct (f a) as [b|e].
  - erewrite bind_Ok by reflexivity.
    destruct (mapM f l) as [bs|e].
    + by erewrite bind_Ok by exact IH.
    + by erewrite bind_Raise by exact IH.
  - by erewrite bind_Raise by reflexivity.
Qed.

Lemma mapM_seeded {A B} (f : A → Z → result B) (seed : Z) (l : list A) w :
  mapM (λ k, rng ← check_random_state (Some seed); lift (f k rng)) l w
  = (mapM (λ k, f k seed) l, w).
Proof. exact (mapM_lift (λ k, f k seed) l w). Qed.

Lemma setitem_run w r c vals d :
  heap w !! r = Some d → length vals = length (rows d) →
  setitem r c vals w = (Ok (), set_heap (<[r := set_column c vals d]> (heap w)) w).
Proof.
  intros Hr Hlen. unfold setitem. erewrite bind_Ok by (by apply deref_run).
  rewrite decide_True by done. by apply update_run.
Qed.

Lemma setitem_raise w r c vals d :
  heap w !! r = Some d → length vals ≠ length (rows d) →
  setitem r c vals w
  = (Raise (ValueError "Length of values does not match length of index"), w).
Proof.
  intros Hr Hlen. unfold setitem. erewrite bind_Ok by (by apply deref_run).
  by rewrite decide_False by done.
Qed.

Lemma perform_clustering_run `{Sklearn} w data d features :
  heap w !! data = Some d →
  match clustering_result d features with
  | Ok (d', silhouette_avg, sse) =>
      ∃ X, select features d = Some X ∧
        perform_clustering data features w =
          (Ok (data, silhouette_avg),
           mkWorld (read_csv w) (<[data := d']> (heap w) ++ [X]) (np_random w)
             (trace w ++ [Lineplot (seq 1 10) sse; Savefig "elbow_plot.png"]))
  | Raise e => ∃ w', perform_clustering data features w = (Raise e, w')
  end.
Proof.
  intros Hd. unfold perform_clustering, clustering_result, savefig.
  replace w with (mkWorld (read_csv w) (heap w ++ []) (np_random w) (trace w))
    by (destruct w; cbn; by rewrite app_nil_r).
  cbn [heap trace read_csv np_random].
  destruct (select features d) as [X|] eqn:HX.
  2:{ raise_with getitem_frame_raise. }
  erewrite bind_Ok by (eapply getitem_frame_run; [seg_lookup | eassumption]). world_norm.
  step_fmap deref_run. erewrite bind_Ok by reflexivity.
  destruct (KMeans_fit_predict 3 42 (values X)) as [labels|e] eqn:Hk; cbn [mbind result_bind].
  2:{ raise_lift Hk. }
  step_lift Hk. cbv zeta.
  destruct (decide (length ((λ l, Num (Qc_of_Z l)) <$> labels) = length (rows d))) as [Hlen|Hlen].
  2:{ erewrite bind_Raise by (eapply setitem_raise; [seg_lookup | eassumption]).
      eexists; reflexivity. }
  erewrite bind_Ok by (eapply setitem_run; [seg_lookup | eassumption]). world_norm.
  apply lookup_lt_Some in Hd as Hlt.
  rewrite insert_app_l by done.
  set (d' := set_column "cluster" _ d).
  assert (Hd' : <[data := d']> (heap w) !! data = Some d') by (by apply list_lookup_insert_eq).
  destruct (column "cluster" d') as [cluster|] eqn:Hc.
  2:{ raise_with getitem_raise. }
  erewrite bind_Ok by (eapply getitem_run; [seg_lookup | eassumption]).
  destruct (silhouette_score (values X) cluster) as [silhouette_avg|e] eqn:Hs;
    cbn [mbind result_bind].
  2:{ raise_lift Hs. }
  step_lift Hs.
  destruct (mapM (λ k, KMeans_inertia k 42 (values X)) (seq 1 10)) as [sse|e] eqn:Hi;
    cbn [mbind result_bind].
  2:{ erewrite bind_Raise by (rewrite mapM_seeded, Hi; reflexivity). eexists; reflexivity. }
  erewrite bind_Ok by (rewrite mapM_seeded, Hi; reflexivity).
  do 2 step_emit. rewrite app_nil_r. by eexists.
Qed.


(** ** The correlation matrix *)

Lemma omap_lookup_seq_from {A} (pre l : list A) :
  omap (λ j, (pre ++ l) !! j) (seq (length pre) (length l)) = l.
Proof.
  revert pre. induction l as [|x l IH]; intros pre; [done|].
  cbn [length seq omap list_omap]. rewrite lookup_app_r, Nat.sub_diag by done. cbn.
  f_equal. specialize (IH (pre ++ [x])).
  rewrite <- app_assoc, length_app, Nat.add_1_r in IH. exact IH.
Qed.

Lemma omap_lookup_seq {A} (l : list A) : omap (λ j, l !! j) (seq 0 (length l)) = l.
Proof. apply (omap_lookup_seq_from [] l). Qed.

Lemma filter_all {A} (P : A → Prop) `{!∀ x, Decision (P x)} (l : list A) :
  (∀ x, x ∈ l → P x) → filter P l = l.
Proof.
  induction l as [|x l IH]; intros Hall; [done|].
  rewrite filter_cons_True by (apply Hall; by left).
  f_equal. apply IH. intros y Hy. apply Hall. by right.
Qed.


Lemma corr_square d :
  length (corr d) = length (columns d) ∧
  Forall (λ row, length row = length (columns d)) (corr d).
Proof.
  unfold corr. cbv zeta. split; [by rewrite length_fmap, length_seq|].
  apply list.Forall_forall. intros row Hrow.
  apply list_elem_of_fmap in Hrow as (xi & -> & _). by rewrite length_fmap, length_seq.
Qed.


Lemma corr_nil d : corr d = [] ↔ columns d = [].
Proof.
  destruct (corr_square d) as [Hlen _]. split; intros H.
  - apply length_zero_iff_nil. rewrite <- Hlen, H. done.
  - apply length_zero_iff_nil. by rewrite Hlen, H.
Qed.




Lemma plot_correlation_matrix_run w data d :
  heap w !! data = Some d →
  plot_correlation_matrix data w =
    if decide (columns (select_dtypes_number d) = []) then
      (Raise empty_matrix_error,
       mkWorld (read_csv w) (heap w ++ [select_dtypes_number d]) (np_random w) (trace w))
    else
      (Ok (),
       mkWorld (read_csv w) (heap w ++ [select_dtypes_number d]) (np_random w)
         (trace w ++ [Heatmap (columns (select_dtypes_number d))
                        (corr (select_dtypes_number d));
                      Savefig "correlation_heatmap.png"])).
Proof.
  intros Hd. unfold plot_correlation_matrix, DataFrame_select_dtypes_number, savefig.
  erewrite bind_Ok by (erewrite bind_Ok by (by apply deref_run); reflexivity).
  world_norm. step_with deref_run. cbv zeta. unfold heatmap.
  case_decide as Hcols.
  - apply corr_nil in Hcols. rewrite Hcols. reflexivity.
  - destruct (corr (select_dtypes_number d)) as [|row m] eqn:Hm.
    { by apply corr_nil in Hm. }
    step_emit. unfold emit. world_norm. reflexivity.
Qed.





(** On the ten samples the diagonal is 1.0 and the two columns correlate
    positively. *)
Example corr_ten_rows :
  corr ten_rows_example
  = [[fone; S754_finite false 5440513880531477 (-54)];
     [S754_finite false 5440513880531477 (-54); fone]].
Proof. vm_compute. reflexivity. Qed.


(** ** Statements only append to the trace *)

Section extends.
Context (P : event → Prop).

Lemma extends_ret {A} (a : A) : extends_with P (mret a).
Proof. intros w. exists []. by rewrite app_nil_r. Qed.

Lemma extends_raise {A} e : extends_with P (@raise A e).
Proof. intros w. exists []. by rewrite app_nil_r. Qed.

Lemma extends_lift {A} (r : result A) : extends_with P (lift r).
Proof. intros w. exists []. by rewrite app_nil_r. Qed.

Lemma extends_lift_key {A} key (o : option A) : extends_with P (lift_key key o).
Proof. destruct o; [apply extends_ret | apply extends_raise]. Qed.

Lemma extends_new d : extends_with P (new d).
Proof. intros w. exists []. by rewrite app_nil_r. Qed.

Lemma extends_deref r : extends_with P (deref r).
Proof. intros w. exists []. unfold deref. destruct (heap w !! r); by rewrite app_nil_r. Qed.

Lemma extends_update r f : extends_with P (update r f).
Proof. intros w. exists []. unfold update. destruct (heap w !! r); by rewrite app_nil_r. Qed.

Lemma extends_emit e : P e → extends_with P (emit e).
Proof. intros He w. exists [e]. split; [done | by constructor]. Qed.

Lemma extends_bind {A B} (m : M A) (k : A → M B) :
  extends_with P m → (∀ a, extends_with P (k a)) → extends_with P (m ≫= k).
Proof.
  intros Hm Hk w. destruct (Hm w) as (rest1 & Ht1 & HP1).
  unfold mbind, M_bind. destruct (m w) as [[a|e] w1]; cbn [snd] in Ht1.
  - destruct (Hk a w1) as (rest2 & Ht2 & HP2). exists (rest1 ++ rest2).
    rewrite Ht2, Ht1, app_assoc. split; [done | by apply Forall_app].
  - by exists rest1.
Qed.

Lemma extends_fmap {A B} (f : A → B) (m : M A) :
  extends_with P m → extends_with P (f <$> m).
Proof. intros Hm. apply extends_bind; [done | intros a; apply extends_ret]. Qed.

Lemma extends_mapM {A B} (f : A → M B) (l : list A) :
  (∀ a, extends_with P (f a)) → extends_with P (mapM f l).
Proof.
  intros Hf. induction l as [|a l IH]; cbn [mapM]; [apply extends_ret|].
  apply extends_bind; [done | intros b].
  apply extends_bind; [done | intros bs]. apply extends_ret.
Qed.

End extends.

Create HintDb extends discriminated.

#[local] Hint Resolve extends_ret extends_raise extends_lift extends_lift_key extends_new
  extends_deref extends_update extends_fmap : extends.

Ltac extends_step :=
  first
    [ apply extends_bind; [|intros ?]
    | apply extends_mapM; intros ?
    | apply extends_emit; exact I
    | match goal with |- extends_with _ (match ?x with _ => _ end) => destruct x end
    | solve [auto with extends] ].

Ltac solve_extends := repeat extends_step.

Lemma extends_getitem P r c : extends_with P (getitem r c).
Proof. unfold getitem. solve_extends. Qed.

Lemma extends_getitem_frame P r fs : extends_with P (getitem_frame r fs).
Proof. unfold getitem_frame. solve_extends. Qed.

Lemma extends_setitem P r c vals : extends_with P (setitem r c vals).
Proof. unfold setitem. solve_extends. Qed.

Lemma extends_preprocess_data P data : extends_with P (preprocess_data data).
Proof.
  unfold preprocess_data, DataFrame_dropna, DataFrame_drop_duplicates. solve_extends.
Qed.

Lemma extends_check_random_state P random_state :
  extends_with P (check_random_state random_state).
Proof. intros w. exists []. destruct random_state; by rewrite app_nil_r. Qed.

#[local] Hint Resolve extends_getitem extends_getitem_frame extends_setitem
  extends_preprocess_data extends_check_random_state : extends.

Lemma extends_plot_histogram data : extends_with is_modelling_event (plot_histogram data).
Proof. unfold plot_histogram, savefig. solve_extends. Qed.

Lemma extends_perform_clustering `{Sklearn} data fs :
  extends_with is_modelling_event (perform_clustering data fs).
Proof. unfold perform_clustering, savefig. solve_extends. Qed.

Lemma extends_visualize_clusters data :
  extends_with is_modelling_event (visualize_clusters data).
Proof. unfold visualize_clusters, savefig. solve_extends. Qed.

Lemma extends_perform_regression `{Sklearn} data fs target :
  extends_with is_modelling_event (perform_regression data fs target).
Proof. unfold perform_regression, savefig. solve_extends. Qed.

(** ** Running the plots and the main block *)

Lemma plot_histogram_run w data d :
  heap w !! data = Some d →
  match column "quality" d with
  | Some quality =>
      plot_histogram data w =
        (Ok (), mkWorld (read_csv w) (heap w) (np_random w)
                  (trace w ++ [Histplot quality; Savefig "histogram_quality.png"]))
  | None => plot_histogram data w = (Raise (KeyError "quality"), w)
  end.
Proof.
  intros Hd. unfold plot_histogram, savefig.
  destruct (column "quality" d) as [quality|] eqn:Hq.
  - erewrite bind_Ok by (by eapply getitem_run). step_emit.
    unfold emit. world_norm. reflexivity.
  - by erewrite bind_Raise by (by eapply getitem_raise).
Qed.

Lemma visualize_clusters_run w data d :
  heap w !! data = Some d →
  match column "alcohol" d, column "volatile acidity" d, column "cluster" d with
  | Some alcohol, Some volatile_acidity, Some cluster =>
      visualize_clusters data w =
        (Ok (), mkWorld (read_csv w) (heap w) (np_random w)
                  (trace w ++ [Scatterplot alcohol volatile_acidity cluster
                                 (annotations alcohol volatile_acidity cluster
                                    (length (rows d)));
                               Savefig "cluster_plot.png"]))
  | _, _, _ => ∃ e, visualize_clusters data w = (Raise e, w)
  end.
Proof.
  intros Hd. unfold visualize_clusters, savefig.
  destruct (column "alcohol" d) as [alcohol|] eqn:Ha.
  2:{ eexists. by erewrite bind_Raise by (by eapply getitem_raise). }
  erewrite bind_Ok by (by eapply getitem_run).
  destruct (column "volatile acidity" d) as [volatile_acidity|] eqn:Hv.
  2:{ eexists. by erewrite bind_Raise by (by eapply getitem_raise). }
  erewrite bind_Ok by (by eapply getitem_run).
  destruct (column "cluster" d) as [cluster|] eqn:Hc.
  2:{ eexists. by erewrite bind_Raise by (by eapply getitem_raise). }
  erewrite bind_Ok by (by eapply getitem_run).
  erewrite bind_Ok by (by apply deref_run). cbv zeta. step_emit.
  unfold emit. world_norm. reflexivity.
Qed.

Lemma column_is_Some c d : c ∈ columns d → is_Some (column c d).
Proof.
  intros Hc. unfold column. destruct (get_loc_elem_of _ _ Hc) as [j ->]. by eexists.
Qed.

Lemma column_wine_type_is_Some red white :
  is_Some (column "wine_type" (combined red white)).
Proof.
  apply column_is_Some. unfold combined, concat. cbn [columns union_columns].
  apply elem_of_app. left. apply list_elem_of_filter. split; [by intros ?%elem_of_nil|].
  unfold set_scalar, assign.
  destruct (get_loc "wine_type" (columns red)) as [j|] eqn:E; cbn [columns].
  - apply get_loc_Some in E. by eapply list_elem_of_lookup_2.
  - apply elem_of_app. right. by left.
Qed.

#[local] Hint Resolve extends_plot_histogram extends_perform_clustering
  extends_visualize_clusters extends_perform_regression : extends.

Ltac stage_fails := cbn [fst snd]; intros _ Hok; discriminate Hok.

(** A run up to the heat map, which ends it when the combined table has
    no numeric column. *)
Lemma main_run_no_numeric `{Sklearn} w red white :
  read_csv w "winequality-red.csv" ";" = Some red →
  read_csv w "winequality-white.csv" ";" = Some white →
  let raw := combined red white in
  columns (select_dtypes_number raw) = [] →
  ∃ w', main w = (Raise empty_matrix_error, w') ∧
        trace w' = trace w ++ summary_events raw.
Proof.
  intros Hred Hwhite raw Hnil.
  unfold main. cbv zeta.
  erewrite bind_Ok
    by (apply load_and_explore_data_run; [done | done | apply column_wine_type_is_Some]).
  cbv beta iota. fold raw. do 2 step_emit.
  erewrite bind_Raise
    by (rewrite (plot_correlation_matrix_run _ _ raw) by seg_lookup;
        rewrite decide_True by exact Hnil; reflexivity).
  eexists. split; [reflexivity|]. cbn [trace]. unfold summary_events.
  by rewrite <- ?app_assoc.
Qed.

Lemma main_run `{Sklearn} w red white :
  read_csv w "winequality-red.csv" ";" = Some red →
  read_csv w "winequality-white.csv" ";" = Some white →
  let raw := combined red white in
  let cleaned := drop_duplicates (dropna raw) in
  columns (select_dtypes_number raw) ≠ [] →
  ∃ rest,
    trace (main w).2 = trace w ++ exploration_events raw ++ rest ∧
    Forall is_modelling_event rest ∧
    ((main w).1 = Ok () →
     ∃ quality clustered silhouette_avg sse alcohol volatile_acidity cluster mse
       plot_quality,
       column "quality" cleaned = Some quality ∧
       clustering_result cleaned features = Ok (clustered, silhouette_avg, sse) ∧
       column "alcohol" clustered = Some alcohol ∧
       column "volatile acidity" clustered = Some volatile_acidity ∧
       column "cluster" clustered = Some cluster ∧
       column "quality" clustered = Some plot_quality ∧
       regression_result (values <$> select features clustered) target
         (column target clustered) (column "alcohol" clustered)
         (column "quality" clustered) = Ok mse ∧
       rest = [Histplot quality; Savefig "histogram_quality.png";
               Lineplot (seq 1 10) sse; Savefig "elbow_plot.png";
               Print_silhouette silhouette_avg;
               Scatterplot alcohol volatile_acidity cluster
                 (annotations alcohol volatile_acidity cluster (length (rows clustered)));
               Savefig "cluster_plot.png";
               Regplot alcohol plot_quality; Savefig "regression_line.png";
               Print_mse mse]).
Proof.
  intros Hred Hwhite raw cleaned Hnum.
  unfold main. cbv zeta.
  erewrite bind_Ok
    by (apply load_and_explore_data_run; [done | done | apply column_wine_type_is_Some]).
  cbv beta iota. fold raw. do 2 step_emit.
  erewrite bind_Ok
    by (rewrite (plot_correlation_matrix_run _ _ raw) by seg_lookup;
        rewrite decide_False by exact Hnum; reflexivity).
  world_norm.
  match goal with |- context [(?k ?W).2] => set (rem := k); set (W1 := W) end.
  assert (Hext : extends_with is_modelling_event rem) by (unfold rem; solve_extends).
  destruct (Hext W1) as (rest & Ht & HP). exists rest.
  split; [rewrite Ht; unfold W1, exploration_events; cbn [trace]; by rewrite <- !app_assoc|].
  split; [done|]. clear Hext. revert Ht. unfold rem, W1. cbn [trace].
  (* cleaning *)
  erewrite bind_Ok by (apply preprocess_data_run; seg_lookup). world_norm.
  fold cleaned.
  (* histogram *)
  match goal with |- context [(plot_histogram ?r ≫= _) ?W] =>
    pose proof (plot_histogram_run W r cleaned ltac:(seg_lookup)) as Hh end.
  destruct (column "quality" cleaned) as [quality|] eqn:Hq.
  2:{ erewrite bind_Raise by exact Hh. stage_fails. }
  erewrite bind_Ok by exact Hh. clear Hh. world_norm.
  (* clustering *)
  match goal with |- context [(perform_clustering ?r ?fs ≫= _) ?W] =>
    pose proof (perform_clustering_run W r cleaned fs ltac:(seg_lookup)) as Hc end.
  destruct (clustering_result cleaned features) as [[[clustered silhouette_avg] sse]|e] eqn:Hcl.
  2:{ destruct Hc as [w' Hc]. erewrite bind_Raise by exact Hc. stage_fails. }
  destruct Hc as (X & HX & Hc). erewrite bind_Ok by exact Hc. clear Hc.
  cbv beta iota. world_norm. seg_insert. world_norm. step_emit.
  (* cluster plot *)
  match goal with |- context [(visualize_clusters ?r ≫= _) ?W] =>
    pose proof (visualize_clusters_run W r clustered ltac:(seg_lookup)) as Hv end.
  destruct (column "alcohol" clustered) as [alcohol|] eqn:Ha.
  2:{ destruct Hv as [e Hv]. erewrite bind_Raise by exact Hv. stage_fails. }
  destruct (column "volatile acidity" clustered) as [volatile_acidity|] eqn:Hva.
  2:{ destruct Hv as [e Hv]. erewrite bind_Raise by exact Hv. stage_fails. }
  destruct (column "cluster" clustered) as [cluster|] eqn:Hcc.
  2:{ destruct Hv as [e Hv]. erewrite bind_Raise by exact Hv. stage_fails. }
  erewrite bind_Ok by exact Hv. clear Hv. world_norm.
  (* regression *)
  match goal with |- context [(perform_regression ?r ?fs ?t ≫= _) ?W] =>
    pose proof (perform_regression_run W r clustered fs t ltac:(seg_lookup)) as Hr end.
  destruct (regression_result (values <$> select features clustered) target
              (column target clustered) (column "alcohol" clustered)
              (column "quality" clustered)) as [mse|e] eqn:Hreg.
  2:{ destruct Hr as [w' Hr]. erewrite bind_Raise by exact Hr. stage_fails. }
  destruct Hr as (X' & alcohol' & plot_quality & HX' & Ha' & Hpq & Hr).
  erewrite bind_Ok by exact Hr. clear Hr. unfold emit. world_norm. cbn [fst snd trace].
  rewrite Ha in Ha'. injection Ha' as <-.
  intros Ht _.
  exists quality, clustered, silhouette_avg, sse, alcohol, volatile_acidity, cluster, mse,
    plot_quality.
  rewrite Ha, Hpq in Hreg. split_and!; try done.
  - by rewrite Ha, Hpq.
  - rewrite !app_assoc in Ht. apply app_inv_head in Ht. congruence.
Qed.

(** ** Order of the stages *)

Lemma explores_app t rest :
  Forall is_modelling_event rest → explores t (exploration_events t ++ rest).
Proof.
  intros Hrest e He. rewrite elem_of_app. split; [|by left].
  intros [?|Hin]; [done|]. exfalso.
  rewrite Forall_forall in Hrest. specialize (Hrest e Hin). by destruct e.
Qed.

(** C8 (as the code has it). In every run in which the two files load, the
    exploration outputs come first and are computed over the combined table
    before cleaning.  When that table has no column of numeric dtype, the
    run shows the summary, the box plot, the count plot, the missing-value
    counts and the duplicate-row count of the combined table and ends with
    the [ValueError] of the heat map: no later stage runs.  Otherwise the
    heat map of the combined table is shown as well, and everything shown
    afterwards is output of the later stages.  When the run completes, those
    stages ran in the order clean, histogram, cluster, cluster plot,
    regress: the histogram reads the cleaned table, clustering labels that
    table in place, and the cluster plot and the regression read the
    labelled table. *)
Theorem main_stage_order `{Sklearn} w red white :
  read_csv w "winequality-red.csv" ";" = Some red →
  read_csv w "winequality-white.csv" ";" = Some white →
  let raw := combined red white in
  let cleaned := drop_duplicates (dropna raw) in
  (columns (select_dtypes_number raw) = [] →
   ∃ w', main w = (Raise empty_matrix_error, w') ∧
         trace w' = trace w ++ summary_events raw) ∧
  (columns (select_dtypes_number raw) ≠ [] →
  ∃ rest,
    trace (main w).2 = trace w ++ exploration_events raw ++ rest ∧
    explores raw (exploration_events raw ++ rest) ∧
    Forall is_modelling_event rest ∧
    ((main w).1 = Ok () →
     ∃ quality clustered silhouette_avg sse alcohol volatile_acidity cluster mse
       plot_quality,
       column "quality" cleaned = Some quality ∧
       clustering_result cleaned features = Ok (clustered, silhouette_avg, sse) ∧
       column "alcohol" clustered = Some alcohol ∧
       column "volatile acidity" clustered = Some volatile_acidity ∧
       column "cluster" clustered = Some cluster ∧
       column "quality" clustered = Some plot_quality ∧
       regression_result (values <$> select features clustered) target
         (column target clustered) (column "alcohol" clustered)
         (column "quality" clustered) = Ok mse ∧
       rest = [Histplot quality; Savefig "histogram_quality.png";
               Lineplot (seq 1 10) sse; Savefig "elbow_plot.png";
               Print_silhouette silhouette_avg;
               Scatterplot alcohol volatile_acidity cluster
                 (annotations alcohol volatile_acidity cluster (length (rows clustered)));
               Savefig "cluster_plot.png";
               Regplot alcohol plot_quality; Savefig "regression_line.png";
               Print_mse mse])).
Proof.
  intros Hred Hwhite raw cleaned. split.
  - intros Hnil. by apply main_run_no_numeric.
  - intros Hnum.
    destruct (main_run w red white Hred Hwhite Hnum) as (rest & Ht & Hrest & Hok).
    exists rest. split_and!.
    + exact Ht.
    + by apply explores_app.
    + exact Hrest.
    + exact Hok.
Qed.

Lemma main_stage_order_witness :
  let H := checked_sklearn in
  let w := example_world red_wines_example white_wines_example in
  let raw := combined red_wines_example white_wines_example in
  let cleaned := drop_duplicates (dropna raw) in
  (columns (select_dtypes_number raw) = [] →
   ∃ w', main w = (Raise empty_matrix_error, w') ∧
         trace w' = trace w ++ summary_events raw) ∧
  (columns (select_dtypes_number raw) ≠ [] →
  ∃ rest,
    trace (main w).2 = trace w ++ exploration_events raw ++ rest ∧
    explores raw (exploration_events raw ++ rest) ∧
    Forall is_modelling_event rest ∧
    ((main w).1 = Ok () →
     ∃ quality clustered silhouette_avg sse alcohol volatile_acidity cluster mse
       plot_quality,
       column "quality" cleaned = Some quality ∧
       clustering_result cleaned features = Ok (clustered, silhouette_avg, sse) ∧
       column "alcohol" clustered = Some alcohol ∧
       column "volatile acidity" clustered = Some volatile_acidity ∧
       column "cluster" clustered = Some cluster ∧
       column "quality" clustered = Some plot_quality ∧
       regression_result (values <$> select features clustered) target
         (column target clustered) (column "alcohol" clustered)
         (column "quality" clustered) = Ok mse ∧
       rest = [Histplot quality; Savefig "histogram_quality.png";
               Lineplot (seq 1 10) sse; Savefig "elbow_plot.png";
               Print_silhouette silhouette_avg;
               Scatterplot alcohol volatile_acidity cluster
                 (annotations alcohol volatile_acidity cluster (length (rows clustered)));
               Savefig "cluster_plot.png";
               Regplot alcohol plot_quality; Savefig "regression_line.png";
               Print_mse mse])).
Proof.
  intros H w.
  apply (main_stage_order w red_wines_example white_wines_example).
  - reflexivity.
  - reflexivity.
Defined.

(** On these two files the combined table has numeric columns and the run
    completes: the second case of the theorem is the one that applies, and
    its description of a completed run is not void. *)
Example main_wines_example_completes :
  let H := checked_sklearn in
  let raw := combined red_wines_example white_wines_example in
  columns (select_dtypes_number raw) = header ∧
  (main (example_world red_wines_example white_wines_example)).1 = Ok ().
Proof. split; [reflexivity | vm_compute; reflexivity]. Qed.

(** A red file that holds only its header line is read as columns of
    dtype object, and so are the columns of the combined table: the heat
    map has nothing to show, and the run ends there. *)
Example main_header_only_red :
  let H := example_sklearn in
  let w := example_world empty_example white_example in
  let raw := combined empty_example white_example in
  columns (select_dtypes_number raw) = [] ∧
  ∃ w', main w = (Raise empty_matrix_error, w') ∧
        trace w' = trace w ++ summary_events raw.
Proof. split; [reflexivity|]. eexists. split; vm_compute; reflexivity. Qed.

(** C8 as stated fails: on two files that each repeat a sample, the run
    completes and the duplicate count it shows is 2, that of the combined
    table, while the cleaned table has no repeated row. *)
Lemma main_explores_raw_table :
  let H := checked_sklearn in
  let w := example_world red_wines_example white_wines_example in
  let raw := combined red_wines_example white_wines_example in
  let cleaned := drop_duplicates (dropna raw) in
  ∃ new,
    (main w).1 = Ok () ∧
    trace (main w).2 = trace w ++ new ∧
    Print_duplicate_rows 2 ∈ new ∧
    sum_mask (duplicated cleaned) = 0 ∧
    ¬ explores cleaned new.
Proof.
  intros H w raw cleaned.
  destruct (main_run w red_wines_example white_wines_example eq_refl eq_refl)
    as (rest & Ht & Hrest & _); [by vm_compute|].
  fold raw in Ht. exists (exploration_events raw ++ rest).
  assert (Hdup : sum_mask (duplicated raw) = 2) by (vm_compute; reflexivity).
  assert (Hclean : sum_mask (duplicated cleaned) = 0) by (vm_compute; reflexivity).
  assert (Hin : Print_duplicate_rows 2 ∈ exploration_events raw ++ rest).
  { apply elem_of_app. left. unfold exploration_events. rewrite Hdup.
    apply elem_of_app. right. right. by left. }
  split; [vm_compute; reflexivity|].
  split; [exact Ht|]. split; [exact Hin|]. split; [exact Hclean|].
  intros Hex. apply (Hex (Print_duplicate_rows 2) I) in Hin.
  unfold exploration_events, load_events in Hin. rewrite Hclean in Hin.
  cbn [app] in Hin.
  repeat (apply elem_of_cons in Hin as [Hin|Hin]; [discriminate Hin|]).
  by apply elem_of_nil in Hin.
Qed.

(** * Further properties of the stages *)

(** ** What cleaning keeps and what it removes *)

Lemma notna_row_true r : notna_row r = true ↔ NaN ∉ r.
Proof.
  unfold notna_row. induction r as [|v r IH]; cbn [forallb].
  - split; [by intros _ ?%elem_of_nil | done].
  - rewrite not_elem_of_cons, andb_true_iff, IH, negb_true_iff.
    unfold isnull. rewrite bool_decide_eq_false.
    split; intros [Hv Hr]; (split; [congruence | done]).
Qed.

Lemma dedup_from_elem_of seen l x :
  x ∈ (dedup_from seen l).*2 ↔ x ∈ l.*2 ∧ x ∉ seen.
Proof.
  revert seen. induction l as [|r l IH]; intros seen.
  - cbn. split; [by intros ?%elem_of_nil | by intros [?%elem_of_nil _]].
  - rewrite dedup_from_cons. case_decide as Hr.
    + rewrite IH, fmap_cons, not_elem_of_cons, elem_of_cons. split.
      * intros (Hx & Hne & Hs). by split; [right|].
      * intros [[->|Hx] Hs]; [done|]. split; [done|]. split; [congruence | done].
    + rewrite !fmap_cons, !elem_of_cons, IH, not_elem_of_cons. split.
      * intros [->|(Hx & Hne & Hs)]; [by split; [left|] | by split; [right|]].
      * intros [[->|Hx] Hs]; [by left|].
        destruct (decide (x = r.2)) as [->|Hne]; [by left | by right].
Qed.

Lemma rows_clean d :
  rows (drop_duplicates (dropna d))
  = dedup_from [] (filter (λ r, notna_row r.2 = true) (rows d)).
Proof. by rewrite rows_drop_duplicates, rows_dropna. Qed.

Lemma sublist_rows_clean d : sublist (rows (drop_duplicates (dropna d))) (rows d).
Proof.
  rewrite rows_clean. etrans; [apply dedup_from_sublist | apply sublist_filter].
Qed.

Lemma elem_of_filter_snd (f : list cell → bool) (l : list (Z * list cell)) x :
  x ∈ (filter (λ r, f r.2 = true) l).*2 ↔ x ∈ l.*2 ∧ f x = true.
Proof. by rewrite filter_fmap_snd, list_elem_of_filter, (comm and). Qed.

(** X1. The table [preprocess_data] returns is made of rows of its input,
    in the input's order and under their index labels; none of them has a
    missing value, no two have the same cells, and the cells of every
    complete row of the input are among them. *)
Theorem preprocess_data_clean w data d :
  heap w !! data = Some d →
  ∃ d', returns_table (preprocess_data data) w d' ∧
    sublist (rows d') (rows d) ∧
    Forall (λ r, NaN ∉ r) (values d') ∧
    NoDup (values d') ∧
    (∀ r, r ∈ values d' ↔ r ∈ values d ∧ NaN ∉ r).
Proof.
  intros Hd. exists (drop_duplicates (dropna d)).
  split; [by apply preprocess_data_returns|].
  split; [apply sublist_rows_clean|].
  assert (Hin : ∀ r, r ∈ values (drop_duplicates (dropna d)) ↔ r ∈ values d ∧ NaN ∉ r).
  { intros r. unfold values. rewrite rows_clean, dedup_from_elem_of, elem_of_filter_snd.
    rewrite notna_row_true. split; [by intros [? _] | intros ?; split; [done|]].
    by intros ?%elem_of_nil. }
  split_and!; [| |exact Hin].
  - apply list.Forall_forall. intros r Hr. by apply Hin in Hr as [_ ?].
  - unfold values. rewrite rows_clean. apply dedup_from_NoDup.
Qed.

Lemma preprocess_data_clean_witness :
  ∃ d', returns_table (preprocess_data 0) (world_with ten_rows_example) d' ∧
    sublist (rows d') (rows ten_rows_example) ∧
    Forall (λ r, NaN ∉ r) (values d') ∧
    NoDup (values d') ∧
    (∀ r, r ∈ values d' ↔ r ∈ values ten_rows_example ∧ NaN ∉ r).
Proof.
  apply (preprocess_data_clean (world_with ten_rows_example) 0 ten_rows_example).
  reflexivity.
Defined.

Lemma dedup_from_split seen l1 r l2 :
  r.2 ∉ seen → r.2 ∉ l1.*2 →
  ∃ seen', dedup_from seen (l1 ++ r :: l2) = dedup_from seen l1 ++ r :: dedup_from seen' l2
           ∧ r.2 ∈ seen'.
Proof.
  revert seen. induction l1 as [|a l1 IH]; intros seen Hs Hl.
  - exists (r.2 :: seen). cbn [app]. rewrite dedup_from_cons, decide_False by done.
    split; [done | by left].
  - rewrite fmap_cons in Hl. apply not_elem_of_cons in Hl as [Hne Hl].
    destruct (IH (a.2 :: seen)) as (seen' & E & Hin); [|done|].
    { by apply not_elem_of_cons. }
    exists seen'. split; [|done]. cbn [app]. rewrite !dedup_from_cons.
    case_decide; by rewrite E.
Qed.

(** X2. Of the complete rows with the same cells [preprocess_data] keeps the
    first: a complete row that no earlier row equals is in the result, what
    precedes it there comes from the rows before it, what follows from the
    rows after it, and no later row of the result has its cells. *)
Theorem preprocess_data_keeps_first w data d l1 r l2 :
  heap w !! data = Some d →
  rows d = l1 ++ r :: l2 → NaN ∉ r.2 → r.2 ∉ l1.*2 →
  ∃ d' k1 k2, returns_table (preprocess_data data) w d' ∧
    rows d' = k1 ++ r :: k2 ∧ sublist k1 l1 ∧ sublist k2 l2 ∧ r.2 ∉ k2.*2.
Proof.
  intros Hd Hrows Hna Hfirst.
  set (P := λ r : Z * list cell, notna_row r.2 = true).
  destruct (dedup_from_split [] (filter P l1) r (filter P l2)) as (seen' & E & Hin).
  { by intros ?%elem_of_nil. }
  { unfold P. rewrite elem_of_filter_snd. by intros [? _]. }
  exists (drop_duplicates (dropna d)), (dedup_from [] (filter P l1)),
    (dedup_from seen' (filter P l2)).
  split; [by apply preprocess_data_returns|]. split_and!.
  - rewrite rows_clean, Hrows, list.filter_app, filter_cons_True; [exact E|].
    by apply notna_row_true.
  - etrans; [apply dedup_from_sublist | apply sublist_filter].
  - etrans; [apply dedup_from_sublist | apply sublist_filter].
  - intros Hk. by apply dedup_from_NoDup in Hk.
Qed.

Lemma preprocess_data_keeps_first_witness :
  ∃ d' k1 k2, returns_table (preprocess_data 0) (world_with ten_rows_example) d' ∧
    rows d' = k1 ++ sample 2 [10; 6]%Q :: k2 ∧
    sublist k1 (take 2 (rows ten_rows_example)) ∧
    sublist k2 (drop 3 (rows ten_rows_example)) ∧
    (sample 2 [10; 6]%Q).2 ∉ k2.*2.
Proof.
  apply (preprocess_data_keeps_first (world_with ten_rows_example) 0 ten_rows_example).
  - reflexivity.
  - reflexivity.
  - apply (bool_decide_unpack _). vm_compute. exact I.
  - apply (bool_decide_unpack _). vm_compute. exact I.
Defined.

(** X3. A table without missing values and without repeated rows comes back
    from [preprocess_data] with the same contents. *)
Theorem preprocess_data_fixpoint w data d :
  heap w !! data = Some d →
  Forall (λ r, NaN ∉ r) (values d) → NoDup (values d) →
  returns_table (preprocess_data data) w d.
Proof.
  intros Hd Hna Hnd.
  assert (Hdrop : dropna d = d).
  { apply DataFrame_eq; [done|done|]. rewrite rows_dropna. apply filter_all.
    intros r Hr. apply notna_row_true. rewrite list.Forall_forall in Hna.
    apply Hna. unfold values. by apply list_elem_of_fmap_2. }
  assert (Hdup : drop_duplicates d = d).
  { apply DataFrame_eq; [done|done|]. rewrite rows_drop_duplicates.
    apply dedup_from_id; [done|]. by intros x _ ?%elem_of_nil. }
  pose proof (preprocess_data_returns w data d Hd) as Hret.
  by rewrite Hdrop, Hdup in Hret.
Qed.

Lemma preprocess_data_fixpoint_witness :
  returns_table (preprocess_data 0) (world_with red_example) red_example.
Proof.
  apply (preprocess_data_fixpoint (world_with red_example) 0 red_example).
  - reflexivity.
  - apply (bool_decide_unpack _). vm_compute. exact I.
  - apply (bool_decide_unpack _). vm_compute. exact I.
Defined.

Lemma dedup_from_filter_notna seen1 seen2 (l : list (Z * list cell)) :
  (∀ x, notna_row x = true → x ∈ seen1 ↔ x ∈ seen2) →
  dedup_from seen1 (filter (λ r, notna_row r.2 = true) l)
  = filter (λ r, notna_row r.2 = true) (dedup_from seen2 l).
Proof.
  revert seen1 seen2. induction l as [|r l IH]; intros seen1 seen2 Hs; [done|].
  destruct (notna_row r.2) eqn:Hr.
  - rewrite filter_cons_True, !dedup_from_cons by done.
    assert (Hs' : ∀ x, notna_row x = true → x ∈ r.2 :: seen1 ↔ x ∈ r.2 :: seen2).
    { intros x Hx. rewrite !elem_of_cons. by rewrite (Hs x Hx). }
    destruct (decide (r.2 ∈ seen1)) as [H1|H1].
    + rewrite decide_True by (by apply Hs). by apply IH.
    + rewrite decide_False by (by rewrite <- Hs).
      rewrite filter_cons_True by done. f_equal. by apply IH.
  - rewrite filter_cons_False by congruence. rewrite dedup_from_cons.
    assert (Hs' : ∀ x, notna_row x = true → x ∈ seen1 ↔ x ∈ r.2 :: seen2).
    { intros x Hx. rewrite elem_of_cons, (Hs x Hx). split; [by right|].
      intros [->|?]; [congruence | done]. }
    case_decide.
    + by apply IH.
    + rewrite filter_cons_False by congruence. by apply IH.
Qed.

(** X4. The two steps of [preprocess_data] can be exchanged: dropping the
    repeated rows first and the rows with a missing value second gives the
    same table. *)
Theorem drop_duplicates_dropna_comm d :
  drop_duplicates (dropna d) = dropna (drop_duplicates d).
Proof.
  apply DataFrame_eq; [done|done|].
  rewrite rows_clean, (rows_dropna (drop_duplicates d)), rows_drop_duplicates.
  by apply dedup_from_filter_notna.
Qed.

(** ** What the loading stage keeps of the two files *)

Lemma get_loc_app_ne c c0 cols : c ≠ c0 → get_loc c (cols ++ [c0]) = get_loc c cols.
Proof.
  intros Hne. induction cols as [|c' cols IH]; cbn [get_loc app].
  - by rewrite decide_False.
  - case_decide; [done|]. by rewrite IH.
Qed.

Lemma get_loc_lt c cols j : get_loc c cols = Some j → j < length cols.
Proof. intros Hj. by apply get_loc_Some, lookup_lt_Some in Hj. Qed.

(** Assigning to column [c0] leaves every other column as it was. *)
Lemma column_assign_ne t c c0 vals d :
  well_formed d → length vals = length (rows d) → c ≠ c0 →
  column c (assign t c0 vals d) = column c d.
Proof.
  unfold well_formed, column, assign, column_at, values.
  destruct d as [cols ts rs]. cbn [columns rows]. intros Hwf Hlen Hne.
  destruct (get_loc c0 cols) as [j0|] eqn:E0; cbn [columns rows].
  - destruct (get_loc c cols) as [j|] eqn:E; [|done]. cbn. f_equal.
    assert (Hj : j0 ≠ j).
    { intros ->. apply get_loc_Some in E0, E. congruence. }
    clear E E0. revert vals Hlen.
    induction Hwf as [|r rs Hr Hwf IH]; intros [|v vals] Hlen; try done.
    cbn. f_equal; [|apply IH; by injection Hlen].
    unfold cell_at. by rewrite list_lookup_insert_ne.
  - rewrite get_loc_app_ne by done.
    destruct (get_loc c cols) as [j|] eqn:E; [|done]. cbn. f_equal.
    apply get_loc_lt in E. clear E0. revert vals Hlen.
    induction Hwf as [|r rs Hr Hwf IH]; intros [|v vals] Hlen; try done.
    cbn. f_equal; [|apply IH; by injection Hlen].
    unfold cell_at. by rewrite lookup_app_l by lia.
Qed.

Lemma column_set_column_ne c c0 vals d :
  well_formed d → length vals = length (rows d) → c ≠ c0 →
  column c (set_column c0 vals d) = column c d.
Proof. apply column_assign_ne. Qed.

Lemma index_assign t c vals d :
  length vals = length (rows d) → index (assign t c vals d) = index d.
Proof.
  unfold index, assign.
  destruct (get_loc c (columns d)); cbn [rows]; generalize (rows d);
    intros rs; revert vals; (induction rs as [|r rs IH]; intros [|v vals] Hlen; try done);
    cbn; f_equal; apply IH; by injection Hlen.
Qed.

Lemma index_concat a b : index (concat [a; b]) = index a ++ index b.
Proof.
  unfold index, concat, reindex. cbn [rows mbind list_bind].
  rewrite app_nil_r, fmap_app. by rewrite <- !list_fmap_compose.
Qed.

Lemma index_set_scalar c v d : index (set_scalar c v d) = index d.
Proof. apply index_assign. by rewrite length_replicate. Qed.

Lemma index_combined red white : index (combined red white) = index red ++ index white.
Proof. unfold combined. by rewrite index_concat, !index_set_scalar. Qed.

Lemma column_set_scalar_ne c c0 v d :
  well_formed d → c ≠ c0 → column c (set_scalar c0 v d) = column c d.
Proof.
  intros Hwf Hne.
  apply column_assign_ne; [done | by rewrite length_replicate | done].
Qed.

(** X5. The combined table holds, in every column the two files share, the
    values of the red file followed by those of the white file, and its rows
    keep the index labels they had in their file. *)
Theorem load_and_explore_data_keeps_columns w red_file white_file red white c xs ys :
  read_csv w red_file ";" = Some red →
  read_csv w white_file ";" = Some white →
  well_formed red → well_formed white →
  c ≠ "wine_type" →
  column c red = Some xs → column c white = Some ys →
  ∃ data missing_values duplicate_count w' d,
    load_and_explore_data red_file white_file w
      = (Ok (data, missing_values, duplicate_count), w') ∧
    heap w' !! data = Some d ∧
    column c d = Some (xs ++ ys) ∧
    index d = index red ++ index white.
Proof.
  intros Hred Hwhite Hwr Hww Hne Hxs Hys.
  eexists _, _, _, _, (combined red white).
  split; [apply load_and_explore_data_run; [done | done | apply column_wine_type_is_Some]|].
  split; [seg_lookup|]. split; [|apply index_combined].
  apply column_concat; by rewrite column_set_scalar_ne.
Qed.

Lemma load_and_explore_data_keeps_columns_witness :
  ∃ data missing_values duplicate_count w' d,
    load_and_explore_data "winequality-red.csv" "winequality-white.csv"
      (example_world red_example white_example)
      = (Ok (data, missing_values, duplicate_count), w') ∧
    heap w' !! data = Some d ∧
    column "alcohol" d
      = Some (column_at 10 red_example ++ column_at 10 white_example) ∧
    index d = index red_example ++ index white_example.
Proof.
  apply (load_and_explore_data_keeps_columns (example_world red_example white_example)
           "winequality-red.csv" "winequality-white.csv" red_example white_example
           "alcohol").
  - reflexivity.
  - reflexivity.
  - repeat constructor.
  - repeat constructor.
  - discriminate.
  - reflexivity.
  - reflexivity.
Defined.
Lemma rows_concat a b :
  rows (concat [a; b])
  = reindex (columns (concat [a; b])) a ++ reindex (columns (concat [a; b])) b.
Proof. unfold concat. cbn [rows columns mbind list_bind]. by rewrite app_nil_r. Qed.

Lemma elem_of_columns_concat_l c a b : c ∈ columns a → c ∈ columns (concat [a; b]).
Proof.
  intros Hc. unfold concat. cbn [columns union_columns app].
  apply elem_of_app. left. apply list_elem_of_filter. split; [|done].
  by intros ?%elem_of_nil.
Qed.

(** A column the second frame lacks is filled with missing values there. *)
Lemma column_concat_missing c a b col_a :
  column c a = Some col_a → c ∉ columns b →
  column c (concat [a; b]) = Some (col_a ++ replicate (length (rows b)) NaN).
Proof.
  intros Ha Hb. unfold column at 1.
  assert (Hin : c ∈ columns (concat [a; b])).
  { apply elem_of_columns_concat_l. by eapply column_elem_of. }
  destruct (get_loc_elem_of _ _ Hin) as [j Hj]. rewrite Hj. cbn [mbind option_bind].
  f_equal. apply get_loc_Some in Hj. unfold column_at, values.
  rewrite rows_concat, !fmap_app. rewrite (column_at_reindex a _ j c col_a) by done.
  f_equal. unfold reindex. rewrite <- !list_fmap_compose.
  apply get_loc_None in Hb.
  induction (rows b) as [|r rs IH]; [done|].
  cbn [fmap list_fmap length replicate]. f_equal; [|exact IH].
  unfold compose. cbn [snd]. by rewrite (cell_at_reindex_row _ _ _ _ _ Hj), Hb.
Qed.

Lemma reindex_row_missing src dst r c : c ∈ dst → c ∉ src → NaN ∈ reindex_row src dst r.
Proof.
  intros Hd Hs. unfold reindex_row. apply list_elem_of_fmap. exists c. split; [|done].
  apply get_loc_None in Hs. by rewrite Hs.
Qed.

Lemma filter_none {A} (P : A → Prop) `{!∀ x, Decision (P x)} (l : list A) :
  (∀ x, x ∈ l → ¬ P x) → filter P l = [].
Proof.
  induction l as [|x l IH]; intros Hl; [done|].
  rewrite filter_cons_False by (apply Hl; by left). apply IH.
  intros y Hy. apply Hl. by right.
Qed.

(** Cleaning drops every row of a frame that lacks a column of the other. *)
Lemma sublist_rows_clean_missing c a b :
  c ∈ columns a → c ∉ columns b →
  sublist (rows (drop_duplicates (dropna (concat [a; b]))))
          (reindex (columns (concat [a; b])) a).
Proof.
  intros Ha Hb. rewrite rows_clean, rows_concat, list.filter_app.
  rewrite (filter_none _ (reindex _ b)), app_nil_r.
  - etrans; [apply dedup_from_sublist | apply sublist_filter].
  - intros r Hr. unfold reindex in Hr. apply list_elem_of_fmap in Hr as (r0 & -> & _).
    cbn. intros Hn. apply notna_row_true in Hn. apply Hn.
    apply (reindex_row_missing _ _ _ c); [|done]. by apply elem_of_columns_concat_l.
Qed.

(** X6. A column that only the red file has is filled with missing values
    in the rows of the white file; the load does not fail, and cleaning then
    removes every white wine: only the tag [red] is left. *)
Theorem load_and_explore_data_mismatched_column w red_file white_file red white c xs :
  read_csv w red_file ";" = Some red →
  read_csv w white_file ";" = Some white →
  well_formed red →
  column c red = Some xs → c ∉ columns white → c ≠ "wine_type" →
  ∃ data missing_values duplicate_count w' d d' tags,
    load_and_explore_data red_file white_file w
      = (Ok (data, missing_values, duplicate_count), w') ∧
    heap w' !! data = Some d ∧
    column c d = Some (xs ++ replicate (length (rows white)) NaN) ∧
    returns_table (preprocess_data data) w' d' ∧
    column "wine_type" d' = Some tags ∧
    Forall (λ t, t = Str "red") tags.
Proof.
  intros Hred Hwhite Hwr Hxs Hc Hne.
  set (red' := set_scalar "wine_type" (Str "red") red).
  set (white' := set_scalar "wine_type" (Str "white") white).
  assert (Hxs' : column c red' = Some xs) by (unfold red'; by rewrite column_set_scalar_ne).
  assert (Hc' : c ∉ columns white').
  { unfold white', set_scalar, assign.
    destruct (get_loc "wine_type" (columns white)); cbn [columns]; [done|].
    rewrite elem_of_app, list_elem_of_singleton. by intros [?|?]. }
  destruct (column_wine_type_is_Some red white) as [wt Hwt].
  unfold column in Hwt. fold red' white' in Hwt.
  destruct (get_loc "wine_type" (columns (combined red white))) as [j|] eqn:Hj; [|done].
  set (cleaned := drop_duplicates (dropna (combined red white))).
  eexists _, _, _, _, (combined red white), cleaned, (column_at j cleaned).
  split; [apply load_and_explore_data_run; [done | done | apply column_wine_type_is_Some]|].
  split; [seg_lookup|].
  split; [rewrite <- (length_rows_set_scalar "wine_type" (Str "white") white);
          by apply column_concat_missing|].
  split; [apply preprocess_data_returns; seg_lookup|].
  split; [unfold column; change (columns cleaned) with (columns (combined red white));
          by rewrite Hj|].
  apply list.Forall_forall. intros t Ht.
  assert (Hsub : sublist (column_at j cleaned)
                   (replicate (length (rows red)) (Str "red"))).
  { unfold column_at, values.
    rewrite <- (column_at_reindex red' (columns (combined red white)) j "wine_type").
    - do 2 apply fmap_sublist.
      apply (sublist_rows_clean_missing c); [by eapply column_elem_of | done].
    - by apply get_loc_Some.
    - by apply column_set_scalar. }
  eapply elem_of_replicate_inv, elem_of_sublist; [exact Ht | exact Hsub].
Qed.

Lemma load_and_explore_data_mismatched_column_witness :
  ∃ data missing_values duplicate_count w' d d' tags,
    load_and_explore_data "winequality-red.csv" "winequality-white.csv"
      (example_world plotted_example unplotted_example)
      = (Ok (data, missing_values, duplicate_count), w') ∧
    heap w' !! data = Some d ∧
    column "alcohol" d
      = Some (column_at 2 plotted_example
              ++ replicate (length (rows unplotted_example)) NaN) ∧
    returns_table (preprocess_data data) w' d' ∧
    column "wine_type" d' = Some tags ∧
    Forall (λ t, t = Str "red") tags.
Proof.
  apply (load_and_explore_data_mismatched_column
           (example_world plotted_example unplotted_example)
           "winequality-red.csv" "winequality-white.csv"
           plotted_example unplotted_example "alcohol").
  - reflexivity.
  - reflexivity.
  - repeat constructor.
  - reflexivity.
  - apply (bool_decide_unpack _). vm_compute. exact I.
  - discriminate.
Defined.

(** ** A file that cannot be read *)

Lemma load_and_explore_data_raise_red w red_file white_file :
  read_csv w red_file ";" = None →
  load_and_explore_data red_file white_file w = (Raise (ReadError red_file), w).
Proof.
  intros Hred. unfold load_and_explore_data.
  erewrite bind_Raise; [reflexivity|]. unfold pd_read_csv. by rewrite Hred.
Qed.

Lemma load_and_explore_data_raise_white w red_file white_file red :
  read_csv w red_file ";" = Some red →
  read_csv w white_file ";" = None →
  load_and_explore_data red_file white_file w
  = (Raise (ReadError white_file), set_heap (heap w ++ [red]) w).
Proof.
  intros Hred Hwhite. unfold load_and_explore_data.
  erewrite bind_Ok by (unfold pd_read_csv; rewrite Hred; reflexivity).
  erewrite bind_Raise; [reflexivity|]. unfold pd_read_csv. cbn [read_csv set_heap].
  by rewrite Hwhite.
Qed.

(** X7. When [pd.read_csv] fails on one of the two files, the run ends
    with the error it raises for the first such file, before anything is
    printed or drawn, and without touching an existing object. *)
Theorem main_missing_file `{Sklearn} w :
  read_csv w "winequality-red.csv" ";" = None
  ∨ read_csv w "winequality-white.csv" ";" = None →
  ∃ path w',
    main w = (Raise (ReadError path), w') ∧
    read_csv w path ";" = None ∧
    (path = "winequality-white.csv" → is_Some (read_csv w "winequality-red.csv" ";")) ∧
    trace w' = trace w ∧
    (∀ r d, heap w !! r = Some d → heap w' !! r = Some d).
Proof.
  intros Hmiss.
  destruct (read_csv w "winequality-red.csv" ";") as [red|] eqn:Hred.
  - destruct Hmiss as [?|Hwhite]; [done|].
    exists "winequality-white.csv", (set_heap (heap w ++ [red]) w).
    split; [|split_and!; try done].
    + unfold main. cbv zeta.
      by erewrite bind_Raise by (by eapply load_and_explore_data_raise_white).
    + intros r d Hr. cbn. by apply heap_lookup_old.
  - exists "winequality-red.csv", w. split; [|done].
    unfold main. cbv zeta.
    by erewrite bind_Raise by (by apply load_and_explore_data_raise_red).
Qed.

Lemma main_missing_file_witness :
  let H := example_sklearn in
  let w := world_with red_example in
  ∃ path w',
    main w = (Raise (ReadError path), w') ∧
    read_csv w path ";" = None ∧
    (path = "winequality-white.csv" → is_Some (read_csv w "winequality-red.csv" ";")) ∧
    trace w' = trace w ∧
    (∀ r d, heap w !! r = Some d → heap w' !! r = Some d).
Proof.
  intros H w. apply (main_missing_file w). left. reflexivity.
Defined.

(** ** The counts the loading stage returns, and the rows cleaning removes *)

Lemma well_formed_concat frames : well_formed (concat frames).
Proof.
  unfold well_formed, concat. cbn [rows columns].
  apply list.Forall_forall. intros r Hr.
  apply list_elem_of_bind in Hr as (d & Hr & _).
  unfold reindex in Hr. apply list_elem_of_fmap in Hr as (r0 & -> & _).
  cbn. unfold reindex_row. by rewrite length_fmap.
Qed.

Lemma isnull_sum_columns d : (isnull_sum d).*1 = columns d.
Proof.
  unfold isnull_sum. apply list_eq. intros j.
  rewrite list_lookup_fmap, list_lookup_imap. by destruct (columns d !! j).
Qed.

(** When every count of [isnull().sum()] is zero no row has a missing value. *)
Lemma isnull_sum_zero d :
  well_formed d → Forall (λ p, p.2 = 0) (isnull_sum d) →
  Forall (λ r, NaN ∉ r) (values d).
Proof.
  intros Hwf Hz. apply list.Forall_forall. intros r Hr Hn.
  unfold values in Hr. apply list_elem_of_fmap in Hr as (r0 & -> & Hr0).
  apply list_elem_of_lookup in Hn as [j Hj].
  unfold well_formed in Hwf. rewrite list.Forall_forall in Hwf. specialize (Hwf r0 Hr0).
  assert (Hlt : j < length (columns d)).
  { rewrite <- Hwf. by eapply lookup_lt_Some. }
  apply lookup_lt_is_Some in Hlt as [c Hc].
  rewrite list.Forall_forall in Hz.
  specialize (Hz (c, length (filter (λ v, isnull v) (column_at j d)))).
  cbn in Hz.
  assert (Hnil : filter (λ v, isnull v) (column_at j d) = []).
  { apply length_zero_iff_nil, Hz. unfold isnull_sum.
    apply list_elem_of_lookup. exists j. by rewrite list_lookup_imap, Hc. }
  eapply (filter_nil_not_elem_of _ _ NaN) in Hnil; [|done].
  apply Hnil. unfold column_at, values.
  apply list_elem_of_fmap. exists r0.2. split; [|by apply list_elem_of_fmap_2].
  unfold cell_at. by rewrite Hj.
Qed.

Lemma na_rows_zero d : Forall (λ r, NaN ∉ r) (values d) → na_rows d = 0.
Proof.
  intros Hna. unfold na_rows. rewrite filter_none; [done|].
  intros r Hr. rewrite list.Forall_forall in Hna.
  apply Hna, notna_row_true in Hr. congruence.
Qed.

Lemma length_filter_sublist {A} (P : A → Prop) `{!∀ x, Decision (P x)} (l k : list A) :
  sublist l k → length (filter P l) ≤ length (filter P k).
Proof.
  induction 1 as [|x l k _ IH|x l k _ IH]; [done| |].
  - destruct (decide (P x)).
    + rewrite !filter_cons_True by done. cbn. lia.
    + by rewrite !filter_cons_False by done.
  - destruct (decide (P x)).
    + rewrite filter_cons_True by done. cbn. lia.
    + by rewrite filter_cons_False by done.
Qed.

(** Between the rows of a table, of its cleaned version, its repeated rows
    and its rows with a missing value. *)
Lemma length_rows_clean_bounds d :
  length (rows (drop_duplicates (dropna d))) + sum_mask (duplicated d) ≤ length (rows d) ∧
  length (rows d)
  ≤ length (rows (drop_duplicates (dropna d))) + sum_mask (duplicated d) + na_rows d.
Proof.
  pose proof (length_dedup_from [] (rows d)) as Hdup.
  fold (values d) in Hdup. fold (duplicated d) in Hdup.
  pose proof (length_rows_dropna d) as Hna. rewrite rows_dropna in Hna.
  rewrite rows_clean, (dedup_from_filter_notna [] []) by done.
  pose proof (length_filter_bool (λ r : Z * list cell, notna_row r.2) (rows d)) as H1.
  pose proof (length_filter_bool (λ r : Z * list cell, notna_row r.2)
                (dedup_from [] (rows d))) as H2.
  pose proof (length_filter_sublist (λ r : Z * list cell, notna_row r.2 = false)
                _ _ (dedup_from_sublist [] (rows d))) as H3.
  cbn beta in *. lia.
Qed.

(** X8. The two counts the loading stage returns tell what cleaning will
    remove: the rows of the cleaned table and the repeated rows counted
    make at most the rows of the combined table, at least those without a
    missing value, and exactly all of them when every missing-value count
    is zero. *)
Theorem load_and_explore_data_counts w red_file white_file red white :
  read_csv w red_file ";" = Some red →
  read_csv w white_file ";" = Some white →
  ∃ data missing_values duplicate_count w' d d',
    load_and_explore_data red_file white_file w
      = (Ok (data, missing_values, duplicate_count), w') ∧
    heap w' !! data = Some d ∧
    returns_table (preprocess_data data) w' d' ∧
    missing_values.*1 = columns d ∧
    length (rows d') + duplicate_count ≤ length (rows d) ∧
    length (rows d) ≤ length (rows d') + duplicate_count + na_rows d ∧
    (Forall (λ p, p.2 = 0) missing_values →
     length (rows d') + duplicate_count = length (rows d)).
Proof.
  intros Hred Hwhite.
  eexists _, _, _, _, (combined red white), (drop_duplicates (dropna (combined red white))).
  split; [apply load_and_explore_data_run; [done | done | apply column_wine_type_is_Some]|].
  split; [seg_lookup|].
  split; [apply preprocess_data_returns; seg_lookup|].
  split; [apply isnull_sum_columns|].
  destruct (length_rows_clean_bounds (combined red white)) as [Hle Hge].
  split; [exact Hle|]. split; [exact Hge|].
  intros Hz. apply isnull_sum_zero, na_rows_zero in Hz; [lia|].
  apply well_formed_concat.
Qed.

Lemma load_and_explore_data_counts_witness :
  ∃ data missing_values duplicate_count w' d d',
    load_and_explore_data "winequality-red.csv" "winequality-white.csv"
      (example_world red_example white_example)
      = (Ok (data, missing_values, duplicate_count), w') ∧
    heap w' !! data = Some d ∧
    returns_table (preprocess_data data) w' d' ∧
    missing_values.*1 = columns d ∧
    length (rows d') + duplicate_count ≤ length (rows d) ∧
    length (rows d) ≤ length (rows d') + duplicate_count + na_rows d ∧
    (Forall (λ p, p.2 = 0) missing_values →
     length (rows d') + duplicate_count = length (rows d)).
Proof.
  apply (load_and_explore_data_counts (example_world red_example white_example)
           "winequality-red.csv" "winequality-white.csv" red_example white_example).
  - reflexivity.
  - reflexivity.
Defined.

(** ** The clustering stage writes into the table it is given *)

Lemma columns_assign t c vals d :
  columns (assign t c vals d)
  = if decide (c ∈ columns d) then columns d else columns d ++ [c].
Proof.
  unfold assign. destruct (get_loc c (columns d)) as [j|] eqn:E; cbn [columns].
  - rewrite decide_True; [done|]. apply get_loc_Some in E. by eapply list_elem_of_lookup_2.
  - rewrite decide_False; [done|]. by apply get_loc_None.
Qed.

Lemma columns_set_column c vals d :
  columns (set_column c vals d)
  = if decide (c ∈ columns d) then columns d else columns d ++ [c].
Proof. apply columns_assign. Qed.

Lemma length_rows_set_column c vals d :
  length vals = length (rows d) → length (rows (set_column c vals d)) = length (rows d).
Proof.
  intros Hlen. unfold set_column, assign.
  destruct (get_loc c (columns d)); cbn [rows]; rewrite length_zip_with; lia.
Qed.

Lemma well_formed_set_column c vals d :
  well_formed d → length vals = length (rows d) → well_formed (set_column c vals d).
Proof.
  unfold well_formed, set_column, assign. intros Hwf Hlen.
  destruct (get_loc c (columns d)) as [j|]; cbn [columns rows];
    revert vals Hlen; (induction Hwf as [|r rs Hr Hwf IH]; intros [|v vals] Hlen;
      [constructor | done | done |]);
    cbn [zip_with]; (constructor; [|apply IH; by injection Hlen]); cbn [snd].
  - by rewrite length_insert.
  - rewrite !length_app. cbn. lia.
Qed.

(** Assigning the same values to a column a second time changes nothing. *)
Lemma set_column_idemp c vals d :
  well_formed d → length vals = length (rows d) →
  set_column c vals (set_column c vals d) = set_column c vals d.
Proof.
  intros Hwf Hlen. unfold set_column. generalize (dtype_of vals). intros t.
  unfold assign at 1 3.
  destruct (get_loc c (columns d)) as [j|] eqn:E.
  - unfold assign. rewrite E. cbn [columns dtypes rows]. rewrite E. f_equal.
    { by rewrite list_insert_insert_eq. }
    clear Hwf. revert vals Hlen. induction (rows d) as [|r rs IH]; intros [|v vals] Hlen;
      try done.
    cbn. rewrite list_insert_insert_eq. f_equal. apply IH. by injection Hlen.
  - unfold assign. rewrite E. cbn [columns dtypes rows].
    apply get_loc_None in E. rewrite (get_loc_app_fresh _ _ E). f_equal.
    { rewrite insert_app_r_alt by (rewrite length_resize; lia).
      by rewrite length_resize, Nat.sub_diag. }
    unfold well_formed in Hwf. revert vals Hlen.
    induction Hwf as [|r rs Hr Hwf IH]; intros [|v vals] Hlen; try done.
    cbn. f_equal; [|apply IH; by injection Hlen]. f_equal.
    rewrite <- Hr. by rewrite insert_app_r_alt, Nat.sub_diag by lia.
Qed.

Lemma clustering_result_Ok `{Sklearn} d features d' silhouette_avg sse :
  clustering_result d features = Ok (d', silhouette_avg, sse) →
  ∃ X labels cluster,
    select features d = Some X ∧
    KMeans_fit_predict 3 42 (values X) = Ok labels ∧
    length labels = length (rows d) ∧
    d' = set_column "cluster" ((λ l, Num (Qc_of_Z l)) <$> labels) d ∧
    column "cluster" d' = Some cluster ∧
    silhouette_score (values X) cluster = Ok silhouette_avg ∧
    mapM (λ k, KMeans_inertia k 42 (values X)) (seq 1 10) = Ok sse.
Proof.
  unfold clustering_result. destruct (select features d) as [X|] eqn:HX; [|done].
  destruct (KMeans_fit_predict 3 42 (values X)) as [labels|] eqn:Hk;
    cbn [mbind result_bind]; [|done].
  cbv zeta. case_decide as Hlen; [|done].
  destruct (column "cluster" _) as [cluster|] eqn:Hc; [|done].
  destruct (silhouette_score (values X) cluster) as [s|] eqn:Hs; cbn [mbind result_bind];
    [|done].
  destruct (mapM _ (seq 1 10)) as [sse'|] eqn:Hm; cbn [mbind result_bind]; [|done].
  intros [= <- <- <-]. exists X, labels, cluster. rewrite length_fmap in Hlen.
  by split_and!.
Qed.

(** A successful run of the clustering stage, read backwards. *)
Lemma perform_clustering_Ok `{Sklearn} w data d features r silhouette_avg w' :
  heap w !! data = Some d →
  perform_clustering data features w = (Ok (r, silhouette_avg), w') →
  ∃ d' sse X,
    clustering_result d features = Ok (d', silhouette_avg, sse) ∧
    select features d = Some X ∧ r = data ∧
    w' = mkWorld (read_csv w) (<[data := d']> (heap w) ++ [X]) (np_random w)
           (trace w ++ [Lineplot (seq 1 10) sse; Savefig "elbow_plot.png"]).
Proof.
  intros Hd Hrun. pose proof (perform_clustering_run w data d features Hd) as Hr.
  destruct (clustering_result d features) as [[[d' s] sse]|e].
  - destruct Hr as (X & HX & Hr). rewrite Hr in Hrun. injection Hrun as <- <- <-.
    by exists d', sse, X.
  - destruct Hr as (w0 & Hr). rewrite Hr in Hrun. discriminate Hrun.
Qed.

(** ** Two runs of the clustering stage *)



(** The two worlds of this example differ in the state of the global
    generator.  Both runs complete and label the fourteen samples 0, 1, 2,
    0, 1, 2, ...; an estimator made without a seed draws from the global
    generator, and its labels differ between the two worlds. *)
Example perform_clustering_seeded :
  let H := checked_sklearn in
  let d := combined red_wines_example white_wines_example in
  let w1 := world_with d in
  let w2 := other_world_with d in
  let unseeded X : M (list Z) :=
    rng ← check_random_state None; lift (KMeans_fit_predict 3 rng X) in
  np_random w1 ≠ np_random w2 ∧
  well_formed d ∧
  (∃ w1', perform_clustering 0 features w1 = (Ok (0, Q2Qc 0), w1')) ∧
  cluster_labels (perform_clustering 0 features w1)
    = Ok ((λ i, Num (Qc_of_Z (Z.of_nat i `mod` 3))) <$> seq 0 14) ∧
  cluster_labels (perform_clustering 1 features w2)
    = Ok ((λ i, Num (Qc_of_Z (Z.of_nat i `mod` 3))) <$> seq 0 14) ∧
  (∃ X, select features d = Some X ∧
        (unseeded (values X) w1).1 = Ok ((λ i, Z.of_nat i `mod` 3)%Z <$> seq 0 14) ∧
        (unseeded (values X) w2).1 = Ok ((λ i, Z.of_nat (S i) `mod` 3)%Z <$> seq 0 14)).
Proof.
  split_and!.
  - discriminate.
  - repeat constructor.
  - eexists. vm_compute. reflexivity.
  - vm_compute. reflexivity.
  - vm_compute. reflexivity.
  - eexists. split_and!; [reflexivity | vm_compute; reflexivity..].
Qed.

(** X9. The clustering stage changes the caller's table in place: the
    reference it returns is the one it was given, and the object now has a
    [cluster] column with one label per row, added on the right unless the
    table already had one; the other columns, the index and every other
    object are as before. *)
Theorem perform_clustering_in_place `{Sklearn} w data d features r silhouette_avg w' :
  heap w !! data = Some d → well_formed d →
  perform_clustering data features w = (Ok (r, silhouette_avg), w') →
  r = data ∧
  ∃ d' cluster,
    heap w' !! data = Some d' ∧
    column "cluster" d' = Some cluster ∧ length cluster = length (rows d) ∧
    columns d'
      = (if decide ("cluster" ∈ columns d) then columns d else columns d ++ ["cluster"]) ∧
    index d' = index d ∧
    (∀ c, c ≠ "cluster" → column c d' = column c d) ∧
    (∀ r0 d0, r0 ≠ data → heap w !! r0 = Some d0 → heap w' !! r0 = Some d0).
Proof.
  intros Hd Hwf Hrun.
  destruct (perform_clustering_Ok _ _ _ _ _ _ _ Hd Hrun) as (d' & sse & X & Hres & HX & -> & ->).
  split; [done|].
  apply clustering_result_Ok in Hres as (X' & labels & cluster & _ & _ & Hlen & -> & Hc & _).
  assert (Hlen' : length ((λ l, Num (Qc_of_Z l)) <$> labels) = length (rows d))
    by (by rewrite length_fmap).
  apply lookup_lt_Some in Hd as Hlt.
  eexists _, cluster. cbn [heap]. split_and!.
  - rewrite lookup_app_l by (by rewrite length_insert). by apply list_lookup_insert_eq.
  - exact Hc.
  - rewrite column_set_column in Hc by done. injection Hc as <-. exact Hlen'.
  - apply columns_set_column.
  - by apply index_assign.
  - intros c Hne. by apply column_set_column_ne.
  - intros r0 d0 Hne Hr0. apply lookup_app_l_Some. by rewrite list_lookup_insert_ne.
Qed.

Lemma perform_clustering_in_place_witness :
  let H := example_sklearn in
  let w := world_with plotted_example in
  ∃ r silhouette_avg w',
    perform_clustering 0 ["pH"; "alcohol"] w = (Ok (r, silhouette_avg), w') ∧
    r = 0 ∧
    ∃ d' cluster,
      heap w' !! 0 = Some d' ∧
      column "cluster" d' = Some cluster ∧ length cluster = length (rows plotted_example) ∧
      columns d'
        = (if decide ("cluster" ∈ columns plotted_example) then columns plotted_example
           else columns plotted_example ++ ["cluster"]) ∧
      index d' = index plotted_example ∧
      (∀ c, c ≠ "cluster" → column c d' = column c plotted_example) ∧
      (∀ r0 d0, r0 ≠ 0 → heap w !! r0 = Some d0 → heap w' !! r0 = Some d0).
Proof.
  intros H w. eexists _, _, _. split; [vm_compute; reflexivity|].
  apply (perform_clustering_in_place w 0 plotted_example ["pH"; "alcohol"] 0 (Q2Qc 0)).
  - reflexivity.
  - repeat constructor.
  - vm_compute. reflexivity.
Defined.

(** ** The clustering stage when it fails *)

Lemma select_None fs d c : c ∈ fs → c ∉ columns d → select fs d = None.
Proof.
  intros Hc Hd. destruct (select fs d) as [X|] eqn:E; [|done]. exfalso.
  assert (Hs : is_Some (values <$> select fs d)) by (rewrite E; by eexists).
  rewrite select_is_Some in Hs. destruct (Hs c Hc) as [col Hcol].
  by apply column_elem_of in Hcol.
Qed.

(** X10. A feature that is not a column of the table makes the clustering
    stage raise [KeyError] at once: no object is created or changed and
    nothing is drawn. *)
Theorem perform_clustering_missing_feature `{Sklearn} w data d features c :
  heap w !! data = Some d → c ∈ features → c ∉ columns d →
  ∃ key, perform_clustering data features w = (Raise (KeyError key), w).
Proof.
  intros Hd Hc Hn. eexists. unfold perform_clustering.
  erewrite bind_Raise; [reflexivity|].
  eapply getitem_frame_raise; [exact Hd | by eapply select_None].
Qed.

Lemma perform_clustering_missing_feature_witness :
  let H := example_sklearn in
  ∃ key, perform_clustering 0 ["pH"; "alcohol"] (world_with unplotted_example)
         = (Raise (KeyError key), world_with unplotted_example).
Proof.
  intros H.
  apply (perform_clustering_missing_feature (world_with unplotted_example) 0
           unplotted_example ["pH"; "alcohol"] "alcohol").
  - reflexivity.
  - apply (bool_decide_unpack _). vm_compute. exact I.
  - apply (bool_decide_unpack _). vm_compute. exact I.
Defined.

(** X11. The labels are written before the silhouette score is computed:
    when the score is refused the stage raises that error with the
    [cluster] column already in the caller's table, and no plot drawn. *)
Theorem perform_clustering_score_fails `{Sklearn} w data d features X labels e :
  heap w !! data = Some d → well_formed d →
  select features d = Some X →
  KMeans_fit_predict 3 42 (values X) = Ok labels →
  length labels = length (rows d) →
  silhouette_score (values X) ((λ l, Num (Qc_of_Z l)) <$> labels) = Raise e →
  ∃ w' d',
    perform_clustering data features w = (Raise e, w') ∧
    heap w' !! data = Some d' ∧
    column "cluster" d' = Some ((λ l, Num (Qc_of_Z l)) <$> labels) ∧
    trace w' = trace w.
Proof.
  intros Hd Hwf HX Hk Hlen Hs.
  assert (Hlen' : length ((λ l, Num (Qc_of_Z l)) <$> labels) = length (rows d))
    by (by rewrite length_fmap).
  set (vals := (λ l, Num (Qc_of_Z l)) <$> labels) in *.
  exists (mkWorld (read_csv w) (<[data := set_column "cluster" vals d]> (heap w) ++ [X])
            (np_random w) (trace w)), (set_column "cluster" vals d).
  apply lookup_lt_Some in Hd as Hlt.
  assert (Hd' : (<[data := set_column "cluster" vals d]> (heap w) ++ [X]) !! data
                = Some (set_column "cluster" vals d)).
  { rewrite lookup_app_l by (by rewrite length_insert). by apply list_lookup_insert_eq. }
  split_and!; [|exact Hd'|by apply column_set_column|done].
  unfold perform_clustering.
  replace w with (mkWorld (read_csv w) (heap w ++ []) (np_random w) (trace w)) at 1
    by (destruct w; cbn; by rewrite app_nil_r).
  cbn [heap trace read_csv np_random].
  erewrite bind_Ok by (eapply getitem_frame_run; [seg_lookup | eassumption]). world_norm.
  step_fmap deref_run. erewrite bind_Ok by reflexivity. step_lift Hk. fold vals.
  erewrite bind_Ok by (eapply setitem_run; [seg_lookup | eassumption]). world_norm.
  rewrite insert_app_l by done.
  erewrite bind_Ok
    by (eapply getitem_run; [exact Hd' | by apply column_set_column]).
  erewrite bind_Raise by (rewrite lift_run, Hs; reflexivity). reflexivity.
Qed.

Lemma perform_clustering_score_fails_witness :
  let H := single_label_sklearn in
  ∃ w' d',
    perform_clustering 0 ["pH"; "alcohol"] (world_with plotted_example)
      = (Raise (ValueError "Number of labels is 1"), w') ∧
    heap w' !! 0 = Some d' ∧
    column "cluster" d' = Some ((λ l, Num (Qc_of_Z l)) <$> [0; 0; 0]%Z) ∧
    trace w' = trace (world_with plotted_example).
Proof.
  intros H.
  apply (perform_clustering_score_fails (world_with plotted_example) 0 plotted_example
           ["pH"; "alcohol"] (take_columns [0; 2] plotted_example)).
  - reflexivity.
  - repeat constructor.
  - reflexivity.
  - reflexivity.
  - reflexivity.
  - vm_compute. reflexivity.
Defined.

(** ** Running the clustering stage again *)

Lemma agree_on_set_column c vals d fs :
  well_formed d → length vals = length (rows d) → c ∉ fs →
  agree_on fs (set_column c vals d) d.
Proof.
  intros Hwf Hlen Hc c' Hc'. apply column_set_column_ne; [done | done |].
  by intros ->.
Qed.

(** X12. Running the clustering stage a second time on the table it has
    labelled gives the same score and leaves the table as the first run left
    it, provided [cluster] is not itself a feature. *)
Theorem perform_clustering_again `{Sklearn} w data d features r silhouette_avg w1 :
  heap w !! data = Some d → well_formed d → "cluster" ∉ features →
  perform_clustering data features w = (Ok (r, silhouette_avg), w1) →
  ∃ w2, perform_clustering r features w1 = (Ok (r, silhouette_avg), w2) ∧
        heap w2 !! r = heap w1 !! r.
Proof.
  intros Hd Hwf Hnf Hrun.
  destruct (perform_clustering_Ok _ _ _ _ _ _ _ Hd Hrun) as (d' & sse & X & Hres & HX & -> & ->).
  apply clustering_result_Ok in Hres as (X0 & labels & cluster & HX0 & Hk & Hlen & -> & Hc & Hs & Hm).
  assert (Hlen' : length ((λ l, Num (Qc_of_Z l)) <$> labels) = length (rows d))
    by (by rewrite length_fmap).
  set (vals := (λ l, Num (Qc_of_Z l)) <$> labels) in *.
  set (d' := set_column "cluster" vals d) in *.
  apply lookup_lt_Some in Hd as Hlt.
  assert (Hd' : (<[data := d']> (heap w) ++ [X]) !! data = Some d').
  { rewrite lookup_app_l by (by rewrite length_insert). by apply list_lookup_insert_eq. }
  assert (Hres' : clustering_result d' features = Ok (d', silhouette_avg, sse)).
  { unfold clustering_result.
    pose proof (values_select_agree features d' d
                  (agree_on_set_column _ _ _ _ Hwf Hlen' Hnf)
                  (length_rows_set_column _ _ _ Hlen')) as Hv.
    rewrite HX0 in Hv. destruct (select features d') as [X'|]; [|done].
    injection Hv as ->. rewrite Hk. cbn [mbind result_bind]. cbv zeta. fold vals.
    rewrite decide_True by (unfold d'; by rewrite length_rows_set_column).
    unfold d' at 1 2. rewrite set_column_idemp by done. fold d'.
    rewrite Hc, Hs. cbn [mbind result_bind]. by rewrite Hm. }
  match goal with |- ∃ w2, perform_clustering _ _ ?W = _ ∧ _ =>
    pose proof (perform_clustering_run W data d' features Hd') as Hr end.
  rewrite Hres' in Hr. destruct Hr as (X' & _ & Hr). eexists. split; [exact Hr|].
  cbn [heap]. rewrite Hd'.
  rewrite lookup_app_l by (rewrite length_insert, length_app, length_insert; lia).
  apply list_lookup_insert_eq. rewrite length_app, length_insert. lia.
Qed.

Lemma perform_clustering_again_witness :
  let H := example_sklearn in
  let w := world_with plotted_example in
  ∃ r silhouette_avg w1,
    perform_clustering 0 ["pH"; "alcohol"] w = (Ok (r, silhouette_avg), w1) ∧
    ∃ w2, perform_clustering r ["pH"; "alcohol"] w1 = (Ok (r, silhouette_avg), w2) ∧
          heap w2 !! r = heap w1 !! r.
Proof.
  intros H w. eexists _, _, _. split; [vm_compute; reflexivity|].
  apply (perform_clustering_again w 0 plotted_example ["pH"; "alcohol"] 0 (Q2Qc 0)).
  - reflexivity.
  - repeat constructor.
  - apply (bool_decide_unpack _). vm_compute. exact I.
  - vm_compute. reflexivity.
Defined.

(** ** The cluster plot *)

Lemma div_100_multiple n : n `mod` 100 = 0 → 100 * ((n + 99) / 100) = n.
Proof.
  intros Hm. pose proof (Nat.div_mod_eq n 100) as Hn. rewrite Hm in Hn.
  rewrite <- (Nat.div_unique (n + 99) 100 (n / 100) 99); lia.
Qed.

Lemma div_100_S n :
  (S n + 99) / 100 = if decide (n `mod` 100 = 0) then S ((n + 99) / 100) else (n + 99) / 100.
Proof.
  pose proof (Nat.div_mod_eq n 100) as Hn.
  pose proof (Nat.mod_upper_bound n 100 ltac:(lia)) as Hlt.
  case_decide as Hm.
  - rewrite <- (Nat.div_unique (n + 99) 100 (n / 100) 99) by lia.
    symmetry. apply (Nat.div_unique _ 100 _ 0); lia.
  - rewrite <- (Nat.div_unique (n + 99) 100 (S (n / 100)) (n `mod` 100 - 1)) by lia.
    symmetry. apply (Nat.div_unique _ 100 _ (n `mod` 100)); lia.
Qed.

(** Keeping the positions that are multiples of 100 among the first [n] is
    visiting the positions 0, 100, 200, ... below [n]. *)
Lemma omap_every_100 {A} (g : nat → option A) n :
  omap (λ line, if decide (line `mod` 100 = 0) then g line else None) (seq 0 n)
  = omap (λ k, g (100 * k)) (seq 0 ((n + 99) / 100)).
Proof.
  induction n as [|n IH]; [done|].
  rewrite seq_S, omap_app, IH, div_100_S. cbn [omap list_omap Nat.add].
  destruct (decide (n `mod` 100 = 0)) as [Hm|Hm].
  - rewrite seq_S, omap_app. cbn [omap list_omap Nat.add]. by rewrite div_100_multiple.
  - by rewrite app_nil_r.
Qed.

Lemma omap_total {A B} (g : A → option B) (l : list A) (k : nat) :
  (∀ x, x ∈ l → is_Some (g x)) →
  length (omap g l) = length l ∧ omap g l !! k = l !! k ≫= g.
Proof.
  revert k. induction l as [|x l IH]; intros k Hl; [done|].
  destruct (Hl x) as [y Hy]; [by left|]. cbn [omap list_omap]. rewrite Hy.
  destruct (IH (pred k)) as [Hlen Hk]; [intros z Hz; apply Hl; by right|].
  split; [cbn; by rewrite Hlen|]. destruct k as [|k]; [done|]. exact Hk.
Qed.

(** X13. The cluster plot annotates every 100th row, counted by position
    from the first: a table of [n] rows gets [n / 100] annotations rounded
    up, the [k]-th placed at the point of row [100 k] with that row's
    cluster label. *)
Theorem visualize_clusters_annotations w data d alcohol volatile_acidity cluster :
  heap w !! data = Some d →
  column "alcohol" d = Some alcohol →
  column "volatile acidity" d = Some volatile_acidity →
  column "cluster" d = Some cluster →
  ∃ texts,
    visualize_clusters data w =
      (Ok (), mkWorld (read_csv w) (heap w) (np_random w)
                (trace w ++ [Scatterplot alcohol volatile_acidity cluster texts;
                             Savefig "cluster_plot.png"])) ∧
    length texts = (length (rows d) + 99) / 100 ∧
    ∀ k, k < length texts →
      ∃ a v c, texts !! k = Some (a, v, c) ∧
        alcohol !! (100 * k) = Some a ∧ volatile_acidity !! (100 * k) = Some v ∧
        cluster !! (100 * k) = Some c.
Proof.
  intros Hd Ha Hv Hc. pose proof (visualize_clusters_run w data d Hd) as Hrun.
  rewrite Ha, Hv, Hc in Hrun. eexists. split; [exact Hrun|].
  apply length_column in Ha, Hv, Hc.
  unfold annotations. rewrite omap_every_100.
  set (q := (length (rows d) + 99) / 100).
  assert (Hq : ∀ k, k < q → 100 * k < length (rows d)).
  { intros k Hk. unfold q in Hk.
    pose proof (Nat.div_mod_eq (length (rows d) + 99) 100) as Hn.
    pose proof (Nat.mod_upper_bound (length (rows d) + 99) 100 ltac:(lia)). lia. }
  set (g := λ k, a ← alcohol !! (100 * k); v ← volatile_acidity !! (100 * k);
                 c ← cluster !! (100 * k); Some (a, v, c)).
  assert (Hg : ∀ k, k < q → ∃ a v c,
             g k = Some (a, v, c) ∧ alcohol !! (100 * k) = Some a ∧
             volatile_acidity !! (100 * k) = Some v ∧ cluster !! (100 * k) = Some c).
  { intros k Hk. specialize (Hq k Hk). unfold g.
    destruct (lookup_lt_is_Some_2 alcohol (100 * k)) as [a Ea]; [lia|].
    destruct (lookup_lt_is_Some_2 volatile_acidity (100 * k)) as [v Ev]; [lia|].
    destruct (lookup_lt_is_Some_2 cluster (100 * k)) as [c Ec]; [lia|].
    exists a, v, c. by rewrite Ea, Ev, Ec. }
  assert (Htot : ∀ k, k ∈ seq 0 q → is_Some (g k)).
  { intros k Hk. apply elem_of_seq in Hk. destruct (Hg k) as (a & v & c & E & _); [lia|].
    by eexists. }
  split.
  - destruct (omap_total g (seq 0 q) 0 Htot) as [Hlen _]. by rewrite Hlen, length_seq.
  - intros k Hk. destruct (omap_total g (seq 0 q) k Htot) as [Hlen Hlk].
    rewrite Hlen, length_seq in Hk. destruct (Hg k Hk) as (a & v & c & E & Hka & Hkv & Hkc).
    exists a, v, c. split; [|done]. rewrite Hlk.
    by rewrite (proj2 (lookup_seq 0 q k k) (conj eq_refl Hk)).
Qed.

Lemma visualize_clusters_annotations_witness :
  let d := set_column "volatile acidity" (column_at 0 plotted_example) clustered_example in
  let w := world_with d in
  ∃ texts,
    visualize_clusters 0 w =
      (Ok (), mkWorld (read_csv w) (heap w) (np_random w)
                (trace w ++ [Scatterplot (column_at 2 d) (column_at 4 d) (column_at 3 d) texts;
                             Savefig "cluster_plot.png"])) ∧
    length texts = (length (rows d) + 99) / 100 ∧
    ∀ k, k < length texts →
      ∃ a v c, texts !! k = Some (a, v, c) ∧
        column_at 2 d !! (100 * k) = Some a ∧ column_at 4 d !! (100 * k) = Some v ∧
        column_at 3 d !! (100 * k) = Some c.
Proof.
  intros d w. apply (visualize_clusters_annotations w 0 d).
  - reflexivity.
  - reflexivity.
  - reflexivity.
  - reflexivity.
Defined.

(** X14. Without one of the columns it draws, in particular before the
    clustering stage has added [cluster], the cluster plot raises and
    leaves everything as it was: no figure is drawn or saved. *)
Theorem visualize_clusters_missing_column w data d c :
  heap w !! data = Some d →
  c ∈ ["alcohol"; "volatile acidity"; "cluster"] → c ∉ columns d →
  ∃ e, visualize_clusters data w = (Raise e, w).
Proof.
  intros Hd Hc Hn. pose proof (visualize_clusters_run w data d Hd) as Hrun.
  assert (Hnone : column c d = None).
  { destruct (column c d) eqn:E; [|done]. by apply column_elem_of in E. }
  destruct (column "alcohol" d) eqn:Ea; [|done].
  destruct (column "volatile acidity" d) eqn:Ev; [|done].
  destruct (column "cluster" d) eqn:Ec; [|done].
  exfalso. repeat (apply elem_of_cons in Hc as [->|Hc]; [congruence|]).
  by apply elem_of_nil in Hc.
Qed.

Lemma visualize_clusters_missing_column_witness :
  ∃ e, visualize_clusters 0 (world_with plotted_example)
       = (Raise e, world_with plotted_example).
Proof.
  apply (visualize_clusters_missing_column (world_with plotted_example) 0
           plotted_example "cluster").
  - reflexivity.
  - apply (bool_decide_unpack _). vm_compute. exact I.
  - apply (bool_decide_unpack _). vm_compute. exact I.
Defined.

(** ** The train/test split keeps every sample with its target *)

Lemma iloc_zip {A B} (idx : list nat) (X : list A) (y : list B) :
  length X = length y → iloc idx (zip X y) = zip (iloc idx X) (iloc idx y).
Proof.
  intros Hlen. unfold iloc. induction idx as [|i idx IH]; [done|].
  cbn [omap list_omap]. rewrite IH, lookup_zip_with.
  destruct (X !! i) as [x|] eqn:Ex; cbn.
  - destruct (lookup_lt_is_Some_2 y i) as [b Eb];
      [rewrite <- Hlen; by eapply lookup_lt_Some|].
    by rewrite Eb.
  - apply lookup_ge_None in Ex. rewrite Hlen in Ex. apply lookup_ge_None in Ex.
    by rewrite Ex.
Qed.

Lemma iloc_app {A} (idx1 idx2 : list nat) (l : list A) :
  iloc (idx1 ++ idx2) l = iloc idx1 l ++ iloc idx2 l.
Proof. apply omap_app. Qed.

Lemma iloc_Permutation {A} (idx : list nat) (l : list A) :
  idx ≡ₚ seq 0 (length l) → iloc idx l ≡ₚ l.
Proof. intros Hp. unfold iloc. by rewrite Hp, omap_lookup_seq. Qed.

Lemma shuffle_split_small `{Sklearn} n :
  n < 2 → shuffle_split n (3 # 10) 42 = Raise (ValueError "the resulting train set will be empty").
Proof. intros Hn. destruct n as [|[|n]]; [done | done | lia]. Qed.

(** X15. The split of the regression stage keeps every sample with its own
    target value and loses or repeats none: the test pairs followed by the
    train pairs are the pairs of the input, up to order. *)
Theorem train_test_split_aligned `{Sklearn} {A B} (X : list A) (y : list B)
    X_train X_test y_train y_test :
  train_test_split X y (3 # 10) 42 = Ok (X_train, X_test, y_train, y_test) →
  length X = length y ∧
  length X_train = length y_train ∧ length X_test = length y_test ∧
  zip X_test y_test ++ zip X_train y_train ≡ₚ zip X y.
Proof.
  unfold train_test_split. case_decide as Hlen; [|done].
  destruct (decide (2 ≤ length X)) as [Hn|Hn].
  2:{ rewrite shuffle_split_small by lia. done. }
  destruct (shuffle_split_partition (length X) Hn) as (tr & te & -> & Hp & _).
  cbn [mbind result_bind]. intros [= <- <- <- <-].
  assert (Hall : ∀ i, i ∈ te ++ tr → i < length X).
  { intros i Hi. rewrite Hp in Hi. apply elem_of_seq in Hi. lia. }
  assert (Hlt : ∀ idx, idx ⊆ te ++ tr → length (iloc idx X) = length (iloc idx y)).
  { intros idx Hidx. rewrite !length_iloc; [done| |]; apply list.Forall_forall;
      intros i Hi; apply Hidx, Hall in Hi; lia. }
  split; [done|].
  split; [apply Hlt; intros i Hi; apply elem_of_app; by right|].
  split; [apply Hlt; intros i Hi; apply elem_of_app; by left|].
  rewrite <- !iloc_zip, <- iloc_app by done. apply iloc_Permutation.
  by rewrite length_zip, <- Hlen, Nat.min_id.
Qed.

Lemma train_test_split_aligned_witness :
  let H := example_sklearn in
  let X := values (take_columns [0] ten_rows_example) in
  let y := column_at 1 ten_rows_example in
  length X = length y ∧
  length (iloc (seq 3 7) X) = length (iloc (seq 3 7) y) ∧
  length (iloc (seq 0 3) X) = length (iloc (seq 0 3) y) ∧
  zip (iloc (seq 0 3) X) (iloc (seq 0 3) y) ++ zip (iloc (seq 3 7) X) (iloc (seq 3 7) y)
  ≡ₚ zip X y.
Proof.
  intros H X y. apply (train_test_split_aligned X y). reflexivity.
Defined.

(** ** What the regression stage changes and returns *)

Lemma Qc_square_nonneg (a : Qc) : (0 <= a * a)%Qc.
Proof.
  unfold Qcle. change (0 <= Qred (this a * this a))%Q. rewrite Qred_correct.
  destruct (this a) as [n m]. unfold Qle. cbn. nia.
Qed.

Lemma Qcsum_nonneg (l : list Qc) : Forall (λ x, (0 <= x)%Qc) l → (0 <= Qcsum l)%Qc.
Proof.
  induction 1 as [|x l Hx _ IH]; [apply Qcle_refl|]. cbn [Qcsum foldr].
  fold (Qcsum l). rewrite <- (Qcplus_0_l 0). by apply Qcplus_le_compat.
Qed.

Lemma mean_nonneg (l : list Qc) : Forall (λ x, (0 <= x)%Qc) l → (0 <= mean l)%Qc.
Proof.
  intros Hl. unfold mean, Qcdiv.
  rewrite <- (Qcmult_0_l (/ Q2Qc (inject_Z (Z.of_nat (length l))))).
  apply Qcmult_le_compat_r; [by apply Qcsum_nonneg|].
  unfold Qcle.
  change (0 <= Qred (/ Qred (inject_Z (Z.of_nat (length l)))))%Q.
  rewrite Qred_correct. apply Qinv_le_0_compat. rewrite Qred_correct.
  unfold Qle. cbn. lia.
Qed.

Lemma mean_squared_error_nonneg y_true y_pred mse :
  mean_squared_error y_true y_pred = Ok mse → (0 <= mse)%Qc.
Proof.
  unfold mean_squared_error. destruct (mapM to_numeric y_true) as [ys|]; [|done].
  case_decide; [|done]. intros [= <-]. apply mean_nonneg.
  apply list.Forall_forall. intros x Hx.
  apply elem_of_zip_with in Hx as (t & p & -> & _). apply Qc_square_nonneg.
Qed.

Lemma regression_result_nonneg `{Sklearn} Xv target y alcohol quality mse :
  regression_result Xv target y alcohol quality = Ok mse → (0 <= mse)%Qc.
Proof.
  unfold regression_result. destruct Xv as [Xv|]; [|done]. destruct y as [y|]; [|done].
  destruct (train_test_split Xv y (3 # 10) 42) as [[[[X_train X_test] y_train] y_test]|];
    cbn [mbind result_bind]; [|done].
  destruct (LinearRegression_fit_predict X_train y_train X_test) as [y_pred|];
    cbn [mbind result_bind]; [|done].
  destruct (mean_squared_error y_test y_pred) as [mse'|] eqn:Hm;
    cbn [mbind result_bind]; [|done].
  destruct alcohol, quality; try done. intros [= <-].
  by eapply mean_squared_error_nonneg.
Qed.

(** X16. A successful regression stage returns an error that is not
    negative, draws the regression plot of the table's [alcohol] and
    [quality] columns, and changes no existing object: the caller's table
    is as it was. *)
Theorem perform_regression_effects `{Sklearn} w data d features target mse w' :
  heap w !! data = Some d →
  perform_regression data features target w = (Ok mse, w') →
  (0 <= mse)%Qc ∧
  (∀ r0 d0, heap w !! r0 = Some d0 → heap w' !! r0 = Some d0) ∧
  ∃ alcohol quality,
    column "alcohol" d = Some alcohol ∧ column "quality" d = Some quality ∧
    trace w' = trace w ++ [Regplot alcohol quality; Savefig "regression_line.png"].
Proof.
  intros Hd Hrun. pose proof (perform_regression_run w data d features target Hd) as Hr.
  destruct (regression_result (values <$> select features d) target (column target d)
              (column "alcohol" d) (column "quality" d)) as [mse'|e] eqn:Hres.
  2:{ destruct Hr as [w0 Hr]. rewrite Hr in Hrun. discriminate Hrun. }
  destruct Hr as (X & alcohol & quality & HX & Ha & Hq & Hr).
  rewrite Hr in Hrun. injection Hrun as <- <-.
  split; [by eapply regression_result_nonneg|].
  split; [intros r0 d0 Hr0; by apply heap_lookup_old|].
  by exists alcohol, quality.
Qed.

Lemma perform_regression_effects_witness :
  let H := example_sklearn in
  let w := world_with plotted_example in
  ∃ mse w',
    perform_regression 0 ["pH"; "alcohol"] "quality" w = (Ok mse, w') ∧
    (0 <= mse)%Qc ∧
    (∀ r0 d0, heap w !! r0 = Some d0 → heap w' !! r0 = Some d0) ∧
    ∃ alcohol quality,
      column "alcohol" plotted_example = Some alcohol ∧
      column "quality" plotted_example = Some quality ∧
      trace w' = trace w ++ [Regplot alcohol quality; Savefig "regression_line.png"].
Proof.
  intros H w. eexists _, _. split; [vm_compute; reflexivity|].
  eapply (perform_regression_effects w 0 plotted_example ["pH"; "alcohol"] "quality").
  - reflexivity.
  - vm_compute. reflexivity.
Defined.

(** ** The columns of the heat map *)

Lemma omap_sublist {A B} (f : A → option B) (l k : list A) :
  sublist l k → sublist (omap f l) (omap f k).
Proof.
  induction 1 as [|x l k _ IH|x l k _ IH]; [done| |]; cbn [omap list_omap];
    destruct (f x); try done.
  - by apply sublist_skip.
  - by apply sublist_cons.
Qed.

(** X17. The heat map is labelled with the columns of numeric dtype, in
    the order of the table.  When the table has none, the stage raises
    [ValueError] and draws nothing.  Either way the table itself is left as
    it was: the columns are selected into a new object. *)
Theorem plot_correlation_matrix_labels w data d :
  heap w !! data = Some d → NoDup (columns d) →
  let labels := columns (select_dtypes_number d) in
  sublist labels (columns d) ∧
  (∀ c, c ∈ labels ↔ dtype_in c d = Some numeric) ∧
  ∃ r w',
    plot_correlation_matrix data w = (r, w') ∧
    heap w' !! data = Some d ∧
    (labels = [] → r = Raise empty_matrix_error ∧ trace w' = trace w) ∧
    (labels ≠ [] →
     r = Ok () ∧
     ∃ m, trace w' = trace w ++ [Heatmap labels m; Savefig "correlation_heatmap.png"]).
Proof.
  intros Hd Hnd labels. split_and!.
  - unfold labels, select_dtypes_number, take_columns, numeric_columns. cbn [columns].
    rewrite <- (omap_lookup_seq (columns d)) at 2. apply omap_sublist, sublist_filter.
  - intros c. unfold labels, select_dtypes_number, take_columns, numeric_columns, dtype_in.
    cbn [columns]. rewrite list_elem_of_omap. split.
    + intros (j & Hj & Hjc). apply list_elem_of_filter in Hj as [Hj _].
      destruct (get_loc c (columns d)) as [j0|] eqn:Hj0.
      * apply get_loc_Some in Hj0. cbn [mbind option_bind].
        by rewrite (NoDup_lookup _ _ _ _ Hnd Hj0 Hjc).
      * apply get_loc_None in Hj0. exfalso. apply Hj0. by eapply list_elem_of_lookup_2.
    + intros Hnum. destruct (get_loc c (columns d)) as [j0|] eqn:Hj0; [|done].
      cbn [mbind option_bind] in Hnum. apply get_loc_lt in Hj0 as Hlt.
      apply get_loc_Some in Hj0. exists j0. split; [|done].
      apply list_elem_of_filter. split; [done|]. apply elem_of_seq. lia.
  - rewrite (plot_correlation_matrix_run w data d Hd). fold labels.
    case_decide as Hl; eexists _, _; (split; [reflexivity|]); cbn [heap trace];
      (split; [by apply heap_lookup_old|]); split; intros Hl'; try done.
    split; [done|]. by eexists.
Qed.

Lemma plot_correlation_matrix_labels_witness :
  let d := combined red_example white_example in
  let labels := columns (select_dtypes_number d) in
  sublist labels (columns d) ∧
  (∀ c, c ∈ labels ↔ dtype_in c d = Some numeric) ∧
  ∃ r w',
    plot_correlation_matrix 0 (world_with d) = (r, w') ∧
    heap w' !! 0 = Some d ∧
    (labels = [] → r = Raise empty_matrix_error ∧ trace w' = trace (world_with d)) ∧
    (labels ≠ [] →
     r = Ok () ∧
     ∃ m, trace w' = trace (world_with d)
                     ++ [Heatmap labels m; Savefig "correlation_heatmap.png"]).
Proof.
  intros d. apply (plot_correlation_matrix_labels (world_with d) 0 d).
  - reflexivity.
  - apply (bool_decide_unpack _). vm_compute. exact I.
Defined.

(** [wine_type] holds strings: it is the one column of the combined table
    the heat map leaves out.  A table of strings alone has no heat map. *)
Example plot_correlation_matrix_strings :
  columns (select_dtypes_number (combined red_example white_example))
    = columns red_example ∧
  ∃ w', plot_correlation_matrix 0 (world_with string_example)
          = (Raise empty_matrix_error, w') ∧
        trace w' = trace (world_with string_example).
Proof. split; [reflexivity|]. eexists. split; reflexivity. Qed.

(** ** A run on files without a [quality] column *)

Lemma elem_of_columns_concat c a b :
  c ∈ columns (concat [a; b]) → c ∈ columns a ∨ c ∈ columns b.
Proof.
  unfold concat. cbn [columns union_columns app]. rewrite elem_of_app.
  intros [Hc|Hc]; apply list_elem_of_filter in Hc as [_ Hc]; [by left | by right].
Qed.

Lemma elem_of_columns_combined c red white :
  c ∈ columns (combined red white) → c = "wine_type" ∨ c ∈ columns red ∨ c ∈ columns white.
Proof.
  unfold combined, set_scalar. intros [Hc|Hc]%elem_of_columns_concat;
    rewrite columns_assign in Hc; case_decide; try (by auto);
    apply elem_of_app in Hc as [Hc|Hc%list_elem_of_singleton]; auto.
Qed.

(** X18. On files that have no [quality] column, a run whose combined
    table has a column of numeric dtype shows the whole exploration of the
    combined table and then ends with [KeyError] in the histogram stage: no
    modelling output is produced. *)
Theorem main_missing_quality `{Sklearn} w red white :
  read_csv w "winequality-red.csv" ";" = Some red →
  read_csv w "winequality-white.csv" ";" = Some white →
  "quality" ∉ columns red → "quality" ∉ columns white →
  columns (select_dtypes_number (combined red white)) ≠ [] →
  ∃ w', main w = (Raise (KeyError "quality"), w') ∧
        trace w' = trace w ++ exploration_events (combined red white).
Proof.
  intros Hred Hwhite Hqr Hqw Hnum.
  set (raw := combined red white). set (cleaned := drop_duplicates (dropna raw)).
  assert (Hq : column "quality" cleaned = None).
  { destruct (column "quality" cleaned) eqn:E; [|done].
    apply column_elem_of, elem_of_columns_combined in E as [?|[?|?]]; done. }
  unfold main. cbv zeta.
  erewrite bind_Ok
    by (apply load_and_explore_data_run; [done | done | apply column_wine_type_is_Some]).
  cbv beta iota. fold raw. do 2 step_emit.
  erewrite bind_Ok
    by (rewrite (plot_correlation_matrix_run _ _ raw) by seg_lookup;
        rewrite decide_False by exact Hnum; reflexivity).
  world_norm.
  erewrite bind_Ok by (apply preprocess_data_run; seg_lookup). world_norm.
  fold cleaned.
  match goal with |- context [(plot_histogram ?r ≫= _) ?W] =>
    pose proof (plot_histogram_run W r cleaned ltac:(seg_lookup)) as Hh end.
  rewrite Hq in Hh. erewrite bind_Raise by exact Hh.
  eexists. split; [reflexivity|]. reflexivity.
Qed.

Lemma main_missing_quality_witness :
  let H := example_sklearn in
  let w := example_world red_unrated_example white_unrated_example in
  ∃ w', main w = (Raise (KeyError "quality"), w') ∧
        trace w' = trace w ++ exploration_events
                                (combined red_unrated_example white_unrated_example).
Proof.
  intros H w.
  apply (main_missing_quality w red_unrated_example white_unrated_example).
  - reflexivity.
  - reflexivity.
  - apply (bool_decide_unpack _). vm_compute. exact I.
  - apply (bool_decide_unpack _). vm_compute. exact I.
  - discriminate.
Defined.

(** ** What the loading stage shows and counts *)

(** X19. The loading stage shows, in this order, the summary of the
    combined table, its box plot and the count plot of the tags, saving
    the two figures; the tags are [red] for every row of the red file
    followed by [white] for every row of the white file, also when a file
    already had a [wine_type] column. *)
Theorem load_and_explore_data_shows w red_file white_file red white :
  read_csv w red_file ";" = Some red →
  read_csv w white_file ";" = Some white →
  well_formed red → well_formed white →
  ∃ data missing_values duplicate_count w' d wine_type,
    load_and_explore_data red_file white_file w
      = (Ok (data, missing_values, duplicate_count), w') ∧
    heap w' !! data = Some d ∧
    column "wine_type" d = Some wine_type ∧
    wine_type = replicate (length (rows red)) (Str "red")
                ++ replicate (length (rows white)) (Str "white") ∧
    trace w' = trace w ++ [Info d; Boxplot d; Savefig "boxplot_outliers.png";
                           Countplot wine_type; Savefig "countplot_wine_type.png"].
Proof.
  intros Hred Hwhite Hwr Hww.
  pose proof (column_wine_type_combined red white Hwr Hww) as Hwt.
  eexists _, _, _, _, (combined red white), _.
  split; [apply load_and_explore_data_run; [done | done | apply column_wine_type_is_Some]|].
  split; [seg_lookup|]. split; [exact Hwt|]. split; [done|].
  cbn [trace]. unfold load_events. by rewrite Hwt.
Qed.

Lemma load_and_explore_data_shows_witness :
  ∃ data missing_values duplicate_count w' d wine_type,
    load_and_explore_data "winequality-red.csv" "winequality-white.csv"
      (example_world red_example white_example)
      = (Ok (data, missing_values, duplicate_count), w') ∧
    heap w' !! data = Some d ∧
    column "wine_type" d = Some wine_type ∧
    wine_type = replicate (length (rows red_example)) (Str "red")
                ++ replicate (length (rows white_example)) (Str "white") ∧
    trace w' = trace (example_world red_example white_example)
               ++ [Info d; Boxplot d; Savefig "boxplot_outliers.png";
                   Countplot wine_type; Savefig "countplot_wine_type.png"].
Proof.
  apply (load_and_explore_data_shows (example_world red_example white_example)
           "winequality-red.csv" "winequality-white.csv" red_example white_example).
  - reflexivity.
  - reflexivity.
  - repeat constructor.
  - repeat constructor.
Defined.

Lemma sum_mask_duplicated d :
  sum_mask (duplicated d) + length (remove_dups (values d)) = length (rows d).
Proof.
  pose proof (length_dedup_from [] (rows d)) as Hlen.
  fold (values d) in Hlen. fold (duplicated d) in Hlen.
  assert (Hp : (dedup_from [] (rows d)).*2 ≡ₚ remove_dups (values d)).
  { apply NoDup_Permutation.
    - apply dedup_from_NoDup.
    - apply NoDup_remove_dups.
    - intros x. rewrite dedup_from_elem_of, elem_of_remove_dups. unfold values.
      split; [by intros [? _] | intros ?; split; [done | by intros ?%elem_of_nil]]. }
  apply Permutation_length in Hp. rewrite length_fmap in Hp. lia.
Qed.

(** X20. The duplicate count the loading stage returns is the number of
    rows of the combined table minus the number of its distinct rows. *)
Theorem load_and_explore_data_duplicate_count w red_file white_file red white :
  read_csv w red_file ";" = Some red →
  read_csv w white_file ";" = Some white →
  ∃ data missing_values duplicate_count w' d,
    load_and_explore_data red_file white_file w
      = (Ok (data, missing_values, duplicate_count), w') ∧
    heap w' !! data = Some d ∧
    duplicate_count + length (remove_dups (values d)) = length (rows d).
Proof.
  intros Hred Hwhite. eexists _, _, _, _, (combined red white).
  split; [apply load_and_explore_data_run; [done | done | apply column_wine_type_is_Some]|].
  split; [seg_lookup|]. apply sum_mask_duplicated.
Qed.

Lemma load_and_explore_data_duplicate_count_witness :
  ∃ data missing_values duplicate_count w' d,
    load_and_explore_data "winequality-red.csv" "winequality-white.csv"
      (example_world red_example white_example)
      = (Ok (data, missing_values, duplicate_count), w') ∧
    heap w' !! data = Some d ∧
    duplicate_count + length (remove_dups (values d)) = length (rows d).
Proof.
  apply (load_and_explore_data_duplicate_count (example_world red_example white_example)
           "winequality-red.csv" "winequality-white.csv" red_example white_example).
  - reflexivity.
  - reflexivity.
Defined.

(** ** A stage that fails shows nothing *)

Lemma silent_failure_bind {A B} (m : M A) (k : A → M B) :
  extends_with (λ _, False) m → (∀ a, silent_failure (k a)) → silent_failure (m ≫= k).
Proof.
  intros Hm Hk w e w' Hrun. destruct (Hm w) as (rest & Ht & Hrest).
  destruct rest as [|ev rest]; [|by apply list.Forall_cons in Hrest as [[] _]].
  rewrite app_nil_r in Ht. unfold mbind, M_bind in Hrun.
  destruct (m w) as [[a|e0] w1] eqn:E; cbn [snd] in Ht.
  - rewrite <- Ht. by eapply Hk.
  - by injection Hrun as <- <-.
Qed.

Ltac silent_step :=
  first
    [ apply silent_failure_bind; [solve [solve_extends] | intros ?]
    | match goal with |- silent_failure (match ?x with _ => _ end) => destruct x end ].

Ltac silent_tail :=
  let Hr := fresh in
  intros ? ? ? Hr; unfold savefig, emit, mbind, M_bind, mret, M_ret in Hr;
  discriminate Hr.

(** X21. A stage of the modelling part that raises has shown nothing: every
    step that can fail comes before the stage draws and saves its figure. *)
Theorem modelling_stage_silent_failure `{Sklearn} data features target :
  silent_failure (plot_histogram data) ∧
  silent_failure (perform_clustering data features) ∧
  silent_failure (visualize_clusters data) ∧
  silent_failure (perform_regression data features target).
Proof.
  split_and!.
  - unfold plot_histogram. repeat silent_step. silent_tail.
  - unfold perform_clustering. repeat silent_step. silent_tail.
  - unfold visualize_clusters. repeat silent_step. cbv zeta. silent_tail.
  - unfold perform_regression. repeat silent_step. silent_tail.
Qed.

(** ** The objects of a completed run *)

Ltac stage_raises := let Hr := fresh in intros Hr; discriminate Hr.

(** X22. A completed run changes no table that existed before, and of the
    tables it builds only the cleaned one is changed afterwards: at the end
    the combined table is as it was loaded, the cluster labels are in the
    cleaned table, and it is this labelled table that the regression stage
    reads its features from. *)
Theorem main_objects `{Sklearn} w red white w' :
  read_csv w "winequality-red.csv" ";" = Some red →
  read_csv w "winequality-white.csv" ";" = Some white →
  main w = (Ok (), w') →
  let raw := combined red white in
  let cleaned := drop_duplicates (dropna raw) in
  ∃ clustered silhouette_avg sse X_clustering X_regression,
    clustering_result cleaned features = Ok (clustered, silhouette_avg, sse) ∧
    select features cleaned = Some X_clustering ∧
    select features clustered = Some X_regression ∧
    heap w' = heap w ++ [set_scalar "wine_type" (Str "red") red;
                         set_scalar "wine_type" (Str "white") white;
                         raw; select_dtypes_number raw; dropna raw; clustered;
                         X_clustering; X_regression].
Proof.
  intros Hred Hwhite Hrun raw cleaned. revert Hrun.
  unfold main. cbv zeta.
  erewrite bind_Ok
    by (apply load_and_explore_data_run; [done | done | apply column_wine_type_is_Some]).
  cbv beta iota. fold raw. do 2 step_emit.
  destruct (decide (columns (select_dtypes_number raw) = [])) as [Hnil|Hnum].
  { erewrite bind_Raise
      by (rewrite (plot_correlation_matrix_run _ _ raw) by seg_lookup;
          rewrite decide_True by exact Hnil; reflexivity).
    stage_raises. }
  erewrite bind_Ok
    by (rewrite (plot_correlation_matrix_run _ _ raw) by seg_lookup;
        rewrite decide_False by exact Hnum; reflexivity).
  world_norm.
  erewrite bind_Ok by (apply preprocess_data_run; seg_lookup). world_norm.
  fold cleaned.
  match goal with |- context [(plot_histogram ?r ≫= _) ?W] =>
    pose proof (plot_histogram_run W r cleaned ltac:(seg_lookup)) as Hh end.
  destruct (column "quality" cleaned) as [quality|] eqn:Hq.
  2:{ erewrite bind_Raise by exact Hh. stage_raises. }
  erewrite bind_Ok by exact Hh. clear Hh. world_norm.
  match goal with |- context [(perform_clustering ?r ?fs ≫= _) ?W] =>
    pose proof (perform_clustering_run W r cleaned fs ltac:(seg_lookup)) as Hc end.
  destruct (clustering_result cleaned features) as [[[clustered silhouette_avg] sse]|e] eqn:Hcl.
  2:{ destruct Hc as [w0 Hc]. erewrite bind_Raise by exact Hc. stage_raises. }
  destruct Hc as (X & HX & Hc). erewrite bind_Ok by exact Hc. clear Hc.
  cbv beta iota. world_norm. seg_insert. world_norm. step_emit.
  match goal with |- context [(visualize_clusters ?r ≫= _) ?W] =>
    pose proof (visualize_clusters_run W r clustered ltac:(seg_lookup)) as Hv end.
  destruct (column "alcohol" clustered) as [alcohol|] eqn:Ha.
  2:{ destruct Hv as [e Hv]. erewrite bind_Raise by exact Hv. stage_raises. }
  destruct (column "volatile acidity" clustered) as [volatile_acidity|] eqn:Hva.
  2:{ destruct Hv as [e Hv]. erewrite bind_Raise by exact Hv. stage_raises. }
  destruct (column "cluster" clustered) as [cluster|] eqn:Hcc.
  2:{ destruct Hv as [e Hv]. erewrite bind_Raise by exact Hv. stage_raises. }
  erewrite bind_Ok by exact Hv. clear Hv. world_norm.
  match goal with |- context [(perform_regression ?r ?fs ?t ≫= _) ?W] =>
    pose proof (perform_regression_run W r clustered fs t ltac:(seg_lookup)) as Hr end.
  destruct (regression_result (values <$> select features clustered) target
              (column target clustered) (column "alcohol" clustered)
              (column "quality" clustered)) as [mse|e] eqn:Hreg.
  2:{ destruct Hr as [w0 Hr]. erewrite bind_Raise by exact Hr. stage_raises. }
  destruct Hr as (X' & alcohol' & plot_quality & HX' & Ha' & Hpq & Hr).
  erewrite bind_Ok by exact Hr. clear Hr. unfold emit. world_norm.
  intros [= <-]. exists clustered, silhouette_avg, sse, X, X'. cbn [heap].
  split_and!; [reflexivity | exact HX | exact HX' | reflexivity].
Qed.

Lemma main_objects_witness :
  let H := example_sklearn in
  let w := example_world red_example white_example in
  let raw := combined red_example white_example in
  let cleaned := drop_duplicates (dropna raw) in
  ∃ w',
    main w = (Ok (), w') ∧
    ∃ clustered silhouette_avg sse X_clustering X_regression,
      clustering_result cleaned features = Ok (clustered, silhouette_avg, sse) ∧
      select features cleaned = Some X_clustering ∧
      select features clustered = Some X_regression ∧
      heap w' = heap w ++ [set_scalar "wine_type" (Str "red") red_example;
                           set_scalar "wine_type" (Str "white") white_example;
                           raw; select_dtypes_number raw; dropna raw; clustered;
                           X_clustering; X_regression].
Proof.
  intros H w raw cleaned. eexists. split; [vm_compute; reflexivity|].
  apply (main_objects w red_example white_example).
  - reflexivity.
  - reflexivity.
  - vm_compute. reflexivity.
Defined.

(** ** The score and the elbow curve *)

Lemma mapM_result_Ok {A B} (f : A → result B) (l : list A) (r : list B) :
  mapM f l = Ok r →
  length r = length l ∧ ∀ i a, l !! i = Some a → ∃ b, r !! i = Some b ∧ f a = Ok b.
Proof.
  revert r. induction l as [|a l IH]; intros r; cbn [mapM].
  - intros [= <-]. split; [done|]. by intros i a' ?.
  - destruct (f a) as [b|] eqn:Hb; cbn [mbind result_bind]; [|done].
    destruct (mapM f l) as [bs|]; cbn [mbind result_bind]; [|done].
    intros [= <-]. destruct (IH bs eq_refl) as [Hlen Hi].
    split; [cbn; by rewrite Hlen|]. intros [|i] a'; cbn.
    + intros [= <-]. by exists b.
    + apply Hi.
Qed.

(** X23. The silhouette score and the elbow curve are computed on the
    feature columns as they were when the stage was entered, a copy that
    the assignment of the labels does not change: the score is that of the
    copy with the labels read back from the table, and the curve has, for
    every [k] from 1 to 10 in order, the inertia of k-means with [k]
    clusters and seed 42 on the copy. *)
Theorem perform_clustering_outputs `{Sklearn} w data d features r silhouette_avg w' :
  heap w !! data = Some d →
  perform_clustering data features w = (Ok (r, silhouette_avg), w') →
  ∃ X d' cluster sse,
    select features d = Some X ∧
    heap w' !! data = Some d' ∧ column "cluster" d' = Some cluster ∧
    silhouette_score (values X) cluster = Ok silhouette_avg ∧
    trace w' = trace w ++ [Lineplot (seq 1 10) sse; Savefig "elbow_plot.png"] ∧
    length sse = 10 ∧
    ∀ k, 1 ≤ k ≤ 10 →
      ∃ inertia, sse !! (k - 1) = Some inertia ∧
                 KMeans_inertia k 42 (values X) = Ok inertia.
Proof.
  intros Hd Hrun.
  destruct (perform_clustering_Ok _ _ _ _ _ _ _ Hd Hrun) as (d' & sse & X & Hres & HX & -> & ->).
  apply clustering_result_Ok in Hres as (X0 & labels & cluster & HX0 & _ & _ & Hd' & Hc & Hs & Hm).
  rewrite HX in HX0. injection HX0 as <-.
  apply mapM_result_Ok in Hm as [Hlen Hk].
  exists X, d', cluster, sse. cbn [heap trace]. apply lookup_lt_Some in Hd as Hlt.
  split_and!; try done.
  - rewrite lookup_app_l by (by rewrite length_insert). by apply list_lookup_insert_eq.
  - intros k Hk1. apply (Hk (k - 1) k). apply lookup_seq. lia.
Qed.

Lemma perform_clustering_outputs_witness :
  let H := example_sklearn in
  let w := world_with plotted_example in
  ∃ r silhouette_avg w',
    perform_clustering 0 ["pH"; "alcohol"] w = (Ok (r, silhouette_avg), w') ∧
    ∃ X d' cluster sse,
      select ["pH"; "alcohol"] plotted_example = Some X ∧
      heap w' !! 0 = Some d' ∧ column "cluster" d' = Some cluster ∧
      silhouette_score (values X) cluster = Ok silhouette_avg ∧
      trace w' = trace w ++ [Lineplot (seq 1 10) sse; Savefig "elbow_plot.png"] ∧
      length sse = 10 ∧
      ∀ k, 1 ≤ k ≤ 10 →
        ∃ inertia, sse !! (k - 1) = Some inertia ∧
                   KMeans_inertia k 42 (values X) = Ok inertia.
Proof.
  intros H w. eexists _, _, _. split; [vm_compute; reflexivity|].
  apply (perform_clustering_outputs w 0 plotted_example ["pH"; "alcohol"] 0).
  - reflexivity.
  - vm_compute. reflexivity.
Defined.
